(** * Inkwell Haven: the content store (server/storage.ts over shared/schema.ts)

    A shallow embedding of [DatabaseStorage] and of the tables it runs on.

    - A table is the list of its rows, in insertion order.
    - A column that may hold SQL NULL is an [option]; a property of a
      TypeScript object that may be left out ([undefined]) is a [field].
    - A [string] stands for a text that Postgres takes (one without a NUL
      character), a [Z] for a JavaScript number that is an integer.
    - [gen_random_uuid()], [now()] and [new Date()] read the [World]: it
      carries the database, a clock and the supply of generated ids.  The
      server and the database read the same clock, and it stands still
      while one operation runs.
    - A statement that breaks a primary-key or foreign-key constraint of
      the schema throws, and so does one that hands an [integer] column a
      number outside int4; what was written before the throw stays written
      (the store opens no transaction). *)

From Stdlib Require Import List String ZArith Bool Arith Lia.
From Stdlib Require Import Sorted Permutation DecimalString.
Import ListNotations.

Local Open Scope string_scope.
Local Open Scope Z_scope.

(** ** Values *)

(** A JavaScript property that can be [undefined]. *)
Inductive field (A : Type) : Type :=
| absent : field A
| given : A -> field A.
Arguments absent {A}.
Arguments given {A} _.

(** Postgres [timestamp], as milliseconds. *)
Definition timestamp := Z.

(** What an INSERT stores for a property: the column default when the
    property is [undefined], the property otherwise. *)
Definition or_default {A : Type} (f : field A) (dflt : A) : A :=
  match f with
  | absent => dflt
  | given v => v
  end.

(** What drizzle's [.set({...})] does with one property: a key whose value
    is [undefined] is left out of the UPDATE, the column keeps its value. *)
Definition assign {A : Type} (f : field A) (old : A) : A :=
  match f with
  | absent => old
  | given v => v
  end.

(** ** shared/schema.ts: one record per table row *)

Module User.
Record t := mk {
    id : string;
    email : option string;
    firstName : option string;
    lastName : option string;
    profileImageUrl : option string;
    bio : option string;
    username : option string;
    createdAt : option timestamp;
    updatedAt : option timestamp }.
End User.

Module Story.
Record t := mk {
    id : string;
    title : string;
    content : string;
    excerpt : option string;
    category : string;
    coverImageUrl : option string;
    authorId : string;
    published : option bool;
    publishedAt : option timestamp;
    wordCount : option Z;
    hasChapters : option bool;
    createdAt : option timestamp;
    updatedAt : option timestamp }.
End Story.

(** [InsertStory]: the insert schema omits id, createdAt, updatedAt and
    publishedAt. *)
Module InsertStory.
Record t := mk {
    title : string;
    content : string;
    excerpt : field (option string);
    category : string;
    coverImageUrl : field (option string);
    authorId : string;
    published : field (option bool);
    wordCount : field (option Z);
    hasChapters : field (option bool) }.
End InsertStory.

(** [Partial<InsertStory>]. *)
Module PartialInsertStory.
Record t := mk {
    title : field string;
    content : field string;
    excerpt : field (option string);
    category : field string;
    coverImageUrl : field (option string);
    authorId : field string;
    published : field (option bool);
    wordCount : field (option Z);
    hasChapters : field (option bool) }.
End PartialInsertStory.

Module Chapter.
Record t := mk {
    id : string;
    storyId : string;
    title : string;
    content : string;
    chapterNumber : Z;
    published : option bool;
    publishedAt : option timestamp;
    wordCount : option Z;
    createdAt : option timestamp;
    updatedAt : option timestamp }.
End Chapter.

Module InsertChapter.
Record t := mk {
    storyId : string;
    title : string;
    content : string;
    chapterNumber : Z;
    published : field (option bool);
    wordCount : field (option Z) }.
End InsertChapter.

Module Like.
Record t := mk {
    id : string;
    userId : string;
    storyId : string;
    createdAt : option timestamp }.
End Like.

Module Notification.
Record t := mk {
    id : string;
    userId : string;
    type : string;
    storyId : option string;
    read : option bool;
    createdAt : option timestamp }.
End Notification.

Module Bookmark.
Record t := mk {
    id : string;
    userId : string;
    storyId : string;
    chapterId : option string;
    position : Z;
    note : option string;
    createdAt : option timestamp }.
End Bookmark.

Module InsertBookmark.
Record t := mk {
    userId : string;
    storyId : string;
    chapterId : field (option string);
    position : Z;
    note : field (option string) }.
End InsertBookmark.

(** ** The database and its world *)

Record Db := mkDb {
  users : list User.t;
  stories : list Story.t;
  chapters : list Chapter.t;
  likes : list Like.t;
  notifications : list Notification.t;
  bookmarks : list Bookmark.t }.

Record World := mkWorld {
  db : Db;
  clock : timestamp;          (* what now() and new Date() read *)
  uuids : nat -> string;      (* the ids gen_random_uuid() hands out *)
  drawn : nat }.              (* how many of them are used up *)

Definition with_db (w : World) (d : Db) : World :=
  mkWorld d (clock w) (uuids w) (drawn w).

Definition with_stories (d : Db) (l : list Story.t) : Db :=
  mkDb (users d) l (chapters d) (likes d) (notifications d) (bookmarks d).
Definition with_chapters (d : Db) (l : list Chapter.t) : Db :=
  mkDb (users d) (stories d) l (likes d) (notifications d) (bookmarks d).
Definition with_likes (d : Db) (l : list Like.t) : Db :=
  mkDb (users d) (stories d) (chapters d) l (notifications d) (bookmarks d).
Definition with_notifications (d : Db) (l : list Notification.t) : Db :=
  mkDb (users d) (stories d) (chapters d) (likes d) l (bookmarks d).
Definition with_bookmarks (d : Db) (l : list Bookmark.t) : Db :=
  mkDb (users d) (stories d) (chapters d) (likes d) (notifications d) l.

(** ** The store monad: state, and the faults the database raises *)

Inductive DbError : Type :=
| unique_violation             (* 23505: a primary key is already taken *)
| foreign_key_violation        (* 23503: a referenced row does not exist *)
| numeric_value_out_of_range.  (* 22003: a number does not fit its column *)

Inductive Outcome (A : Type) : Type :=
| Ok : A -> Outcome A
| Throw : DbError -> Outcome A.
Arguments Ok {A} _.
Arguments Throw {A} _.

Definition M (A : Type) : Type := World -> Outcome A * World.

Definition ret {A : Type} (a : A) : M A := fun w => (Ok a, w).

Definition bind {A B : Type} (m : M A) (k : A -> M B) : M B :=
  fun w =>
    match m w with
    | (Ok a, w') => k a w'
    | (Throw e, w') => (Throw e, w')
    end.

Definition throw {A : Type} (e : DbError) : M A := fun w => (Throw e, w).
Definition read_db : M Db := fun w => (Ok (db w), w).
Definition write_db (d : Db) : M unit := fun w => (Ok tt, with_db w d).

Declare Scope store_scope.
Delimit Scope store_scope with store.
Notation "x <- m ;; k" := (bind m (fun x => k))
  (at level 61, m at next level, right associativity) : store_scope.
Notation "m ;;; k" := (bind m (fun _ => k))
  (at level 61, right associativity) : store_scope.
Local Open Scope store_scope.

(** [new Date()] in the server and [now()] in a column default. *)
Definition now : M timestamp := fun w => (Ok (clock w), w).

(** The column default [gen_random_uuid()]. *)
Definition gen_random_uuid : M string :=
  fun w => (Ok (uuids w (drawn w)),
            mkWorld (db w) (clock w) (uuids w) (S (drawn w))).

(** ** Conditions of the schema *)

Definition has_user (d : Db) (i : string) : bool :=
  existsb (fun u => User.id u =? i)%string (users d).
Definition has_story (d : Db) (i : string) : bool :=
  existsb (fun s => Story.id s =? i)%string (stories d).
Definition has_chapter (d : Db) (i : string) : bool :=
  existsb (fun c => Chapter.id c =? i)%string (chapters d).

(** A nullable reference is checked only when it is not NULL. *)
Definition references (has : string -> bool) (r : option string) : bool :=
  match r with
  | None => true
  | Some i => has i
  end.

(** The checks every INSERT goes through: the primary key is free, then
    every reference points at a row. *)
Definition constrained {A : Type} (pk_taken fk_ok : bool) (m : M A) : M A :=
  if pk_taken then throw unique_violation
  else if negb fk_ok then throw foreign_key_violation
  else m.

(** Postgres [integer] is int4. *)
Definition int4 (z : Z) : bool :=
  (-2147483648 <=? z) && (z <=? 2147483647).

Definition int4_nullable (z : option Z) : bool :=
  match z with
  | None => true
  | Some v => int4 v
  end.

(** A property of a [.set({...})]: one that is left out sends no number. *)
Definition int4_field (f : field (option Z)) : bool :=
  match f with
  | absent => true
  | given z => int4_nullable z
  end.

(** The numbers of a statement are its parameters.  Postgres reads them
    into the types of their columns before it runs the statement: a number
    outside the range of its column fails the statement there, before a
    default is taken, a row is looked at or a constraint is checked. *)
Definition within_range {A : Type} (ok : bool) (m : M A) : M A :=
  if ok then m else throw numeric_value_out_of_range.

(** ** Statements on one table *)

(** [SELECT ... WHERE c], rows in table order. *)
Definition select_where {R : Type} (c : R -> bool) (rows : list R) : list R :=
  filter c rows.

(** [DELETE ... WHERE c]. *)
Definition delete_where {R : Type} (c : R -> bool) (rows : list R) : list R :=
  filter (fun r => negb (c r)) rows.

(** [UPDATE ... SET ... WHERE c]: the table after the update. *)
Definition update_where {R : Type} (c : R -> bool) (set : R -> R)
    (rows : list R) : list R :=
  map (fun r => if c r then set r else r) rows.

(** [... RETURNING *]: the rows the update wrote. *)
Definition returning {R : Type} (c : R -> bool) (set : R -> R)
    (rows : list R) : list R :=
  map set (filter c rows).

(** [ORDER BY]: a stable insertion sort; [first a b] says that [a] may
    stand before [b].  Rows that tie on every term of the order keep their
    table order here.  SQL leaves the order of such rows open, so the
    properties of an ordered result are stated as: it is sorted, and it
    holds these rows (a permutation); none of them fixes the order of rows
    that tie. *)
Fixpoint insert_row {R : Type} (first : R -> R -> bool) (x : R)
    (l : list R) : list R :=
  match l with
  | [] => [x]
  | y :: l' => if first x y then x :: l else y :: insert_row first x l'
  end.

Definition order_by {R : Type} (first : R -> R -> bool) (rows : list R)
    : list R :=
  fold_right (insert_row first) [] rows.

(** [desc(column)] on a nullable timestamp: Postgres puts NULL first in a
    descending order. *)
Definition compare_desc (x y : option timestamp) : comparison :=
  match x, y with
  | None, None => Eq
  | None, Some _ => Lt
  | Some _, None => Gt
  | Some a, Some b => Z.compare b a
  end.

Definition not_after (c : comparison) : bool :=
  match c with
  | Gt => false
  | _ => true
  end.

(** ** Story operations *)

Definition createStory (story : InsertStory.t) : M Story.t :=
  within_range (int4_nullable (or_default (InsertStory.wordCount story) (Some 0))) (
  id <- gen_random_uuid ;;
  t <- now ;;
  d <- read_db ;;
  let newStory :=
    Story.mk id
      (InsertStory.title story)
      (InsertStory.content story)
      (or_default (InsertStory.excerpt story) None)
      (InsertStory.category story)
      (or_default (InsertStory.coverImageUrl story) None)
      (InsertStory.authorId story)
      (or_default (InsertStory.published story) (Some false))
      None
      (or_default (InsertStory.wordCount story) (Some 0))
      (or_default (InsertStory.hasChapters story) (Some false))
      (Some t)
      (Some t) in
  constrained (has_story d id) (has_user d (InsertStory.authorId story))
    (write_db (with_stories d (stories d ++ [newStory])) ;;; ret newStory)).

Definition getStory (id : string) : M (option Story.t) :=
  d <- read_db ;;
  ret (hd_error (select_where (fun s => Story.id s =? id)%string (stories d))).

(** [eq(stories.published, true)]: NULL is not true. *)
Definition eq_published_true (s : Story.t) : bool :=
  match Story.published s with
  | Some true => true
  | _ => false
  end.

Definition getStoriesByAuthor (authorId : string) : M (list Story.t) :=
  d <- read_db ;;
  ret (order_by
         (fun a b => not_after (compare_desc (Story.publishedAt a) (Story.publishedAt b)))
         (select_where
            (fun s => (Story.authorId s =? authorId)%string && eq_published_true s)
            (stories d))).

(** [UPDATE stories SET ... WHERE id = ... RETURNING *].  The reference of
    author_id is checked on the rows whose author_id the update changes. *)
Definition update_stories (id : string) (set : Story.t -> Story.t)
    : M (list Story.t) :=
  d <- read_db ;;
  let c := fun s => (Story.id s =? id)%string in
  if forallb
       (fun s => (Story.authorId (set s) =? Story.authorId s)%string
                 || has_user d (Story.authorId (set s)))
       (select_where c (stories d))
  then write_db (with_stories d (update_where c set (stories d))) ;;;
       ret (returning c set (stories d))
  else throw foreign_key_violation.

(** [.set({ ...updates, updatedAt: new Date() })] *)
Definition set_updates (updates : PartialInsertStory.t) (t : timestamp)
    (s : Story.t) : Story.t :=
  Story.mk (Story.id s)
    (assign (PartialInsertStory.title updates) (Story.title s))
    (assign (PartialInsertStory.content updates) (Story.content s))
    (assign (PartialInsertStory.excerpt updates) (Story.excerpt s))
    (assign (PartialInsertStory.category updates) (Story.category s))
    (assign (PartialInsertStory.coverImageUrl updates) (Story.coverImageUrl s))
    (assign (PartialInsertStory.authorId updates) (Story.authorId s))
    (assign (PartialInsertStory.published updates) (Story.published s))
    (Story.publishedAt s)
    (assign (PartialInsertStory.wordCount updates) (Story.wordCount s))
    (assign (PartialInsertStory.hasChapters updates) (Story.hasChapters s))
    (Story.createdAt s)
    (Some t).

Definition updateStory (id : string) (updates : PartialInsertStory.t)
    : M (option Story.t) :=
  within_range (int4_field (PartialInsertStory.wordCount updates)) (
  t <- now ;;
  rows <- update_stories id (set_updates updates t) ;;
  ret (hd_error rows)).

(** [.set({ published: true, publishedAt: new Date(), updatedAt: new Date() })] *)
Definition set_published (t1 t2 : timestamp) (s : Story.t) : Story.t :=
  Story.mk (Story.id s) (Story.title s) (Story.content s) (Story.excerpt s)
    (Story.category s) (Story.coverImageUrl s) (Story.authorId s)
    (Some true) (Some t1)
    (Story.wordCount s) (Story.hasChapters s) (Story.createdAt s) (Some t2).

Definition publishStory (id : string) : M (option Story.t) :=
  t1 <- now ;;
  t2 <- now ;;
  rows <- update_stories id (set_published t1 t2) ;;
  ret (hd_error rows).

(** [.set({ hasChapters: true, updatedAt: new Date() })] *)
Definition set_hasChapters (t : timestamp) (s : Story.t) : Story.t :=
  Story.mk (Story.id s) (Story.title s) (Story.content s) (Story.excerpt s)
    (Story.category s) (Story.coverImageUrl s) (Story.authorId s)
    (Story.published s) (Story.publishedAt s)
    (Story.wordCount s) (Some true) (Story.createdAt s) (Some t).

Definition enableChaptersOnStory (id : string) : M (option Story.t) :=
  t <- now ;;
  rows <- update_stories id (set_hasChapters t) ;;
  ret (hd_error rows).

(** ** Like and notification operations *)

Record ToggleResult := mkToggleResult {
  liked : bool;
  count : nat }.

(** [db.insert(likes).values({ userId, storyId })] *)
Definition insert_likes (userId storyId : string) : M Like.t :=
  id <- gen_random_uuid ;;
  t <- now ;;
  d <- read_db ;;
  let row := Like.mk id userId storyId (Some t) in
  constrained
    (existsb (fun l => Like.id l =? id)%string (likes d))
    (has_user d userId && has_story d storyId)
    (write_db (with_likes d (likes d ++ [row])) ;;; ret row).

Definition getLikeCount (storyId : string) : M nat :=
  d <- read_db ;;
  ret (List.length (select_where (fun l => Like.storyId l =? storyId)%string (likes d))).

Definition createNotification (userId type : string) (storyId : option string)
    : M Notification.t :=
  id <- gen_random_uuid ;;
  t <- now ;;
  d <- read_db ;;
  let notification := Notification.mk id userId type storyId (Some false) (Some t) in
  constrained
    (existsb (fun n => Notification.id n =? id)%string (notifications d))
    (has_user d userId && references (has_story d) storyId)
    (write_db (with_notifications d (notifications d ++ [notification])) ;;;
     ret notification).

(** The condition [and(eq(likes.userId, userId), eq(likes.storyId, storyId))]. *)
Definition like_of (userId storyId : string) (l : Like.t) : bool :=
  (Like.userId l =? userId)%string && (Like.storyId l =? storyId)%string.

Definition toggleLike (userId storyId : string) : M ToggleResult :=
  d <- read_db ;;
  let existingLike := firstn 1 (select_where (like_of userId storyId) (likes d)) in
  if (0 <? List.length existingLike)%nat then
    (* Unlike *)
    write_db (with_likes d (delete_where (like_of userId storyId) (likes d))) ;;;
    count <- getLikeCount storyId ;;
    ret (mkToggleResult false count)
  else
    (* Like *)
    insert_likes userId storyId ;;;
    (* Create notification for story author *)
    story <- getStory storyId ;;
    match story with
    | Some s =>
        if negb (Story.authorId s =? userId)%string
        then createNotification (Story.authorId s) "like" (Some storyId) ;;; ret tt
        else ret tt
    | None => ret tt
    end ;;;
    count <- getLikeCount storyId ;;
    ret (mkToggleResult true count).

(** ** Chapter operations *)

Definition createChapter (chapter : InsertChapter.t) : M Chapter.t :=
  within_range
    (int4 (InsertChapter.chapterNumber chapter)
     && int4_nullable (or_default (InsertChapter.wordCount chapter) (Some 0))) (
  id <- gen_random_uuid ;;
  t <- now ;;
  d <- read_db ;;
  let newChapter :=
    Chapter.mk id
      (InsertChapter.storyId chapter)
      (InsertChapter.title chapter)
      (InsertChapter.content chapter)
      (InsertChapter.chapterNumber chapter)
      (or_default (InsertChapter.published chapter) (Some false))
      None
      (or_default (InsertChapter.wordCount chapter) (Some 0))
      (Some t)
      (Some t) in
  constrained (has_chapter d id) (has_story d (InsertChapter.storyId chapter))
    (write_db (with_chapters d (chapters d ++ [newChapter])) ;;; ret newChapter)).

Definition getStoryChapters (storyId : string) : M (list Chapter.t) :=
  d <- read_db ;;
  ret (order_by
         (fun a b => Chapter.chapterNumber a <=? Chapter.chapterNumber b)
         (select_where (fun c => Chapter.storyId c =? storyId)%string (chapters d))).

(** ** Bookmarks *)

(** [.set({ note: bookmark.note, createdAt: new Date() })] *)
Definition set_note (note : field (option string)) (t : timestamp)
    (b : Bookmark.t) : Bookmark.t :=
  Bookmark.mk (Bookmark.id b) (Bookmark.userId b) (Bookmark.storyId b)
    (Bookmark.chapterId b) (Bookmark.position b)
    (assign note (Bookmark.note b)) (Some t).

Definition insert_bookmarks (bookmark : InsertBookmark.t) : M Bookmark.t :=
  within_range (int4 (InsertBookmark.position bookmark)) (
  id <- gen_random_uuid ;;
  t <- now ;;
  d <- read_db ;;
  let newBookmark :=
    Bookmark.mk id
      (InsertBookmark.userId bookmark)
      (InsertBookmark.storyId bookmark)
      (or_default (InsertBookmark.chapterId bookmark) None)
      (InsertBookmark.position bookmark)
      (or_default (InsertBookmark.note bookmark) None)
      (Some t) in
  constrained
    (existsb (fun b => Bookmark.id b =? id)%string (bookmarks d))
    (has_user d (InsertBookmark.userId bookmark)
     && has_story d (InsertBookmark.storyId bookmark)
     && references (has_chapter d) (Bookmark.chapterId newBookmark))
    (write_db (with_bookmarks d (bookmarks d ++ [newBookmark])) ;;; ret newBookmark)).

(** The condition [and(eq(bookmarks.userId, ..), eq(bookmarks.storyId, ..))]. *)
Definition bookmark_of (userId storyId : string) (b : Bookmark.t) : bool :=
  (Bookmark.userId b =? userId)%string && (Bookmark.storyId b =? storyId)%string.

Definition createBookmark (bookmark : InsertBookmark.t) : M (option Bookmark.t) :=
  d <- read_db ;;
  (* Check if bookmark already exists for this user and story *)
  let existingBookmark :=
    firstn 1 (select_where
                (bookmark_of (InsertBookmark.userId bookmark)
                             (InsertBookmark.storyId bookmark))
                (bookmarks d)) in
  match existingBookmark with
  | existing :: _ =>
      (* Update existing bookmark *)
      t <- now ;;
      let c := fun b => (Bookmark.id b =? Bookmark.id existing)%string in
      let set := set_note (InsertBookmark.note bookmark) t in
      write_db (with_bookmarks d (update_where c set (bookmarks d))) ;;;
      ret (hd_error (returning c set (bookmarks d)))
  | [] =>
      newBookmark <- insert_bookmarks bookmark ;;
      ret (Some newBookmark)
  end.

(** ** The published-story query *)

(** A row of [getPublishedStories]: the selected columns of [stories]
    (has_chapters is not selected), the author and the like count.  The
    author of a left join that found no user is null. *)
Module StoryRow.
Record t := mk {
    id : string;
    title : string;
    content : string;
    excerpt : option string;
    category : string;
    coverImageUrl : option string;
    authorId : string;
    published : option bool;
    publishedAt : option timestamp;
    wordCount : option Z;
    createdAt : option timestamp;
    updatedAt : option timestamp;
    author : option User.t;
    likeCount : nat }.
End StoryRow.

(** [a LEFT JOIN b ON on]: every row of [a] with each matching row of [b],
    or once with NULL when none matches. *)
Definition leftJoin {A B : Type} (a : list A) (b : list B) (on : A -> B -> bool)
    : list (A * option B) :=
  flat_map
    (fun x =>
       match filter (on x) b with
       | [] => [(x, None)]
       | matches => map (fun y => (x, Some y)) matches
       end)
    a.

(** [GROUP BY]: each group is its first row and the rows that follow it;
    [same] compares the grouping columns. *)
Fixpoint groupBy {R : Type} (same : R -> R -> bool) (rows : list R)
    : list (R * list R) :=
  match rows with
  | [] => []
  | r :: rest =>
      let groups := groupBy same rest in
      if existsb (fun g => same r (fst g)) groups
      then map (fun g => if same r (fst g) then (r, fst g :: snd g) else g) groups
      else (r, []) :: groups
  end.

(** A row of stories LEFT JOIN users LEFT JOIN likes. *)
Definition JoinRow : Type := Story.t * option User.t * option Like.t.

Definition story_of (r : JoinRow) : Story.t := fst (fst r).
Definition user_of (r : JoinRow) : option User.t := snd (fst r).
Definition like_in (r : JoinRow) : option Like.t := snd r.

Definition eq_nullable (a b : option string) : bool :=
  match a, b with
  | None, None => true
  | Some x, Some y => (x =? y)%string
  | _, _ => false
  end.

(** [.groupBy(stories.id, users.id)] *)
Definition same_story_and_user (r1 r2 : JoinRow) : bool :=
  (Story.id (story_of r1) =? Story.id (story_of r2))%string
  && eq_nullable (option_map User.id (user_of r1)) (option_map User.id (user_of r2)).

(** [count(likes.id)]: the rows of the group whose likes.id is not NULL. *)
Definition count_likes (g : JoinRow * list JoinRow) : nat :=
  List.length
    (filter (fun r => match like_in r with Some _ => true | None => false end)
            (fst g :: snd g)).

(** The [select({...})] list, taken on a group. *)
Definition selected (g : JoinRow * list JoinRow) : StoryRow.t :=
  let s := story_of (fst g) in
  StoryRow.mk (Story.id s) (Story.title s) (Story.content s) (Story.excerpt s)
    (Story.category s) (Story.coverImageUrl s) (Story.authorId s)
    (Story.published s) (Story.publishedAt s) (Story.wordCount s)
    (Story.createdAt s) (Story.updatedAt s)
    (user_of (fst g))
    (count_likes g).

(** The terms this query is ordered by. *)
Inductive OrderTerm : Type :=
| desc_publishedAt      (* desc(stories.publishedAt) *)
| desc_count_likes.     (* desc(count(likes.id)) *)

Definition term_compare (t : OrderTerm) (a b : StoryRow.t) : comparison :=
  match t with
  | desc_publishedAt => compare_desc (StoryRow.publishedAt a) (StoryRow.publishedAt b)
  | desc_count_likes => Nat.compare (StoryRow.likeCount b) (StoryRow.likeCount a)
  end.

(** Several terms order lexicographically. *)
Fixpoint order_compare (ts : list OrderTerm) (a b : StoryRow.t) : comparison :=
  match ts with
  | [] => Eq
  | t :: ts' =>
      match term_compare t a b with
      | Eq => order_compare ts' a b
      | c => c
      end
  end.

(** The part of drizzle's select builder that this query varies.  The
    builder keeps ONE where slot, one order and one limit.  In drizzle-orm
    each of [.where()], [.orderBy()] and [.limit()] assigns its slot and
    returns the same builder,

      where(where) { ...; this.config.where = where; return this; }

    so a second [.where()] replaces the first condition, it is not and-ed
    to it (conditions are combined with [and(...)], as getStoriesByAuthor
    does). *)
Record PgSelect := mkPgSelect {
  config_where : option (Story.t -> bool);
  config_orderBy : list OrderTerm;
  config_limit : option nat }.

Definition where_ (q : PgSelect) (c : Story.t -> bool) : PgSelect :=
  mkPgSelect (Some c) (config_orderBy q) (config_limit q).
Definition orderBy (q : PgSelect) (ts : list OrderTerm) : PgSelect :=
  mkPgSelect (config_where q) ts (config_limit q).
Definition limit (q : PgSelect) (n : nat) : PgSelect :=
  mkPgSelect (config_where q) (config_orderBy q) (Some n).

(** [db.select({...}).from(stories).leftJoin(users, ..).leftJoin(likes, ..)
      .groupBy(stories.id, users.id)] *)
Definition baseQuery : PgSelect := mkPgSelect None [] None.

Definition joined (d : Db) : list JoinRow :=
  leftJoin
    (leftJoin (stories d) (users d)
       (fun s u => (Story.authorId s =? User.id u)%string))
    (likes d)
    (fun su l => (Story.id (fst su) =? Like.storyId l)%string).

(** The rows of the query before ORDER BY and LIMIT. *)
Definition grouped (q : PgSelect) (d : Db) : list StoryRow.t :=
  let rows :=
    match config_where q with
    | Some c => filter (fun r => c (story_of r)) (joined d)
    | None => joined d
    end in
  map selected (groupBy same_story_and_user rows).

(** Awaiting the query: FROM and joins, WHERE, GROUP BY with the select
    list, ORDER BY, LIMIT. *)
Definition execute (q : PgSelect) : M (list StoryRow.t) :=
  d <- read_db ;;
  let sorted :=
    order_by (fun a b => not_after (order_compare (config_orderBy q) a b))
             (grouped q d) in
  ret match config_limit q with
      | Some n => firstn n sorted
      | None => sorted
      end.

(** [eq(stories.category, category)] *)
Definition eq_category (category : string) (s : Story.t) : bool :=
  (Story.category s =? category)%string.

(** JavaScript's [category && category !== 'all']: [undefined] and the
    empty string are falsy. *)
Definition filters_category (category : field string) : option string :=
  match category with
  | absent => None
  | given c => if (c =? "")%string || (c =? "all")%string then None else Some c
  end.

(** JavaScript's [sortBy === 'recent'] on a string that may be undefined. *)
Definition strict_eq (x : field string) (s : string) : bool :=
  match x with
  | absent => false
  | given v => (v =? s)%string
  end.

Definition getPublishedStories (category sortBy : field string)
    : M (list StoryRow.t) :=
  (* Apply filters and get results *)
  let query := where_ baseQuery eq_published_true in
  let query :=
    match filters_category category with
    | Some c => where_ query (eq_category c)
    | None => query
    end in
  (* Apply sorting *)
  let query :=
    if strict_eq sortBy "recent" then orderBy query [desc_publishedAt]
    else if strict_eq sortBy "trending"
    then orderBy query [desc_count_likes; desc_publishedAt]
    else orderBy query [desc_count_likes; desc_publishedAt] in
  execute (limit query 50).

(** * Specification vocabulary *)

(** What a call returns from a world, and the world it leaves. *)
Definition result {A : Type} (m : M A) (w : World) : Outcome A := fst (m w).
Definition after {A : Type} (m : M A) (w : World) : World := snd (m w).

(** ** The orders the queries ask for *)

(** Descending on a nullable timestamp: a later instant stands first, and
    NULL stands before every instant. *)
Definition descending (x y : option timestamp) : Prop :=
  match x, y with
  | None, _ => True
  | Some _, None => False
  | Some a, Some b => b <= a
  end.

(** The "recent" order of the feed. *)
Definition recent_order (a b : StoryRow.t) : Prop :=
  descending (StoryRow.publishedAt a) (StoryRow.publishedAt b).

(** The "trending" order of the feed: more likes first, and among rows of
    equal like count the later publication first. *)
Definition trending_order (a b : StoryRow.t) : Prop :=
  (StoryRow.likeCount b < StoryRow.likeCount a)%nat
  \/ (StoryRow.likeCount a = StoryRow.likeCount b
      /\ descending (StoryRow.publishedAt a) (StoryRow.publishedAt b)).


(** Ascending chapter numbers. *)
Definition by_chapterNumber (a b : Chapter.t) : Prop :=
  Chapter.chapterNumber a <= Chapter.chapterNumber b.

(** Descending publish timestamps of stories. *)
Definition by_publishedAt_desc (a b : Story.t) : Prop :=
  descending (Story.publishedAt a) (Story.publishedAt b).

(** ** The feed, said per story *)

(** The user a story's author_id refers to. *)
Definition author_of (d : Db) (s : Story.t) : option User.t :=
  find (fun u => (Story.authorId s =? User.id u)%string) (users d).

(** The likes a story has. *)
Definition likes_of (d : Db) (storyId : string) : list Like.t :=
  filter (fun l => (Like.storyId l =? storyId)%string) (likes d).

(** The feed row of one story: its columns, its author, the number of its
    likes. *)
Definition feed_row (d : Db) (s : Story.t) : StoryRow.t :=
  StoryRow.mk (Story.id s) (Story.title s) (Story.content s) (Story.excerpt s)
    (Story.category s) (Story.coverImageUrl s) (Story.authorId s)
    (Story.published s) (Story.publishedAt s) (Story.wordCount s)
    (Story.createdAt s) (Story.updatedAt s)
    (author_of d s)
    (List.length (likes_of d (Story.id s))).

(** The rows the two joins make of one story. *)
Definition rows_of (d : Db) (s : Story.t) : list JoinRow :=
  match filter (fun l => (Story.id s =? Like.storyId l)%string) (likes d) with
  | [] => [(s, author_of d s, None)]
  | matches => map (fun l => (s, author_of d s, Some l)) matches
  end.

(** The condition in the WHERE of getPublishedStories when the query runs:
    the builder's one slot holds the category condition when a category is
    filtered on, and the published condition otherwise. *)
Definition passes_where (category : field string) : Story.t -> bool :=
  match filters_category category with
  | Some c => eq_category c
  | None => eq_published_true
  end.

(** ** What the schema guarantees *)

(** PRIMARY KEY: no two rows of a table share an id. *)
Definition primary_key {R : Type} (id : R -> string) (rows : list R) : Prop :=
  NoDup (map id rows).

(** FOREIGN KEY stories.author_id: the author of every story is a user. *)
Definition authors_exist (d : Db) : Prop :=
  forall s, In s (stories d) -> has_user d (Story.authorId s) = true.

(** No row of any table carries the id [i]. *)
Definition unused (d : Db) (i : string) : Prop :=
  ~ In i (map Story.id (stories d))
  /\ ~ In i (map Chapter.id (chapters d))
  /\ ~ In i (map Like.id (likes d))
  /\ ~ In i (map Notification.id (notifications d))
  /\ ~ In i (map Bookmark.id (bookmarks d)).

(** The ids gen_random_uuid() has yet to hand out are new. *)
Definition fresh_ids (w : World) : Prop :=
  forall k, (drawn w <= k)%nat -> unused (db w) (uuids w k).

(** ** Likes and bookmarks of a user on a story *)

Definition likes_story (d : Db) (userId storyId : string) : Prop :=
  exists l, In l (likes d) /\ Like.userId l = userId /\ Like.storyId l = storyId.

Definition bookmarks_of (d : Db) (userId storyId : string) : list Bookmark.t :=
  filter (bookmark_of userId storyId) (bookmarks d).

(** At most one bookmark of each user on each story. *)
Definition bookmarks_unique (d : Db) : Prop :=
  forall userId storyId, (List.length (bookmarks_of d userId storyId) <= 1)%nat.

(** What the INSERT of createBookmark asks for: a position within int4,
    the user, the story and the chapter it refers to, and a generated id
    that is new. *)
Definition insert_accepted (w : World) (b : InsertBookmark.t) : Prop :=
  int4 (InsertBookmark.position b) = true
  /\ has_user (db w) (InsertBookmark.userId b) = true
  /\ has_story (db w) (InsertBookmark.storyId b) = true
  /\ references (has_chapter (db w)) (or_default (InsertBookmark.chapterId b) None)
     = true
  /\ fresh_ids w.

(** ** The publish invariant of stories *)

(** publishedAt is set exactly on the published stories, and is not
    before the row was created. *)
Definition publish_invariant (s : Story.t) : Prop :=
  (Story.publishedAt s <> None <-> Story.published s = Some true)
  /\ (forall p c,
        Story.publishedAt s = Some p -> Story.createdAt s = Some c -> c <= p).

Definition stories_invariant (w : World) : Prop :=
  Forall publish_invariant (stories (db w)).

(** The clock does not run backwards: no story was created after the
    instant the clock shows. *)
Definition clock_not_behind (w : World) : Prop :=
  Forall (fun s => forall c, Story.createdAt s = Some c -> c <= clock w)
         (stories (db w)).

(** * Sample stores *)

Definition uuid_of (n : nat) : string :=
  "uuid-" ++ NilEmpty.string_of_uint (Nat.to_uint n).

Definition alice : User.t :=
  User.mk "alice" (Some "alice@example.org") (Some "Alice") None None None
    (Some "alice") (Some 0) (Some 0).
Definition bob : User.t :=
  User.mk "bob" (Some "bob@example.org") (Some "Bob") None None None
    (Some "bob") (Some 0) (Some 0).

(** An unpublished poem and a published story, both by alice. *)
Definition ode : Story.t :=
  Story.mk "s1" "Ode" "O sea" None "poem" None "alice"
    (Some false) None (Some 2) (Some false) (Some 1) (Some 1).
Definition tale : Story.t :=
  Story.mk "s2" "Tale" "Once upon a time" None "story" None "alice"
    (Some true) (Some 5) (Some 4) (Some true) (Some 2) (Some 5).

(** Two chapters of the tale, the second written first. *)
Definition chapter_two : Chapter.t :=
  Chapter.mk "c2" "s2" "Two" "..." 2 (Some false) None (Some 1) (Some 3) (Some 3).
Definition chapter_one : Chapter.t :=
  Chapter.mk "c1" "s2" "One" "..." 1 (Some true) (Some 6) (Some 1) (Some 4) (Some 6).

Definition sample_db : Db :=
  mkDb [alice; bob] [ode; tale] [chapter_two; chapter_one]
    [Like.mk "l1" "bob" "s2" (Some 7)]
    []
    [Bookmark.mk "b1" "bob" "s2" None 0 (Some "first") (Some 8)].

Definition sample_world : World := mkWorld sample_db 10 uuid_of 0.

(** Fifty-one published stories by alice, none of them liked. *)
Definition crowd : list Story.t :=
  map (fun n =>
         Story.mk (uuid_of n) "Untitled" "..." None "story" None "alice"
           (Some true) (Some 5) (Some 0) (Some false) (Some 1) (Some 5))
      (seq 0 51).

Definition crowded_world : World :=
  mkWorld (mkDb [alice] crowd [] [] [] []) 10 uuid_of 51.

(** Three published stories and the unpublished ode.  The tale has two
    likes, dawn one, dusk none; dusk is the latest and dawn the earliest
    publication. *)
Definition dawn : Story.t :=
  Story.mk "s3" "Dawn" "..." None "poem" None "bob"
    (Some true) (Some 3) (Some 1) (Some false) (Some 3) (Some 3).
Definition dusk : Story.t :=
  Story.mk "s4" "Dusk" "..." None "poem" None "bob"
    (Some true) (Some 7) (Some 1) (Some false) (Some 6) (Some 7).

Definition busy_db : Db :=
  mkDb [alice; bob] [dawn; ode; tale; dusk] []
    [Like.mk "l1" "bob" "s2" (Some 7);
     Like.mk "l2" "alice" "s2" (Some 8);
     Like.mk "l3" "alice" "s3" (Some 8)]
    [] [].

Definition busy_world : World := mkWorld busy_db 10 uuid_of 0.

(** The sample store with a second Like row of bob on the tale: the likes
    table has no unique constraint on (user_id, story_id). *)
Definition doubled_world : World :=
  mkWorld
    (with_likes sample_db
       [Like.mk "l1" "bob" "s2" (Some 7); Like.mk "l2" "bob" "s2" (Some 7)])
    10 uuid_of 0.

(** The sample store with two notifications for alice, created at the same
    instant. *)
Definition notified_world : World :=
  mkWorld
    (with_notifications sample_db
       [Notification.mk "n1" "alice" "like" (Some "s2") (Some false) (Some 9);
        Notification.mk "n2" "alice" "like" (Some "s1") (Some false) (Some 9)])
    10 uuid_of 0.

(** The patch [{ published: true }]. *)
Definition patch_published : PartialInsertStory.t :=
  PartialInsertStory.mk absent absent absent absent absent absent
    (given (Some true)) absent absent.

(** bob bookmarks a story, with a note. *)
Definition bob_bookmarks (storyId note : string) : InsertBookmark.t :=
  InsertBookmark.mk "bob" storyId absent 0 (given (Some note)).

(** A new story by bob, as the route hands it to createStory, and the
    patch [{ title: "Ode to the sea" }]. *)
Definition bobs_story : InsertStory.t :=
  InsertStory.mk "Notes" "..." absent "story" absent "bob" absent (given (Some 1)) absent.

Definition patch_title : PartialInsertStory.t :=
  PartialInsertStory.mk (given "Ode to the sea") absent absent absent absent absent
    absent absent absent.

(** * The rest of the store *)

(** The world once gen_random_uuid() has handed out one more id. *)
Definition bump (w : World) : World :=
  mkWorld (db w) (clock w) (uuids w) (S (drawn w)).

(** ** More of the likes *)

Definition getUserLikes (userId : string) : M (list string) :=
  d <- read_db ;;
  let userLikes := select_where (fun l => (Like.userId l =? userId)%string) (likes d) in
  ret (map Like.storyId userLikes).

(** [inArray(column, values)] *)
Definition inArray (x : string) (values : list string) : bool :=
  existsb (fun v => (x =? v)%string) values.

(** The query of getUserLikedStories has the select list, the joins and
    the grouping of the published-story query; its one [.where()] holds
    [and(inArray(stories.id, likedStoryIds), eq(stories.published, true))]
    and it has no limit. *)
Definition getUserLikedStories (userId : string) : M (list StoryRow.t) :=
  likedStoryIds <- getUserLikes userId ;;
  if (List.length likedStoryIds =? 0)%nat then ret []
  else
    execute
      (orderBy
         (where_ baseQuery
            (fun s => inArray (Story.id s) likedStoryIds && eq_published_true s))
         [desc_publishedAt]).

(** At most one like of each user on each story. *)
Definition likes_unique (d : Db) : Prop :=
  forall userId storyId,
    (List.length (filter (like_of userId storyId) (likes d)) <= 1)%nat.

(** ** More of the chapters *)

(** [Partial<InsertChapter>]. *)
Module PartialInsertChapter.
Record t := mk {
  storyId : field string;
  title : field string;
  content : field string;
  chapterNumber : field Z;
  published : field (option bool);
  wordCount : field (option Z) }.
End PartialInsertChapter.

Definition getChapter (id : string) : M (option Chapter.t) :=
  d <- read_db ;;
  ret (hd_error (select_where (fun c => Chapter.id c =? id)%string (chapters d))).

(** [UPDATE chapters SET ... WHERE id = ... RETURNING *].  The reference of
    story_id is checked on the rows whose story_id the update changes. *)
Definition update_chapters (id : string) (set : Chapter.t -> Chapter.t)
    : M (list Chapter.t) :=
  d <- read_db ;;
  let c := fun x => (Chapter.id x =? id)%string in
  if forallb
       (fun x => (Chapter.storyId (set x) =? Chapter.storyId x)%string
                 || has_story d (Chapter.storyId (set x)))
       (select_where c (chapters d))
  then write_db (with_chapters d (update_where c set (chapters d))) ;;;
       ret (returning c set (chapters d))
  else throw foreign_key_violation.

(** [.set({ ...updates, updatedAt: new Date() })] *)
Definition set_chapter_updates (updates : PartialInsertChapter.t) (t : timestamp)
    (c : Chapter.t) : Chapter.t :=
  Chapter.mk (Chapter.id c)
    (assign (PartialInsertChapter.storyId updates) (Chapter.storyId c))
    (assign (PartialInsertChapter.title updates) (Chapter.title c))
    (assign (PartialInsertChapter.content updates) (Chapter.content c))
    (assign (PartialInsertChapter.chapterNumber updates) (Chapter.chapterNumber c))
    (assign (PartialInsertChapter.published updates) (Chapter.published c))
    (Chapter.publishedAt c)
    (assign (PartialInsertChapter.wordCount updates) (Chapter.wordCount c))
    (Chapter.createdAt c)
    (Some t).

Definition updateChapter (id : string) (updates : PartialInsertChapter.t)
    : M (option Chapter.t) :=
  within_range
    (match PartialInsertChapter.chapterNumber updates with
     | absent => true
     | given n => int4 n
     end
     && int4_field (PartialInsertChapter.wordCount updates)) (
  t <- now ;;
  rows <- update_chapters id (set_chapter_updates updates t) ;;
  ret (hd_error rows)).

(** [.set({ published: true, publishedAt: new Date(), updatedAt: new Date() })] *)
Definition set_chapter_published (t1 t2 : timestamp) (c : Chapter.t) : Chapter.t :=
  Chapter.mk (Chapter.id c) (Chapter.storyId c) (Chapter.title c) (Chapter.content c)
    (Chapter.chapterNumber c) (Some true) (Some t1) (Chapter.wordCount c)
    (Chapter.createdAt c) (Some t2).

Definition publishChapter (id : string) : M (option Chapter.t) :=
  t1 <- now ;;
  t2 <- now ;;
  rows <- update_chapters id (set_chapter_published t1 t2) ;;
  ret (hd_error rows).

(** ** More of the notifications *)

Definition getUserNotifications (userId : string) : M (list Notification.t) :=
  d <- read_db ;;
  ret (firstn 20
         (order_by
            (fun a b =>
               not_after (compare_desc (Notification.createdAt a)
                                       (Notification.createdAt b)))
            (select_where (fun n => (Notification.userId n =? userId)%string)
               (notifications d)))).

(** [.set({ read: true })] *)
Definition set_read (n : Notification.t) : Notification.t :=
  Notification.mk (Notification.id n) (Notification.userId n) (Notification.type n)
    (Notification.storyId n) (Some true) (Notification.createdAt n).

Definition markNotificationRead (id : string) : M unit :=
  d <- read_db ;;
  write_db
    (with_notifications d
       (update_where (fun n => (Notification.id n =? id)%string) set_read
          (notifications d))).

(** Descending creation times of notifications. *)
Definition by_createdAt_desc (a b : Notification.t) : Prop :=
  descending (Notification.createdAt a) (Notification.createdAt b).

(** ** More of the bookmarks *)

(** The story columns that getUserBookmarks selects (has_chapters is not
    among them). *)
Module StoryColumns.
Record t := mk {
  id : string;
  title : string;
  content : string;
  excerpt : option string;
  category : string;
  coverImageUrl : option string;
  authorId : string;
  published : option bool;
  publishedAt : option timestamp;
  wordCount : option Z;
  createdAt : option timestamp;
  updatedAt : option timestamp }.
End StoryColumns.

(** A row of getUserBookmarks: [Bookmark & { story: Story }]; the story of
    a left join that found none is null. *)
Module BookmarkWithStory.
Record t := mk {
  id : string;
  userId : string;
  storyId : string;
  chapterId : option string;
  position : Z;
  note : option string;
  createdAt : option timestamp;
  story : option StoryColumns.t }.
End BookmarkWithStory.

Definition story_columns (s : Story.t) : StoryColumns.t :=
  StoryColumns.mk (Story.id s) (Story.title s) (Story.content s) (Story.excerpt s)
    (Story.category s) (Story.coverImageUrl s) (Story.authorId s)
    (Story.published s) (Story.publishedAt s) (Story.wordCount s)
    (Story.createdAt s) (Story.updatedAt s).

Definition getUserBookmarks (userId : string) : M (list BookmarkWithStory.t) :=
  d <- read_db ;;
  let rows :=
    filter (fun r => (Bookmark.userId (fst r) =? userId)%string)
      (leftJoin (bookmarks d) (stories d)
         (fun b s => (Bookmark.storyId b =? Story.id s)%string)) in
  let sorted :=
    order_by
      (fun a b =>
         not_after (compare_desc (Bookmark.createdAt (fst a))
                                 (Bookmark.createdAt (fst b))))
      rows in
  ret (map
         (fun r =>
            let b := fst r in
            BookmarkWithStory.mk (Bookmark.id b) (Bookmark.userId b)
              (Bookmark.storyId b) (Bookmark.chapterId b) (Bookmark.position b)
              (Bookmark.note b) (Bookmark.createdAt b)
              (option_map story_columns (snd r)))
         sorted).

Definition deleteBookmark (id : string) : M unit :=
  d <- read_db ;;
  write_db
    (with_bookmarks d
       (delete_where (fun b => (Bookmark.id b =? id)%string) (bookmarks d))).

(** The bookmark columns of a row of getUserBookmarks. *)
Definition bookmark_columns (r : BookmarkWithStory.t) : Bookmark.t :=
  Bookmark.mk (BookmarkWithStory.id r) (BookmarkWithStory.userId r)
    (BookmarkWithStory.storyId r) (BookmarkWithStory.chapterId r)
    (BookmarkWithStory.position r) (BookmarkWithStory.note r)
    (BookmarkWithStory.createdAt r).

(** Descending creation times of bookmark rows. *)
Definition newest_bookmark_first (a b : BookmarkWithStory.t) : Prop :=
  descending (BookmarkWithStory.createdAt a) (BookmarkWithStory.createdAt b).

(** ** Users *)

(** [UpsertUser], the insert type of users: every column may be left out. *)
Module UpsertUser.
Record t := mk {
  id : field string;
  email : field (option string);
  firstName : field (option string);
  lastName : field (option string);
  profileImageUrl : field (option string);
  bio : field (option string);
  username : field (option string);
  createdAt : field (option timestamp);
  updatedAt : field (option timestamp) }.
End UpsertUser.

Definition with_users (d : Db) (l : list User.t) : Db :=
  mkDb l (stories d) (chapters d) (likes d) (notifications d) (bookmarks d).

Definition getUser (id : string) : M (option User.t) :=
  d <- read_db ;;
  ret (hd_error (select_where (fun u => User.id u =? id)%string (users d))).

(** UNIQUE on a nullable column: a value that is not NULL may not be the
    value of another row. *)
Definition taken (column : User.t -> option string) (v : option string)
    (others : list User.t) : bool :=
  match v with
  | None => false
  | Some x => existsb (fun u => eq_nullable (column u) (Some x)) others
  end.

(** [set: { ...userData, updatedAt: new Date() }] *)
Definition set_userData (userData : UpsertUser.t) (t : timestamp) (u : User.t)
    : User.t :=
  User.mk
    (assign (UpsertUser.id userData) (User.id u))
    (assign (UpsertUser.email userData) (User.email u))
    (assign (UpsertUser.firstName userData) (User.firstName u))
    (assign (UpsertUser.lastName userData) (User.lastName u))
    (assign (UpsertUser.profileImageUrl userData) (User.profileImageUrl u))
    (assign (UpsertUser.bio userData) (User.bio u))
    (assign (UpsertUser.username userData) (User.username u))
    (assign (UpsertUser.createdAt userData) (User.createdAt u))
    (Some t).

(** [.values(userData)]: the row an insert writes, a column that is left
    out taking its default. *)
Definition values_userData (userData : UpsertUser.t) (id : string) (t : timestamp)
    : User.t :=
  User.mk id
    (or_default (UpsertUser.email userData) None)
    (or_default (UpsertUser.firstName userData) None)
    (or_default (UpsertUser.lastName userData) None)
    (or_default (UpsertUser.profileImageUrl userData) None)
    (or_default (UpsertUser.bio userData) None)
    (or_default (UpsertUser.username userData) None)
    (or_default (UpsertUser.createdAt userData) (Some t))
    (or_default (UpsertUser.updatedAt userData) (Some t)).

(** [INSERT INTO users ... ON CONFLICT (id) DO UPDATE SET ... RETURNING *]:
    a row with the id makes the statement an update of that row; the
    unique columns email and username are checked on the row written. *)
Definition upsertUser (userData : UpsertUser.t) : M User.t :=
  id <- match UpsertUser.id userData with
        | given i => ret i
        | absent => gen_random_uuid
        end ;;
  t <- now ;;
  d <- read_db ;;
  let others := filter (fun u => negb (User.id u =? id)%string) (users d) in
  let written :=
    match find (fun u => (User.id u =? id)%string) (users d) with
    | Some existing =>
        (set_userData userData t existing,
         update_where (fun u => (User.id u =? id)%string)
           (set_userData userData t) (users d))
    | None =>
        (values_userData userData id t,
         (users d ++ [values_userData userData id t])%list)
    end in
  if taken User.email (User.email (fst written)) others
     || taken User.username (User.username (fst written)) others
  then throw unique_violation
  else write_db (with_users d (snd written)) ;;; ret (fst written).

(** The profile the identity provider sends for bob, with a new first
    name, and a first login of carol under bob's email address. *)
Definition bob_again : UpsertUser.t :=
  UpsertUser.mk (given "bob") (given (Some "bob@example.org"))
    (given (Some "Robert")) absent absent absent absent absent absent.

Definition carol_as_bob : UpsertUser.t :=
  UpsertUser.mk (given "carol") (given (Some "bob@example.org"))
    (given (Some "Carol")) absent absent absent absent absent absent.

(** * server/routes.ts: the handlers of the story, chapter and like routes

    GET /api/stories/:id is open to everyone.  The other routes here are
    registered behind [isAuthenticated] (server/replitAuth.ts), so their
    handlers run for signed-in callers only, with the caller's id
    ([req.user.claims.sub]) in hand; what a request that is not signed in
    is answered is not part of this model.  The request body comes as what
    the zod schema makes of it.  A handler answers every fault of the
    store from its catch block. *)

Inductive Json : Type :=
| json_message (message : string)
| json_message_errors (message : string)      (* { message, errors } *)
| json_story (story : option Story.t)
| json_chapter (chapter : option Chapter.t)
| json_toggle (r : ToggleResult).

Record Response := mkResponse {
  status : nat;
  body : Json }.

(** [res.json(x)] answers with status 200. *)
Definition res_json (j : Json) : Response := mkResponse 200 j.
Definition res_status_json (code : nat) (j : Json) : Response := mkResponse code j.

(** What [schema.parse(...)] does with a body: the value, or a ZodError. *)
Inductive Parsed (A : Type) : Type :=
| parsed : A -> Parsed A
| ZodError : Parsed A.
Arguments parsed {A} _.
Arguments ZodError {A}.

(** [try { ... } catch (error) { res.status(500).json({ message }) }] *)
Definition try_catch (m : M Response) (message : string) : M Response :=
  fun w =>
    match m w with
    | (Ok r, w') => (Ok r, w')
    | (Throw _, w') => (Ok (res_status_json 500 (json_message message)), w')
    end.

(** JavaScript's [!story.published] and [!chapter.published]. *)
Definition truthy (b : option bool) : bool :=
  match b with
  | Some true => true
  | _ => false
  end.

(** app.get('/api/stories/:id') *)
Definition get_story (id : string) : M Response :=
  try_catch
    (story <- getStory id ;;
     match story with
     | Some s =>
         if negb (truthy (Story.published s))
         then ret (res_status_json 404 (json_message "Story not found"))
         else ret (res_json (json_story (Some s)))
     | None => ret (res_status_json 404 (json_message "Story not found"))
     end)
    "Failed to fetch story".

(** [insertStorySchema.parse({ ...req.body, authorId: userId })]: whatever
    author the body names, the parsed story has the caller as author. *)
Definition with_authorId (story : InsertStory.t) (userId : string) : InsertStory.t :=
  InsertStory.mk (InsertStory.title story) (InsertStory.content story)
    (InsertStory.excerpt story) (InsertStory.category story)
    (InsertStory.coverImageUrl story) userId (InsertStory.published story)
    (InsertStory.wordCount story) (InsertStory.hasChapters story).

(** app.post('/api/stories') *)
Definition post_story (userId : string) (req_body : Parsed InsertStory.t)
    : M Response :=
  match req_body with
  | parsed data =>
      try_catch
        (story <- createStory (with_authorId data userId) ;;
         ret (res_status_json 201 (json_story (Some story))))
        "Failed to create story"
  | ZodError => ret (res_status_json 400 (json_message_errors "Invalid story data"))
  end.

(** app.put('/api/stories/:id') *)
Definition put_story (userId id : string) (req_body : Parsed PartialInsertStory.t)
    : M Response :=
  try_catch
    (story <- getStory id ;;
     match story with
     | Some s =>
         if negb (Story.authorId s =? userId)%string
         then ret (res_status_json 404 (json_message "Story not found"))
         else
           match req_body with
           | parsed updates =>
               updatedStory <- updateStory id updates ;;
               ret (res_json (json_story updatedStory))
           | ZodError => ret (res_status_json 500 (json_message "Failed to update story"))
           end
     | None => ret (res_status_json 404 (json_message "Story not found"))
     end)
    "Failed to update story".

(** app.post('/api/stories/:id/publish') *)
Definition post_story_publish (userId id : string) : M Response :=
  try_catch
    (story <- getStory id ;;
     match story with
     | Some s =>
         if negb (Story.authorId s =? userId)%string
         then ret (res_status_json 404 (json_message "Story not found"))
         else
           publishedStory <- publishStory id ;;
           ret (res_json (json_story publishedStory))
     | None => ret (res_status_json 404 (json_message "Story not found"))
     end)
    "Failed to publish story".

(** app.put('/api/stories/:id/enable-chapters') *)
Definition put_enable_chapters (userId id : string) : M Response :=
  try_catch
    (story <- getStory id ;;
     match story with
     | None => ret (res_status_json 404 (json_message "Story not found"))
     | Some s =>
         if negb (Story.authorId s =? userId)%string
         then ret (res_status_json 403
                     (json_message "Not authorized to modify this story"))
         else
           enableChaptersOnStory id ;;;
           ret (res_json (json_message "Chapters enabled successfully"))
     end)
    "Failed to enable chapters".

(** [insertChapterSchema.parse({ ...req.body, storyId: req.params.id })] *)
Definition with_storyId (chapter : InsertChapter.t) (storyId : string)
    : InsertChapter.t :=
  InsertChapter.mk storyId (InsertChapter.title chapter)
    (InsertChapter.content chapter) (InsertChapter.chapterNumber chapter)
    (InsertChapter.published chapter) (InsertChapter.wordCount chapter).

(** The patch [{ hasChapters: true }]. *)
Definition patch_hasChapters : PartialInsertStory.t :=
  PartialInsertStory.mk absent absent absent absent absent absent absent absent
    (given (Some true)).

(** app.post('/api/stories/:id/chapters') *)
Definition post_chapter (userId id : string) (req_body : Parsed InsertChapter.t)
    : M Response :=
  try_catch
    (story <- getStory id ;;
     match story with
     | Some s =>
         if negb (Story.authorId s =? userId)%string
         then ret (res_status_json 404 (json_message "Story not found"))
         else
           match req_body with
           | parsed data =>
               chapter <- createChapter (with_storyId data id) ;;
               (* Update story to indicate it has chapters *)
               updateStory id patch_hasChapters ;;;
               ret (res_status_json 201 (json_chapter (Some chapter)))
           | ZodError =>
               ret (res_status_json 400 (json_message_errors "Invalid chapter data"))
           end
     | None => ret (res_status_json 404 (json_message "Story not found"))
     end)
    "Failed to create chapter".

(** app.get('/api/chapters/:id') *)
Definition get_chapter (userId id : string) : M Response :=
  try_catch
    (chapter <- getChapter id ;;
     match chapter with
     | None => ret (res_status_json 404 (json_message "Chapter not found"))
     | Some c =>
         (* Allow access if chapter is published OR if user is the author *)
         story <- getStory (Chapter.storyId c) ;;
         let isAuthor :=
           match story with
           | Some s => (Story.authorId s =? userId)%string
           | None => false
           end in
         if negb (truthy (Chapter.published c)) && negb isAuthor
         then ret (res_status_json 404 (json_message "Chapter not found"))
         else ret (res_json (json_chapter (Some c)))
     end)
    "Failed to fetch chapter".

(** app.post('/api/chapters/:id/publish') *)
Definition post_chapter_publish (userId id : string) : M Response :=
  try_catch
    (chapter <- getChapter id ;;
     match chapter with
     | None => ret (res_status_json 404 (json_message "Chapter not found"))
     | Some c =>
         (* Check if user owns the story *)
         story <- getStory (Chapter.storyId c) ;;
         match story with
         | Some s =>
             if negb (Story.authorId s =? userId)%string
             then ret (res_status_json 403 (json_message "Not authorized"))
             else
               publishedChapter <- publishChapter id ;;
               ret (res_json (json_chapter publishedChapter))
         | None => ret (res_status_json 403 (json_message "Not authorized"))
         end
     end)
    "Failed to publish chapter".

(** app.post('/api/stories/:id/like') *)
Definition post_like (userId storyId : string) : M Response :=
  try_catch
    (r <- toggleLike userId storyId ;;
     ret (res_json (json_toggle r)))
    "Failed to toggle like".

(** ** The GET routes, in the order registerRoutes registers them

    Express tries the registered routes in order and hands the request to
    the first whose method and path pattern match; none of the handlers
    here passes the request on.  A path is taken as the segments that
    follow its leading slash, split at the slashes: /api/user has the
    segments api and user, and a path that ends in a slash has the empty
    string as its last segment.  A pattern matches a path with or without
    one slash at its end.  [:name] matches one segment that is not empty.
    [:name] with a star pattern matches what follows the slash before it,
    be it empty or more than one segment, but that slash has to be there:
    /public-objects alone is no match for /public-objects/:filePath with
    a star.  [same] is how Express compares a literal segment of a pattern
    with a segment of the path. *)

Inductive Segment : Type :=
| literal (s : string)
| parameter (name : string)
| parameter_rest (name : string).

Fixpoint matches (same : string -> string -> bool) (pattern : list Segment)
    (path : list string) : bool :=
  match pattern, path with
  | [], [] => true
  | [], [x] => (x =? "")%string
  | literal s :: p, x :: xs => same s x && matches same p xs
  | parameter _ :: p, x :: xs => negb (x =? "")%string && matches same p xs
  | parameter_rest _ :: _, _ :: _ => true
  | _, _ => false
  end.

(** Each [app.get(pattern, ...)] of routes.ts with the line it stands on. *)
Definition get_registrations : list (list Segment * nat) :=
  [ ([literal "api"; literal "auth"; literal "user"], 14%nat);
    ([literal "api"; literal "stories"], 46%nat);
    ([literal "api"; literal "stories"; parameter "category"; parameter "sortBy"], 60%nat);
    ([literal "api"; literal "stories"; parameter "id"], 71%nat);
    ([literal "api"; literal "drafts"], 164%nat);
    ([literal "api"; literal "drafts"; parameter "id"], 175%nat);
    ([literal "api"; literal "stories"; parameter "id"; literal "chapters"], 246%nat);
    ([literal "api"; literal "chapters"; parameter "id"], 285%nat);
    ([literal "api"; literal "stories"; parameter "id"; literal "likes"], 393%nat);
    ([literal "api"; literal "user"; literal "likes"], 403%nat);
    ([literal "api"; literal "user"; literal "liked-stories"], 414%nat);
    ([literal "api"; literal "stories"; parameter "storyId"; literal "highlights"], 449%nat);
    ([literal "api"; literal "user"; literal "bookmarks"], 492%nat);
    ([literal "api"; literal "user"; literal "quotes"], 535%nat);
    ([literal "api"; literal "user"; literal "bookmarks"], 546%nat);
    ([literal "api"; literal "stories"; parameter "storyId"; literal "highlights"], 557%nat);
    ([literal "api"; literal "user"; literal "quotes"], 569%nat);
    ([literal "api"; literal "quotes"; literal "public"], 580%nat);
    ([literal "api"; literal "users"; parameter "id"; literal "stories"], 602%nat);
    ([literal "api"; literal "notifications"], 636%nat);
    ([literal "public-objects"; parameter_rest "filePath"], 695%nat);
    ([literal "objects"; parameter_rest "objectPath"], 711%nat) ].

(** The registration that answers a GET request for the path. *)
Definition dispatch_get (same : string -> string -> bool) (path : list string)
    : option (list Segment * nat) :=
  find (fun r => matches same (fst r) path) get_registrations.
(** * Properties *)

(** ** ORDER BY sorts and loses no row *)

Section OrderBy.
Context {R : Type}.
Variable first : R -> R -> bool.

Lemma insert_row_perm (x : R) (l : list R) :
  Permutation (x :: l) (insert_row first x l).
Proof.
  induction l as [|y l IH]; simpl.
  - apply Permutation_refl.
  - destruct (first x y).
    + apply Permutation_refl.
    + eapply perm_trans; [apply perm_swap|].
      apply perm_skip, IH.
Qed.

Lemma order_by_perm (l : list R) : Permutation l (order_by first l).
Proof.
  induction l as [|x l IH]; simpl.
  - constructor.
  - eapply perm_trans; [apply perm_skip, IH|].
    apply insert_row_perm.
Qed.

Lemma order_by_In (l : list R) (x : R) : In x (order_by first l) <-> In x l.
Proof.
  split; intro H.
  - eapply Permutation_in; [apply Permutation_sym, order_by_perm|exact H].
  - eapply Permutation_in; [apply order_by_perm|exact H].
Qed.

Lemma order_by_length (l : list R) :
  List.length (order_by first l) = List.length l.
Proof. symmetry. apply Permutation_length, order_by_perm. Qed.

Hypothesis first_total : forall a b, first a b = true \/ first b a = true.
Hypothesis first_trans :
  forall a b c, first a b = true -> first b c = true -> first a c = true.

Lemma insert_row_sorted (x : R) (l : list R) :
  StronglySorted (fun a b => first a b = true) l ->
  StronglySorted (fun a b => first a b = true) (insert_row first x l).
Proof.
  induction 1 as [|y l Hs IH Hy]; simpl.
  - repeat constructor.
  - destruct (first x y) eqn:Hxy.
    + constructor.
      * constructor; assumption.
      * constructor; [exact Hxy|].
        eapply Forall_impl; [|exact Hy].
        intros z Hz. eapply first_trans; eassumption.
    + constructor; [exact IH|].
      assert (Hyx : first y x = true).
      { destruct (first_total x y) as [H|H]; [congruence|exact H]. }
      rewrite Forall_forall. intros z Hz.
      apply (Permutation_in z (Permutation_sym (insert_row_perm x l))) in Hz.
      destruct Hz as [<-|Hz]; [exact Hyx|].
      rewrite Forall_forall in Hy. apply Hy, Hz.
Qed.

Lemma order_by_sorted (l : list R) :
  StronglySorted (fun a b => first a b = true) (order_by first l).
Proof.
  induction l as [|x l IH]; simpl.
  - constructor.
  - apply insert_row_sorted, IH.
Qed.
End OrderBy.

Lemma In_firstn {R : Type} (n : nat) (l : list R) (x : R) :
  In x (firstn n l) -> In x l.
Proof.
  revert n. induction l as [|y l IH]; intros [|n]; simpl; try tauto.
  intros [H|H]; [left; exact H|right; exact (IH n H)].
Qed.

Lemma StronglySorted_firstn {R : Type} (ord : R -> R -> Prop) (n : nat)
    (l : list R) :
  StronglySorted ord l -> StronglySorted ord (firstn n l).
Proof.
  intro H. revert n.
  induction H as [|x l Hs IH Hx]; intro n; destruct n; simpl; try constructor.
  - apply IH.
  - rewrite Forall_forall in *. intros y Hy.
    apply Hx. exact (In_firstn n l y Hy).
Qed.

Lemma StronglySorted_weaken {R : Type} (P Q : R -> R -> Prop) (l : list R) :
  (forall a b, P a b -> Q a b) -> StronglySorted P l -> StronglySorted Q l.
Proof.
  intros HPQ. induction 1 as [|x l Hs IH Hx]; constructor.
  - exact IH.
  - eapply Forall_impl; [|exact Hx]. intros b. apply HPQ.
Qed.

Lemma compare_desc_descending (x y : option timestamp) :
  not_after (compare_desc x y) = true <-> descending x y.
Proof.
  destruct x as [a|], y as [b|]; simpl; try (split; (tauto || discriminate)).
  destruct (Z.compare_spec b a); simpl; split; intros; try lia; try reflexivity;
    discriminate.
Qed.

Lemma descending_total (x y : option timestamp) :
  descending x y \/ descending y x.
Proof. destruct x, y; simpl; try tauto; lia. Qed.

Lemma descending_trans (x y z : option timestamp) :
  descending x y -> descending y z -> descending x z.
Proof. destruct x, y, z; simpl; try tauto; lia. Qed.

Lemma recent_compare (a b : StoryRow.t) :
  not_after (order_compare [desc_publishedAt] a b) = true <-> recent_order a b.
Proof.
  unfold recent_order. rewrite <- compare_desc_descending. simpl.
  destruct (compare_desc _ _); simpl; tauto.
Qed.

Lemma trending_compare (a b : StoryRow.t) :
  not_after (order_compare [desc_count_likes; desc_publishedAt] a b) = true
  <-> trending_order a b.
Proof.
  unfold trending_order. rewrite <- compare_desc_descending. simpl.
  destruct (Nat.compare_spec (StoryRow.likeCount b) (StoryRow.likeCount a)) as [H|H|H];
    simpl.
  - destruct (compare_desc _ _); simpl; split; intros; try discriminate;
      first [right; split; [lia|reflexivity] | reflexivity | idtac].
    destruct H0 as [H0|[_ H0]]; [lia|discriminate].
  - split; intros; [left; lia|reflexivity].
  - split; intros H0; [discriminate|]. destruct H0 as [H0|[H0 _]]; lia.
Qed.

Lemma recent_order_total (a b : StoryRow.t) : recent_order a b \/ recent_order b a.
Proof. apply descending_total. Qed.

Lemma recent_order_trans (a b c : StoryRow.t) :
  recent_order a b -> recent_order b c -> recent_order a c.
Proof. apply descending_trans. Qed.

Lemma trending_order_total (a b : StoryRow.t) :
  trending_order a b \/ trending_order b a.
Proof.
  unfold trending_order.
  destruct (lt_eq_lt_dec (StoryRow.likeCount a) (StoryRow.likeCount b)) as [[H|H]|H];
    try (left; left; lia); try (right; left; lia).
  destruct (descending_total (StoryRow.publishedAt a) (StoryRow.publishedAt b));
    [left|right]; right; split; auto.
Qed.

Lemma trending_order_trans (a b c : StoryRow.t) :
  trending_order a b -> trending_order b c -> trending_order a c.
Proof.
  unfold trending_order. intros [H1|[H1 D1]] [H2|[H2 D2]];
    try (left; lia).
  right. split; [lia|]. eapply descending_trans; eassumption.
Qed.

(** A list ordered by a boolean test of a total, transitive order. *)
Lemma order_by_sorted_for {R : Type} (first : R -> R -> bool)
    (ord : R -> R -> Prop) (l : list R) :
  (forall a b, first a b = true <-> ord a b) ->
  (forall a b, ord a b \/ ord b a) ->
  (forall a b c, ord a b -> ord b c -> ord a c) ->
  StronglySorted ord (order_by first l).
Proof.
  intros Hiff Htot Htrans.
  apply StronglySorted_weaken with (P := fun a b => first a b = true).
  - intros a b. apply Hiff.
  - apply order_by_sorted.
    + intros a b. rewrite !Hiff. apply Htot.
    + intros a b c. rewrite !Hiff. apply Htrans.
Qed.

(** ** What the builder holds when getPublishedStories runs it *)

Lemma getPublishedStories_config (category sortBy : field string) :
  getPublishedStories category sortBy
  = execute
      (mkPgSelect
         (Some match filters_category category with
               | Some c => eq_category c
               | None => eq_published_true
               end)
         (if strict_eq sortBy "recent" then [desc_publishedAt]
          else [desc_count_likes; desc_publishedAt])
         (Some 50%nat)).
Proof.
  unfold getPublishedStories.
  destruct (filters_category category), (strict_eq sortBy "recent"),
    (strict_eq sortBy "trending"); reflexivity.
Qed.

Lemma Ok_inj {A : Type} (a b : A) : Ok a = Ok b -> a = b.
Proof. intro H. congruence. Qed.

(** The rows getPublishedStories returns, and the world it leaves. *)
Lemma getPublishedStories_run (category sortBy : field string) (w : World) :
  getPublishedStories category sortBy w
  = (Ok (firstn 50
           (order_by
              (fun a b =>
                 not_after
                   (order_compare
                      (if strict_eq sortBy "recent" then [desc_publishedAt]
                       else [desc_count_likes; desc_publishedAt]) a b))
              (grouped
                 (mkPgSelect
                    (Some match filters_category category with
                          | Some c => eq_category c
                          | None => eq_published_true
                          end)
                    (if strict_eq sortBy "recent" then [desc_publishedAt]
                     else [desc_count_likes; desc_publishedAt])
                    (Some 50%nat))
                 (db w)))),
     w).
Proof. rewrite getPublishedStories_config. reflexivity. Qed.

Lemma strict_eq_false (x : field string) (s : string) :
  x <> given s -> strict_eq x s = false.
Proof.
  destruct x as [|v]; [reflexivity|]. simpl. intro H.
  apply String.eqb_neq. intros ->. apply H. reflexivity.
Qed.

(** ** Joins and groups under the primary keys *)

Lemma filter_none {R : Type} (p : R -> bool) (l : list R) :
  (forall x, In x l -> p x = false) -> filter p l = [].
Proof.
  induction l as [|y l IH]; simpl; intro H; [reflexivity|].
  rewrite (H y (or_introl eq_refl)). apply IH. intros x Hx. apply H. right. exact Hx.
Qed.

(** Looking a key up in a table with a primary key finds at most one row. *)
Lemma filter_primary_key {R : Type} (id : R -> string) (k : string) (l : list R) :
  primary_key id l ->
  filter (fun x => (k =? id x)%string) l
  = match find (fun x => (k =? id x)%string) l with
    | Some x => [x]
    | None => []
    end.
Proof.
  unfold primary_key. induction l as [|y l IH]; simpl; intro Hnd; [reflexivity|].
  inversion Hnd as [|? ? Hy Hl]; subst.
  destruct (k =? id y)%string eqn:E.
  - apply String.eqb_eq in E. subst k. f_equal.
    apply filter_none. intros x Hx.
    apply String.eqb_neq. intros Heq. apply Hy. rewrite Heq. apply in_map, Hx.
  - apply IH, Hl.
Qed.

Lemma leftJoin_cons {A B : Type} (x : A) (a : list A) (b : list B)
    (on : A -> B -> bool) :
  leftJoin (x :: a) b on
  = (match filter (on x) b with
     | [] => [(x, None)]
     | matches => map (fun y => (x, Some y)) matches
     end ++ leftJoin a b on)%list.
Proof. reflexivity. Qed.

Lemma leftJoin_users (d : Db) :
  primary_key User.id (users d) ->
  leftJoin (stories d) (users d)
    (fun s u => (Story.authorId s =? User.id u)%string)
  = map (fun s => (s, author_of d s)) (stories d).
Proof.
  intro Hpk. unfold author_of.
  induction (stories d) as [|s l IH]; [reflexivity|].
  rewrite leftJoin_cons, IH.
  rewrite (filter_primary_key User.id (Story.authorId s) _ Hpk).
  cbn [map]. destruct (find _ (users d)); reflexivity.
Qed.

Lemma joined_rows (d : Db) :
  primary_key User.id (users d) ->
  joined d = flat_map (rows_of d) (stories d).
Proof.
  intro Hpk. unfold joined. rewrite (leftJoin_users d Hpk).
  induction (stories d) as [|s l IH]; [reflexivity|].
  cbn [map flat_map]. rewrite leftJoin_cons, IH. reflexivity.
Qed.

Lemma rows_of_story (d : Db) (s : Story.t) (r : JoinRow) :
  In r (rows_of d s) -> story_of r = s /\ user_of r = author_of d s.
Proof.
  unfold rows_of. destruct (filter _ (likes d)) as [|l m].
  - intros [<-|[]]. split; reflexivity.
  - intro H. apply in_map_iff in H. destruct H as [x [<- _]]. split; reflexivity.
Qed.

Lemma rows_of_not_nil (d : Db) (s : Story.t) : rows_of d s <> [].
Proof.
  unfold rows_of. destruct (filter _ (likes d)); discriminate.
Qed.

Lemma filter_rows (d : Db) (c : Story.t -> bool) (ss : list Story.t) :
  filter (fun r => c (story_of r)) (flat_map (rows_of d) ss)
  = flat_map (rows_of d) (filter c ss).
Proof.
  induction ss as [|s ss IH]; simpl; [reflexivity|].
  rewrite filter_app, IH.
  assert (Hall : forall r, In r (rows_of d s) -> c (story_of r) = c s).
  { intros r Hr. destruct (rows_of_story d s r Hr) as [-> _]. reflexivity. }
  destruct (c s) eqn:E; simpl.
  - f_equal. induction (rows_of d s) as [|r l IHl]; simpl; [reflexivity|].
    rewrite (Hall r (or_introl eq_refl)), IHl; [reflexivity|].
    intros x Hx. apply Hall. right. exact Hx.
  - rewrite filter_none; [reflexivity|exact Hall].
Qed.

Lemma groupBy_first_In {R : Type} (same : R -> R -> bool) (l : list R)
    (g : R * list R) :
  In g (groupBy same l) -> In (fst g) l.
Proof.
  revert g. induction l as [|r rest IH]; simpl; intros g Hg; [exact Hg|].
  destruct (existsb _ (groupBy same rest)).
  - apply in_map_iff in Hg. destruct Hg as [g0 [Hg0 Hin]].
    destruct (same r (fst g0)); subst g.
    + left. reflexivity.
    + right. apply IH, Hin.
  - destruct Hg as [<-|Hg]; [left; reflexivity|right; apply IH, Hg].
Qed.

(** Rows that agree on the grouping columns, standing before rows that
    differ from them, make one group. *)
Lemma groupBy_block {R : Type} (same : R -> R -> bool) (b rest : list R) (r : R) :
  (forall x y, In x (r :: b) -> In y (r :: b) -> same x y = true) ->
  (forall x y, In x (r :: b) -> In y rest -> same x y = false) ->
  groupBy same ((r :: b) ++ rest) = (r, b) :: groupBy same rest.
Proof.
  revert r. induction b as [|r2 b IH]; intros r Hsame Hdiff.
  - simpl.
    assert (Hnone : existsb (fun g => same r (fst g)) (groupBy same rest) = false).
    { apply not_true_is_false. intro H. apply existsb_exists in H.
      destruct H as [g [Hg Hs]].
      rewrite (Hdiff r (fst g)) in Hs; [discriminate|left; reflexivity|].
      eapply groupBy_first_In, Hg. }
    rewrite Hnone. reflexivity.
  - change (groupBy same ((r :: r2 :: b) ++ rest))
      with (let groups := groupBy same ((r2 :: b) ++ rest) in
            if existsb (fun g => same r (fst g)) groups
            then map (fun g => if same r (fst g) then (r, fst g :: snd g) else g) groups
            else (r, []) :: groups).
    rewrite IH.
    + cbv zeta. cbn [existsb map fst snd].
      rewrite (Hsame r r2); [|left; reflexivity|right; left; reflexivity].
      cbn [orb]. f_equal.
      rewrite <- (map_id (groupBy same rest)) at 2.
      apply map_ext_in. intros g Hg.
      rewrite (Hdiff r (fst g)); [reflexivity|left; reflexivity|].
      eapply groupBy_first_In, Hg.
    + intros x y Hx Hy. apply Hsame; right; assumption.
    + intros x y Hx Hy. apply Hdiff; [right|]; assumption.
Qed.

Lemma count_likes_rows (d : Db) (s : Story.t) (r : JoinRow) (b : list JoinRow) :
  rows_of d s = r :: b ->
  count_likes (r, b) = List.length (likes_of d (Story.id s)).
Proof.
  unfold count_likes, rows_of, likes_of. cbn [fst snd]. intros <-.
  rewrite (filter_ext (fun l => (Like.storyId l =? Story.id s)%string)
             (fun l => (Story.id s =? Like.storyId l)%string))
    by (intro l; apply String.eqb_sym).
  destruct (filter _ (likes d)) as [|l m]; [reflexivity|].
  generalize (l :: m). intro ls.
  induction ls as [|x ls IH]; simpl; [reflexivity|]. rewrite IH. reflexivity.
Qed.

(** Under the primary keys of stories and users a group is a story: the
    grouped rows are the feed rows of the stories, in table order. *)
Lemma grouped_rows (d : Db) (ss : list Story.t) :
  primary_key Story.id ss ->
  map selected (groupBy same_story_and_user (flat_map (rows_of d) ss))
  = map (feed_row d) ss.
Proof.
  unfold primary_key. induction ss as [|s ss IH]; intro Hpk; [reflexivity|].
  inversion Hpk as [|? ? Hs Hss]; subst.
  cbn [flat_map map].
  destruct (rows_of d s) as [|r b] eqn:Hrows; [destruct (rows_of_not_nil d s Hrows)|].
  assert (Hmine : forall x, In x (r :: b) ->
                    story_of x = s /\ user_of x = author_of d s).
  { intros x Hx. apply rows_of_story. rewrite Hrows. exact Hx. }
  rewrite groupBy_block.
  - cbn [map]. rewrite (IH Hss). f_equal.
    unfold selected. cbn [fst].
    destruct (Hmine r (or_introl eq_refl)) as [-> ->].
    rewrite (count_likes_rows d s r b Hrows). reflexivity.
  - intros x y Hx Hy. unfold same_story_and_user.
    destruct (Hmine x Hx) as [-> ->], (Hmine y Hy) as [-> ->].
    rewrite String.eqb_refl. destruct (author_of d s); simpl;
      [apply String.eqb_refl|reflexivity].
  - intros x y Hx Hy. unfold same_story_and_user.
    destruct (Hmine x Hx) as [-> _].
    apply in_flat_map in Hy. destruct Hy as [s' [Hs' Hy]].
    destruct (rows_of_story d s' y Hy) as [-> _].
    replace (Story.id s =? Story.id s')%string with false; [reflexivity|].
    symmetry. apply String.eqb_neq. intro Heq. apply Hs. rewrite Heq.
    apply in_map, Hs'.
Qed.

Lemma primary_key_filter {R : Type} (id : R -> string) (c : R -> bool)
    (l : list R) :
  primary_key id l -> primary_key id (filter c l).
Proof.
  unfold primary_key. induction l as [|x l IH]; simpl; intro H; [exact H|].
  inversion H as [|? ? Hx Hl]; subst.
  destruct (c x); [|apply IH, Hl].
  simpl. constructor; [|apply IH, Hl].
  intro Hin. apply Hx. apply in_map_iff in Hin. destruct Hin as [y [Hy Hin]].
  apply filter_In in Hin. rewrite <- Hy. apply in_map, Hin.
Qed.

(** The query, story by story: the WHERE slot picks stories, each picked
    story gives its feed row. *)
Lemma grouped_feed (q : PgSelect) (d : Db) :
  primary_key Story.id (stories d) ->
  primary_key User.id (users d) ->
  grouped q d
  = map (feed_row d)
        match config_where q with
        | Some c => filter c (stories d)
        | None => stories d
        end.
Proof.
  intros Hs Hu. unfold grouped. rewrite (joined_rows d Hu).
  destruct (config_where q) as [c|].
  - rewrite filter_rows. apply grouped_rows, primary_key_filter, Hs.
  - apply grouped_rows, Hs.
Qed.

(** The feed under the primary keys: the feed rows of the stories that
    pass the WHERE, put in the order asked for, and the first 50 of them. *)
Lemma getPublishedStories_feed (w : World) (category sortBy : field string) :
  primary_key Story.id (stories (db w)) ->
  primary_key User.id (users (db w)) ->
  exists all,
    getPublishedStories category sortBy w = (Ok (firstn 50 all), w)
    /\ Permutation all
         (map (feed_row (db w)) (filter (passes_where category) (stories (db w))))
    /\ (sortBy = given "recent" -> StronglySorted recent_order all)
    /\ (sortBy <> given "recent" -> StronglySorted trending_order all).
Proof.
  intros Hs Hu. rewrite getPublishedStories_run, (grouped_feed _ _ Hs Hu).
  cbn [config_where]. eexists. split; [reflexivity|].
  split; [apply Permutation_sym, order_by_perm|]. split.
  - intros ->.
    apply order_by_sorted_for;
      [apply recent_compare|apply recent_order_total|apply recent_order_trans].
  - intro H. rewrite (strict_eq_false _ _ H).
    apply order_by_sorted_for;
      [apply trending_compare|apply trending_order_total|apply trending_order_trans].
Qed.

Lemma filter_length_bound {R : Type} (c : R -> bool) (l : list R) :
  (List.length (filter c l) <= List.length l)%nat.
Proof.
  induction l as [|x l IH]; simpl; [lia|]. destruct (c x); simpl; lia.
Qed.

Lemma firstn_length_bound {R : Type} (n : nat) (l : list R) :
  (List.length (firstn n l) <= n)%nat.
Proof.
  revert n. induction l as [|x l IH]; intros [|n]; simpl; try lia.
  specialize (IH n). lia.
Qed.

(** ** Rows of the feed satisfy the condition in the WHERE slot *)

Lemma leftJoin_In_fst {A B : Type} (a : list A) (b : list B)
    (on : A -> B -> bool) (r : A * option B) :
  In r (leftJoin a b on) -> In (fst r) a.
Proof.
  unfold leftJoin. intro H. apply in_flat_map in H.
  destruct H as [x [Hx Hr]]. destruct (filter (on x) b) as [|y m].
  - destruct Hr as [<-|[]]. exact Hx.
  - apply in_map_iff in Hr. destruct Hr as [z [<- _]]. exact Hx.
Qed.

Lemma joined_story (d : Db) (r : JoinRow) :
  In r (joined d) -> In (story_of r) (stories d).
Proof.
  intro H. unfold joined in H.
  apply leftJoin_In_fst in H. apply leftJoin_In_fst in H. exact H.
Qed.

Lemma grouped_where (q : PgSelect) (d : Db) (c : Story.t -> bool) (r : StoryRow.t) :
  config_where q = Some c ->
  In r (grouped q d) ->
  exists s, In s (stories d) /\ c s = true
            /\ StoryRow.id r = Story.id s
            /\ StoryRow.published r = Story.published s
            /\ StoryRow.category r = Story.category s.
Proof.
  unfold grouped. intros -> H.
  apply in_map_iff in H. destruct H as [g [<- Hg]].
  apply groupBy_first_In in Hg. apply filter_In in Hg. destruct Hg as [Hj Hc].
  exists (story_of (fst g)). repeat split; try reflexivity.
  - apply joined_story, Hj.
  - exact Hc.
Qed.

(** X12.  Without a category to filter on, the only condition is published =
    true, and every row of the feed is published. *)
Lemma getPublishedStories_without_category (w : World)
    (category sortBy : field string) (rows : list StoryRow.t) (r : StoryRow.t) :
  filters_category category = None ->
  result (getPublishedStories category sortBy) w = Ok rows ->
  In r rows ->
  StoryRow.published r = Some true.
Proof.
  unfold result. rewrite getPublishedStories_run. cbn [fst]. intros ->.
  intros Hrows Hr. apply Ok_inj in Hrows. subst rows.
  apply In_firstn in Hr. apply order_by_In in Hr.
  apply (grouped_where _ _ eq_published_true) in Hr; [|reflexivity].
  destruct Hr as [s [_ [Hc [_ [-> _]]]]].
  unfold eq_published_true in Hc.
  destruct (Story.published s) as [[|]|]; [reflexivity|discriminate|discriminate].
Qed.

(** X13.  With a category to filter on, every row of the feed has that category;
    the where slot then holds the category condition alone. *)
Lemma getPublishedStories_with_category (w : World)
    (category sortBy : field string) (c : string)
    (rows : list StoryRow.t) (r : StoryRow.t) :
  filters_category category = Some c ->
  result (getPublishedStories category sortBy) w = Ok rows ->
  In r rows ->
  StoryRow.category r = c.
Proof.
  unfold result. rewrite getPublishedStories_run. cbn [fst]. intros ->.
  intros Hrows Hr. apply Ok_inj in Hrows. subst rows.
  apply In_firstn in Hr. apply order_by_In in Hr.
  apply (grouped_where _ _ (eq_category c)) in Hr; [|reflexivity].
  destruct Hr as [s [_ [Hc [_ [_ ->]]]]].
  apply String.eqb_eq, Hc.
Qed.

(** ** Updates of the stories table *)

Lemma update_stories_same_author (id : string) (set : Story.t -> Story.t)
    (w : World) :
  (forall s, Story.authorId (set s) = Story.authorId s) ->
  update_stories id set w
  = (Ok (returning (fun s => (Story.id s =? id)%string) set (stories (db w))),
     with_db w
       (with_stories (db w)
          (update_where (fun s => (Story.id s =? id)%string) set (stories (db w))))).
Proof.
  intro Hauthor. unfold update_stories, bind, read_db.
  replace (forallb _ _) with true; [reflexivity|].
  symmetry. apply forallb_forall. intros s _.
  rewrite Hauthor, String.eqb_refl. reflexivity.
Qed.

(** An update of stories writes the stories table only, and either writes
    all of it or (on a fault) none of it. *)
Lemma update_stories_after (id : string) (set : Story.t -> Story.t) (w : World) :
  let w' := snd (update_stories id set w) in
  clock w' = clock w
  /\ (stories (db w') = stories (db w)
      \/ stories (db w')
         = update_where (fun s => (Story.id s =? id)%string) set (stories (db w))).
Proof.
  unfold update_stories, bind, read_db.
  destruct (forallb _ _); cbn; auto.
Qed.

Lemma Forall_update_where {R : Type} (P : R -> Prop) (c : R -> bool)
    (set : R -> R) (l : list R) :
  (forall x, In x l -> P x -> P (set x)) ->
  Forall P l -> Forall P (update_where c set l).
Proof.
  unfold update_where. intros Hset Hl. rewrite Forall_forall in *.
  intros y Hy. apply in_map_iff in Hy. destruct Hy as [x [<- Hx]].
  destruct (c x); [apply Hset|]; auto.
Qed.

Lemma Forall2_update_where {R : Type} (c : R -> bool) (set : R -> R) (l : list R) :
  Forall2 (fun x y => (c x = true /\ y = set x) \/ (c x = false /\ y = x))
          l (update_where c set l).
Proof.
  induction l as [|x l IH]; simpl; constructor; [|exact IH].
  destruct (c x); [left|right]; split; reflexivity.
Qed.

Lemma Forall2_weaken {A B : Type} (P Q : A -> B -> Prop) (l : list A) (m : list B) :
  (forall x y, P x y -> Q x y) -> Forall2 P l m -> Forall2 Q l m.
Proof. intros H. induction 1; constructor; auto. Qed.

Ltac solve_primary_key :=
  unfold primary_key; simpl;
  repeat (constructor; [simpl; intuition discriminate|]); constructor.

(** ** The publish invariant under the story operations *)

Lemma update_stories_invariant (id : string) (set : Story.t -> Story.t) (w : World) :
  (forall s,
      publish_invariant s ->
      (forall c, Story.createdAt s = Some c -> c <= clock w) ->
      publish_invariant (set s)) ->
  (forall s, Story.createdAt (set s) = Story.createdAt s) ->
  stories_invariant w -> clock_not_behind w ->
  stories_invariant (snd (update_stories id set w))
  /\ clock_not_behind (snd (update_stories id set w)).
Proof.
  intros Hset Hcreated Hinv Hclock.
  unfold stories_invariant, clock_not_behind in *.
  destruct (update_stories_after id set w) as [-> [-> | ->]]; [split; assumption|].
  split.
  - rewrite Forall_forall in *. unfold update_where.
    intros y Hy. apply in_map_iff in Hy. destruct Hy as [x [<- Hx]].
    destruct (Story.id x =? id)%string; [|apply Hinv, Hx].
    apply Hset; [apply Hinv, Hx|apply Hclock, Hx].
  - apply Forall_update_where; [|exact Hclock].
    intros x _ Hx c. rewrite Hcreated. apply Hx.
Qed.

Lemma bind_after_ret {A B : Type} (m : M A) (f : A -> B) (w : World) :
  snd (bind m (fun a => ret (f a)) w) = snd (m w).
Proof. unfold bind, ret. destruct (m w) as [[a|e] w']; reflexivity. Qed.

Lemma sample_world_invariant : stories_invariant sample_world.
Proof.
  unfold stories_invariant, publish_invariant. simpl.
  repeat constructor; simpl; try discriminate; try congruence.
  intros p c [= <-] [= <-]. lia.
Qed.

Lemma sample_world_clock : clock_not_behind sample_world.
Proof.
  unfold clock_not_behind. simpl.
  repeat constructor; intros c [= <-]; lia.
Qed.

(** ** Running toggleLike *)

Lemma existsb_id_unused {R : Type} (id : R -> string) (i : string) (l : list R) :
  ~ In i (map id l) -> existsb (fun x => (id x =? i)%string) l = false.
Proof.
  intro H. apply not_true_is_false. intro E. apply existsb_exists in E.
  destruct E as [x [Hx Hi]]. apply String.eqb_eq in Hi. apply H.
  rewrite <- Hi. apply in_map, Hx.
Qed.

Lemma like_of_spec (u s : string) (l : Like.t) :
  like_of u s l = true <-> Like.userId l = u /\ Like.storyId l = s.
Proof. unfold like_of. rewrite andb_true_iff, !String.eqb_eq. reflexivity. Qed.

Lemma likes_story_select (d : Db) (u s : string) :
  likes_story d u s <-> select_where (like_of u s) (likes d) <> [].
Proof.
  unfold likes_story, select_where. split.
  - intros [l [Hin Hl]] E. apply like_of_spec in Hl.
    assert (H : In l (filter (like_of u s) (likes d))) by (apply filter_In; auto).
    rewrite E in H. exact H.
  - intro H. destruct (filter (like_of u s) (likes d)) as [|l m] eqn:E; [congruence|].
    assert (Hl : In l (filter (like_of u s) (likes d))) by (rewrite E; left; reflexivity).
    apply filter_In in Hl. destruct Hl as [Hin Hl]. apply like_of_spec in Hl.
    exists l. auto.
Qed.

Lemma likes_story_dec (d : Db) (u s : string) :
  likes_story d u s \/ ~ likes_story d u s.
Proof.
  rewrite likes_story_select.
  destruct (select_where (like_of u s) (likes d)); [right|left]; congruence.
Qed.

(** The unlike branch. *)
Lemma toggleLike_unlike (w : World) (u s : string) :
  likes_story (db w) u s ->
  toggleLike u s w
  = (Ok (mkToggleResult false
           (List.length
              (likes_of (with_likes (db w) (delete_where (like_of u s) (likes (db w)))) s))),
     with_db w (with_likes (db w) (delete_where (like_of u s) (likes (db w))))).
Proof.
  intro H. apply likes_story_select in H.
  unfold toggleLike, bind, read_db.
  destruct (select_where (like_of u s) (likes (db w))) as [|l m]; [congruence|].
  reflexivity.
Qed.

Lemma bind_run {A B : Type} (m : M A) (k : A -> M B) (w w' : World) (a : A) :
  m w = (Ok a, w') -> bind m k w = k a w'.
Proof. unfold bind. intros ->. reflexivity. Qed.

Lemma bind_throw {A B : Type} (m : M A) (k : A -> M B) (w w' : World) (e : DbError) :
  m w = (Throw e, w') -> bind m k w = (Throw e, w').
Proof. unfold bind. intros ->. reflexivity. Qed.

Lemma insert_likes_run (w : World) (u s : string) :
  has_user (db w) u = true ->
  has_story (db w) s = true ->
  ~ In (uuids w (drawn w)) (map Like.id (likes (db w))) ->
  insert_likes u s w
  = (Ok (Like.mk (uuids w (drawn w)) u s (Some (clock w))),
     mkWorld
       (with_likes (db w)
          (likes (db w) ++ [Like.mk (uuids w (drawn w)) u s (Some (clock w))]))
       (clock w) (uuids w) (S (drawn w))).
Proof.
  intros Hu Hs Hid. apply existsb_id_unused in Hid.
  unfold insert_likes, bind, gen_random_uuid, now, read_db, constrained.
  cbn [fst snd db clock uuids drawn]. rewrite Hid, Hu, Hs. reflexivity.
Qed.

Lemma createNotification_run (w : World) (u type s : string) :
  has_user (db w) u = true ->
  has_story (db w) s = true ->
  ~ In (uuids w (drawn w)) (map Notification.id (notifications (db w))) ->
  createNotification u type (Some s) w
  = (Ok (Notification.mk (uuids w (drawn w)) u type (Some s) (Some false)
           (Some (clock w))),
     mkWorld
       (with_notifications (db w)
          (notifications (db w)
           ++ [Notification.mk (uuids w (drawn w)) u type (Some s) (Some false)
                 (Some (clock w))]))
       (clock w) (uuids w) (S (drawn w))).
Proof.
  intros Hu Hs Hid. apply existsb_id_unused in Hid.
  unfold createNotification, bind, gen_random_uuid, now, read_db, constrained.
  cbn [fst snd db clock uuids drawn references]. rewrite Hid, Hu, Hs. reflexivity.
Qed.

Lemma getStory_found (w : World) (s : string) (st : Story.t) :
  result (getStory s) w = Ok (Some st) ->
  In st (stories (db w)) /\ Story.id st = s /\ has_story (db w) s = true.
Proof.
  unfold result, getStory, bind, read_db, ret, select_where. cbn [fst].
  intro H. apply Ok_inj in H.
  destruct (filter _ (stories (db w))) as [|x xs] eqn:E; [discriminate|].
  injection H as ->.
  assert (Hin : In st (filter (fun x => (Story.id x =? s)%string) (stories (db w))))
    by (rewrite E; left; reflexivity).
  apply filter_In in Hin. destruct Hin as [Hin Hid].
  split; [exact Hin|]. split; [apply String.eqb_eq, Hid|].
  unfold has_story. apply existsb_exists. exists st. auto.
Qed.

(** The like branch, when the database accepts both inserts. *)
Lemma toggleLike_like (w : World) (u s : string) (st : Story.t) :
  ~ likes_story (db w) u s ->
  has_user (db w) u = true ->
  result (getStory s) w = Ok (Some st) ->
  has_user (db w) (Story.authorId st) = true ->
  fresh_ids w ->
  let like := Like.mk (uuids w (drawn w)) u s (Some (clock w)) in
  let notification :=
    Notification.mk (uuids w (S (drawn w))) (Story.authorId st) "like" (Some s)
      (Some false) (Some (clock w)) in
  let d1 := with_likes (db w) (likes (db w) ++ [like]) in
  toggleLike u s w
  = (Ok (mkToggleResult true (List.length (likes_of d1 s))),
     if (Story.authorId st =? u)%string
     then mkWorld d1 (clock w) (uuids w) (S (drawn w))
     else mkWorld (with_notifications d1 (notifications d1 ++ [notification]))
            (clock w) (uuids w) (S (S (drawn w)))).
Proof.
  intros Hnone Hu Hst Hauthor Hfresh.
  assert (Hsel : select_where (like_of u s) (likes (db w)) = []).
  { destruct (select_where (like_of u s) (likes (db w))) eqn:E; [reflexivity|].
    exfalso. apply Hnone, likes_story_select. congruence. }
  destruct (getStory_found w s st Hst) as (_ & _ & Hstory).
  destruct (Hfresh (drawn w) (Nat.le_refl _)) as (_ & _ & Hl & _).
  destruct (Hfresh (S (drawn w)) (Nat.le_succ_diag_r _)) as (_ & _ & _ & Hn & _).
  cbv zeta.
  unfold toggleLike. rewrite (bind_run _ _ w w (db w)) by reflexivity.
  rewrite Hsel. cbn [firstn List.length Nat.ltb Nat.leb].
  erewrite bind_run by (apply insert_likes_run; assumption).
  erewrite bind_run by reflexivity.
  cbn [db with_likes stories].
  unfold result, getStory, bind, read_db, ret in Hst. cbn [fst] in Hst.
  apply Ok_inj in Hst. rewrite Hst.
  destruct (Story.authorId st =? u)%string; cbn [negb].
  - reflexivity.
  - erewrite bind_run
      by (erewrite bind_run
            by (apply createNotification_run; [exact Hauthor|exact Hstory|exact Hn]);
          reflexivity).
    reflexivity.
Qed.

Lemma has_story_getStory (w : World) (s : string) :
  has_story (db w) s = true ->
  exists st, result (getStory s) w = Ok (Some st).
Proof.
  unfold has_story. intro H. apply existsb_exists in H. destruct H as [x [Hx Hid]].
  unfold result, getStory, bind, read_db, ret, select_where. cbn [fst].
  destruct (filter (fun x => (Story.id x =? s)%string) (stories (db w))) as [|y ys] eqn:E.
  - exfalso.
    assert (Hin : In x (filter (fun x => (Story.id x =? s)%string) (stories (db w))))
      by (apply filter_In; auto).
    rewrite E in Hin. exact Hin.
  - exists y. reflexivity.
Qed.

Lemma likes_of_insert (d : Db) (l : Like.t) (s : string) :
  Like.storyId l = s ->
  likes_of (with_likes d (likes d ++ [l])) s = (likes_of d s ++ [l])%list.
Proof.
  intro H. unfold likes_of. cbn [likes with_likes]. rewrite filter_app. cbn [filter].
  rewrite H, String.eqb_refl. reflexivity.
Qed.

Lemma delete_where_none {R : Type} (c : R -> bool) (l : list R) :
  filter c l = [] -> delete_where c l = l.
Proof.
  unfold delete_where. induction l as [|x l IH]; simpl; [reflexivity|].
  destruct (c x); simpl; [discriminate|]. intro H. rewrite IH; [reflexivity|exact H].
Qed.

Lemma delete_where_In {R : Type} (c : R -> bool) (l : list R) (x : R) :
  In x (delete_where c l) <-> In x l /\ c x = false.
Proof.
  unfold delete_where. rewrite filter_In, negb_true_iff. reflexivity.
Qed.

Lemma not_likes_story_select (d : Db) (u s : string) :
  ~ likes_story d u s -> select_where (like_of u s) (likes d) = [].
Proof.
  intro H. destruct (select_where (like_of u s) (likes d)) eqn:E; [reflexivity|].
  exfalso. apply H, likes_story_select. congruence.
Qed.

(** The like branch, said on the likes table. *)
Lemma toggleLike_inserts (w : World) (u s : string) :
  ~ likes_story (db w) u s ->
  has_user (db w) u = true ->
  has_story (db w) s = true ->
  authors_exist (db w) ->
  fresh_ids w ->
  result (toggleLike u s) w
  = Ok (mkToggleResult true (S (List.length (likes_of (db w) s))))
  /\ likes (db (after (toggleLike u s) w))
     = (likes (db w) ++ [Like.mk (uuids w (drawn w)) u s (Some (clock w))])%list
  /\ List.length (likes_of (db (after (toggleLike u s) w)) s)
     = S (List.length (likes_of (db w) s)).
Proof.
  intros Hnone Hu Hs Hfk Hfresh.
  destruct (has_story_getStory w s Hs) as [st Hst].
  destruct (getStory_found w s st Hst) as (Hin & _ & _).
  pose proof (toggleLike_like w u s st Hnone Hu Hst (Hfk st Hin) Hfresh) as Hrun.
  cbv zeta in Hrun.
  assert (Hlikes : likes (db (after (toggleLike u s) w))
                   = (likes (db w)
                      ++ [Like.mk (uuids w (drawn w)) u s (Some (clock w))])%list).
  { unfold after. rewrite Hrun. cbn [snd].
    destruct (Story.authorId st =? u)%string; reflexivity. }
  assert (Hcount : List.length (likes_of (db (after (toggleLike u s) w)) s)
                   = S (List.length (likes_of (db w) s))).
  { unfold likes_of at 1. rewrite Hlikes. rewrite filter_app, length_app.
    cbn [filter Like.storyId]. rewrite String.eqb_refl. cbn [List.length].
    unfold likes_of. lia. }
  split; [|split; [exact Hlikes|exact Hcount]].
  unfold result. rewrite Hrun. cbn [fst].
  rewrite likes_of_insert by reflexivity. rewrite length_app. cbn [List.length].
  f_equal. f_equal. lia.
Qed.

(** The likes of a story are those of one user on it and the others. *)
Lemma likes_of_delete (d : Db) (u s : string) :
  List.length (likes_of d s)
  = (List.length (likes_of (with_likes d (delete_where (like_of u s) (likes d))) s)
     + List.length (filter (like_of u s) (likes d)))%nat.
Proof.
  unfold likes_of, delete_where. cbn [likes with_likes].
  induction (likes d) as [|x l IH]; [reflexivity|]. cbn [filter].
  destruct (like_of u s x) eqn:E; cbn [negb filter].
  - apply like_of_spec in E. destruct E as [_ Es]. apply String.eqb_eq in Es.
    rewrite Es. cbn [List.length]. lia.
  - destruct (Like.storyId x =? s)%string; cbn [List.length]; lia.
Qed.

(** Deleting likes uses up no generated id. *)
Lemma fresh_ids_delete_likes (w : World) (c : Like.t -> bool) :
  fresh_ids w ->
  fresh_ids (with_db w (with_likes (db w) (delete_where c (likes (db w))))).
Proof.
  intros Hfresh k Hk. destruct (Hfresh k Hk) as (H1 & H2 & H3 & H4 & H5).
  unfold unused. cbn [db with_db uuids stories chapters likes notifications bookmarks
                      with_likes].
  repeat split; try assumption.
  intro Hin. apply H3. apply in_map_iff in Hin. destruct Hin as (l & Hl & Hin).
  apply delete_where_In in Hin. rewrite <- Hl. apply in_map, Hin.
Qed.

Lemma uuid_of_prefix (k : nat) :
  exists rest, uuid_of k = ("uuid-" ++ rest)%string.
Proof. eexists. reflexivity. Qed.

Lemma sample_world_fresh : fresh_ids sample_world.
Proof.
  intros k _. destruct (uuid_of_prefix k) as [rest Hk].
  unfold unused. cbn [sample_world db uuids]. rewrite Hk. simpl.
  repeat split; intro H; repeat (destruct H as [H|H]; [discriminate H|]); exact H.
Qed.

Lemma sample_world_authors : authors_exist (db sample_world).
Proof.
  intros s Hs. simpl in Hs.
  destruct Hs as [<-|[<-|[]]]; reflexivity.
Qed.

Lemma sample_world_bob_ode : ~ likes_story (db sample_world) "bob" "s1".
Proof.
  intros [l [Hin [_ Hs]]]. simpl in Hin.
  destruct Hin as [<-|[]]. discriminate Hs.
Qed.

(** ** Running createBookmark *)

Lemma filter_id_primary_key {R : Type} (id : R -> string) (e : R) (l : list R) :
  primary_key id l -> In e l ->
  filter (fun x => (id x =? id e)%string) l = [e].
Proof.
  unfold primary_key. induction l as [|y l IH]; simpl; intros Hnd Hin; [destruct Hin|].
  inversion Hnd as [|? ? Hy Hl]; subst.
  destruct Hin as [->|Hin].
  - rewrite String.eqb_refl. f_equal. apply filter_none. intros x Hx.
    apply String.eqb_neq. intro Heq. apply Hy. rewrite <- Heq. apply in_map, Hx.
  - replace (id y =? id e)%string with false; [apply IH; assumption|].
    symmetry. apply String.eqb_neq. intro Heq. apply Hy. rewrite Heq. apply in_map, Hin.
Qed.

Lemma bookmarks_of_head (d : Db) (u s : string) (e : Bookmark.t) (rest : list Bookmark.t) :
  bookmarks_of d u s = e :: rest ->
  In e (bookmarks d) /\ Bookmark.userId e = u /\ Bookmark.storyId e = s.
Proof.
  intro H.
  assert (Hin : In e (bookmarks_of d u s)) by (rewrite H; left; reflexivity).
  unfold bookmarks_of in Hin. apply filter_In in Hin. destruct Hin as [Hin Hc].
  unfold bookmark_of in Hc. apply andb_true_iff in Hc.
  rewrite !String.eqb_eq in Hc. tauto.
Qed.

(** The update branch. *)
Lemma createBookmark_existing (w : World) (b : InsertBookmark.t)
    (e : Bookmark.t) (rest : list Bookmark.t) :
  bookmarks_of (db w) (InsertBookmark.userId b) (InsertBookmark.storyId b) = e :: rest ->
  createBookmark b w
  = (Ok (hd_error
           (returning (fun x => (Bookmark.id x =? Bookmark.id e)%string)
              (set_note (InsertBookmark.note b) (clock w)) (bookmarks (db w)))),
     with_db w
       (with_bookmarks (db w)
          (update_where (fun x => (Bookmark.id x =? Bookmark.id e)%string)
             (set_note (InsertBookmark.note b) (clock w)) (bookmarks (db w))))).
Proof.
  unfold bookmarks_of. intro H.
  unfold createBookmark. rewrite (bind_run _ _ w w (db w)) by reflexivity.
  unfold select_where. rewrite H. reflexivity.
Qed.

(** The insert branch, when the database accepts the row. *)
Lemma createBookmark_new (w : World) (b : InsertBookmark.t) :
  bookmarks_of (db w) (InsertBookmark.userId b) (InsertBookmark.storyId b) = [] ->
  int4 (InsertBookmark.position b) = true ->
  has_user (db w) (InsertBookmark.userId b) = true ->
  has_story (db w) (InsertBookmark.storyId b) = true ->
  references (has_chapter (db w)) (or_default (InsertBookmark.chapterId b) None) = true ->
  fresh_ids w ->
  let r :=
    Bookmark.mk (uuids w (drawn w)) (InsertBookmark.userId b)
      (InsertBookmark.storyId b) (or_default (InsertBookmark.chapterId b) None)
      (InsertBookmark.position b) (or_default (InsertBookmark.note b) None)
      (Some (clock w)) in
  createBookmark b w
  = (Ok (Some r),
     mkWorld (with_bookmarks (db w) (bookmarks (db w) ++ [r]))
       (clock w) (uuids w) (S (drawn w))).
Proof.
  unfold bookmarks_of. intros H Hp Hu Hs Hc Hfresh.
  destruct (Hfresh (drawn w) (Nat.le_refl _)) as (_ & _ & _ & _ & Hid).
  apply existsb_id_unused in Hid.
  cbv zeta. unfold createBookmark. rewrite (bind_run _ _ w w (db w)) by reflexivity.
  unfold select_where. rewrite H. cbn [firstn].
  unfold insert_bookmarks, within_range. rewrite Hp.
  unfold bind, gen_random_uuid, now, read_db, constrained.
  cbn [fst snd db clock uuids drawn Bookmark.chapterId].
  rewrite Hid, Hu, Hs, Hc. reflexivity.
Qed.

(** The insert branch, when the position does not fit its column. *)
Lemma createBookmark_out_of_range (w : World) (b : InsertBookmark.t) :
  bookmarks_of (db w) (InsertBookmark.userId b) (InsertBookmark.storyId b) = [] ->
  int4 (InsertBookmark.position b) = false ->
  createBookmark b w = (Throw numeric_value_out_of_range, w).
Proof.
  unfold bookmarks_of. intros H Hp.
  unfold createBookmark. rewrite (bind_run _ _ w w (db w)) by reflexivity.
  unfold select_where. rewrite H. cbn [firstn].
  apply bind_throw. unfold insert_bookmarks, within_range. rewrite Hp. reflexivity.
Qed.

Lemma bookmarks_of_update (d : Db) (u s : string) (c : Bookmark.t -> bool)
    (note : field (option string)) (t : timestamp) :
  bookmarks_of (with_bookmarks d (update_where c (set_note note t) (bookmarks d))) u s
  = map (fun x => if c x then set_note note t x else x) (bookmarks_of d u s).
Proof.
  unfold bookmarks_of, update_where. cbn [bookmarks with_bookmarks].
  induction (bookmarks d) as [|x l IH]; simpl; [reflexivity|].
  assert (Hsame : bookmark_of u s (if c x then set_note note t x else x)
                  = bookmark_of u s x) by (destruct (c x); reflexivity).
  rewrite Hsame. destruct (bookmark_of u s x); simpl; rewrite IH; reflexivity.
Qed.

Lemma bookmarks_of_insert (d : Db) (u s : string) (r : Bookmark.t) :
  Bookmark.userId r = u -> Bookmark.storyId r = s ->
  bookmarks_of (with_bookmarks d (bookmarks d ++ [r])) u s
  = (bookmarks_of d u s ++ [r])%list.
Proof.
  intros Hu Hs. unfold bookmarks_of. cbn [bookmarks with_bookmarks].
  rewrite filter_app. cbn [filter]. unfold bookmark_of at 2.
  rewrite Hu, Hs, !String.eqb_refl. reflexivity.
Qed.

(** Whatever the table held for the pair, one row or none, after
    createBookmark it holds one, which carries the note that was given. *)
Lemma createBookmark_one_row (w : World) (b : InsertBookmark.t) :
  (List.length (bookmarks_of (db w) (InsertBookmark.userId b) (InsertBookmark.storyId b))
   <= 1)%nat ->
  (bookmarks_of (db w) (InsertBookmark.userId b) (InsertBookmark.storyId b) = [] ->
   insert_accepted w b) ->
  exists r,
    bookmarks_of (db (after (createBookmark b) w))
      (InsertBookmark.userId b) (InsertBookmark.storyId b) = [r]
    /\ forall note, InsertBookmark.note b = given note -> Bookmark.note r = note.
Proof.
  intros Hone Hins.
  destruct (bookmarks_of (db w) (InsertBookmark.userId b) (InsertBookmark.storyId b))
    as [|e rest] eqn:E.
  - destruct (Hins eq_refl) as (Hp & Hu & Hs & Hc & Hfresh).
    unfold after. rewrite (createBookmark_new w b E Hp Hu Hs Hc Hfresh). cbn [snd db].
    rewrite bookmarks_of_insert by reflexivity. rewrite E.
    eexists. split; [reflexivity|]. intros note ->. reflexivity.
  - destruct rest as [|e2 rest]; [|simpl in Hone; lia].
    unfold after. rewrite (createBookmark_existing w b e [] E). cbn [snd db with_db].
    rewrite bookmarks_of_update, E. cbn [map]. rewrite String.eqb_refl.
    eexists. split; [reflexivity|]. intros note ->. reflexivity.
Qed.

Lemma primary_key_inj {R : Type} (id : R -> string) (l : list R) (x y : R) :
  primary_key id l -> In x l -> In y l -> id x = id y -> x = y.
Proof.
  unfold primary_key. induction l as [|z l IH]; simpl; intros Hnd Hx Hy Heq; [destruct Hx|].
  inversion Hnd as [|? ? Hz Hl]; subst.
  destruct Hx as [->|Hx], Hy as [->|Hy].
  - reflexivity.
  - exfalso. apply Hz. rewrite Heq. apply in_map, Hy.
  - exfalso. apply Hz. rewrite <- Heq. apply in_map, Hx.
  - apply IH; assumption.
Qed.

Lemma Forall2_update_where_In {R : Type} (c : R -> bool) (set : R -> R)
    (l0 l : list R) :
  incl l l0 ->
  Forall2 (fun x y => In x l0 /\ ((c x = true /\ y = set x) \/ (c x = false /\ y = x)))
          l (update_where c set l).
Proof.
  induction l as [|x l IH]; simpl; intro Hincl; constructor.
  - split; [apply Hincl; left; reflexivity|].
    destruct (c x); [left|right]; split; reflexivity.
  - apply IH. intros y Hy. apply Hincl. right. exact Hy.
Qed.

(** X14.  createBookmark keeps the table at one bookmark per user and story. *)
Lemma createBookmark_keeps_unique (w : World) (b : InsertBookmark.t) :
  bookmarks_unique (db w) -> bookmarks_unique (db (after (createBookmark b) w)).
Proof.
  intros Huniq u s.
  destruct (bookmarks_of (db w) (InsertBookmark.userId b) (InsertBookmark.storyId b))
    as [|e rest] eqn:E.
  - unfold after, createBookmark. rewrite (bind_run _ _ w w (db w)) by reflexivity.
    unfold bookmarks_of in E. unfold select_where. rewrite E. cbn [firstn].
    unfold insert_bookmarks, within_range.
    destruct (int4 _); [|apply Huniq].
    unfold bind, gen_random_uuid, now, read_db, constrained.
    cbn [fst snd db clock uuids drawn].
    destruct (existsb _ (bookmarks (db w))); [apply Huniq|].
    destruct (negb _); [apply Huniq|].
    cbn [snd write_db ret with_db db]. unfold bookmarks_of.
    cbn [bookmarks with_bookmarks]. rewrite filter_app, length_app. cbn [filter].
    destruct (bookmark_of u s _) eqn:Hmine; cbn [List.length].
    + unfold bookmark_of in Hmine. cbn [Bookmark.userId Bookmark.storyId] in Hmine.
      apply andb_true_iff in Hmine. rewrite !String.eqb_eq in Hmine.
      destruct Hmine as [<- <-]. rewrite E. simpl. lia.
    + specialize (Huniq u s). unfold bookmarks_of in Huniq. lia.
  - unfold after. rewrite (createBookmark_existing w b e rest E). cbn [snd db with_db].
    rewrite bookmarks_of_update, length_map. apply Huniq.
Qed.

(** X15.  A call that carries no note (the property is undefined) refreshes
    createdAt and keeps the note of the row. *)
Lemma createBookmark_without_note (w : World) (b : InsertBookmark.t) (e : Bookmark.t) :
  InsertBookmark.note b = absent ->
  bookmarks_of (db w) (InsertBookmark.userId b) (InsertBookmark.storyId b) = [e] ->
  bookmarks_of (db (after (createBookmark b) w))
    (InsertBookmark.userId b) (InsertBookmark.storyId b)
  = [Bookmark.mk (Bookmark.id e) (Bookmark.userId e) (Bookmark.storyId e)
       (Bookmark.chapterId e) (Bookmark.position e) (Bookmark.note e)
       (Some (clock w))].
Proof.
  intros Hnote E. unfold after. rewrite (createBookmark_existing w b e [] E).
  cbn [snd db with_db]. rewrite bookmarks_of_update, E. cbn [map].
  rewrite String.eqb_refl, Hnote. reflexivity.
Qed.

(** * The statements C1 to C10 of the specification *)

(** C1 as stated fails, in both halves of its sentence on two calls.  bob
    already likes the tale: of two toggles in succession the first unlikes
    it and the second likes it again, so the second call returns liked =
    true.  And where the table holds two Like rows of bob on the tale, the
    first toggle deletes both and the second inserts one: the like count
    goes from 2 to 1. *)
Lemma toggleLike_twice_from_liked :
  (likes_story (db sample_world) "bob" "s2"
   /\ result (toggleLike "bob" "s2") sample_world = Ok (mkToggleResult false 0)
   /\ result (toggleLike "bob" "s2") (after (toggleLike "bob" "s2") sample_world)
      = Ok (mkToggleResult true 1))
  /\ (result (getLikeCount "s2") doubled_world = Ok 2%nat
      /\ result (toggleLike "bob" "s2") doubled_world = Ok (mkToggleResult false 0)
      /\ result (toggleLike "bob" "s2") (after (toggleLike "bob" "s2") doubled_world)
         = Ok (mkToggleResult true 1)
      /\ result (getLikeCount "s2")
           (after (toggleLike "bob" "s2") (after (toggleLike "bob" "s2") doubled_world))
         = Ok 1%nat).
Proof.
  split; [split; [|split; reflexivity]|repeat split].
  eexists. split; [left; reflexivity|]. split; reflexivity.
Qed.

(** C1, amended.  If a Like row of (userId, storyId) exists, toggleLike
    deletes every such row and returns liked = false with the story's like
    count after the deletion.  If none exists, and the user and the story
    exist (with the schema's foreign keys and fresh generated ids), it
    inserts one row and returns liked = true with the like count after the
    insertion, which is the count before plus exactly 1.  Two calls in
    succession, from a state with at most one Like row of the pair, both
    return, and they bring the like count back to its value before them:
    when no like existed the first returns liked = true and the second
    liked = false, and when one existed the first returns liked = false and
    the second liked = true. *)
Theorem toggleLike_toggles (w : World) (u s : string) :
  (likes_story (db w) u s ->
   result (toggleLike u s) w
   = Ok (mkToggleResult false
           (List.length (likes_of (db (after (toggleLike u s) w)) s)))
   /\ ~ likes_story (db (after (toggleLike u s) w)) u s
   /\ (forall l,
          In l (likes (db (after (toggleLike u s) w))) <->
          In l (likes (db w)) /\ like_of u s l = false))
  /\ (~ likes_story (db w) u s ->
      has_user (db w) u = true ->
      has_story (db w) s = true ->
      authors_exist (db w) ->
      fresh_ids w ->
      result (toggleLike u s) w
      = Ok (mkToggleResult true (S (List.length (likes_of (db w) s))))
      /\ likes (db (after (toggleLike u s) w))
         = (likes (db w) ++ [Like.mk (uuids w (drawn w)) u s (Some (clock w))])%list
      /\ List.length (likes_of (db (after (toggleLike u s) w)) s)
         = S (List.length (likes_of (db w) s)))
  /\ ((List.length (filter (like_of u s) (likes (db w))) <= 1)%nat ->
      has_user (db w) u = true ->
      has_story (db w) s = true ->
      authors_exist (db w) ->
      fresh_ids w ->
      exists first second,
        result (toggleLike u s) w = Ok first
        /\ result (toggleLike u s) (after (toggleLike u s) w) = Ok second
        /\ count second = List.length (likes_of (db w) s)
        /\ List.length
             (likes_of (db (after (toggleLike u s) (after (toggleLike u s) w))) s)
           = List.length (likes_of (db w) s)
        /\ (~ likes_story (db w) u s -> liked first = true /\ liked second = false)
        /\ (likes_story (db w) u s -> liked first = false /\ liked second = true)).
Proof.
  split; [|split].
  - intro H. unfold result, after. rewrite (toggleLike_unlike w u s H).
    cbn [fst snd db with_db]. split; [reflexivity|]. split.
    + intros [l [Hin Hl]]. cbn [likes with_likes] in Hin.
      apply delete_where_In in Hin. apply like_of_spec in Hl.
      destruct Hin as [_ Hin]. congruence.
    + intro l. cbn [likes with_likes]. apply delete_where_In.
  - intros Hnone Hu Hs Hfk Hfresh.
    destruct (toggleLike_inserts w u s Hnone Hu Hs Hfk Hfresh) as (Hr & Hlikes & Hcount).
    split; [exact Hr|]. split; [exact Hlikes|exact Hcount].
  - intros Hone Hu Hs Hfk Hfresh.
    destruct (likes_story_dec (db w) u s) as [Hliked|Hnone].
    + (* unlike, then like again *)
      pose proof (toggleLike_unlike w u s Hliked) as Hrun1.
      set (w1 := with_db w (with_likes (db w) (delete_where (like_of u s) (likes (db w)))))
        in Hrun1.
      assert (Hw1 : after (toggleLike u s) w = w1) by (unfold after; rewrite Hrun1; reflexivity).
      assert (Hnone1 : ~ likes_story (db w1) u s).
      { intros [l [Hin Hl]]. cbn [w1 db with_db likes with_likes] in Hin.
        apply delete_where_In in Hin. apply like_of_spec in Hl.
        destruct Hin as [_ Hin]. congruence. }
      destruct (toggleLike_inserts w1 u s Hnone1 Hu Hs Hfk
                  (fresh_ids_delete_likes w (like_of u s) Hfresh))
        as (Hr2 & _ & Hcount2).
      assert (Hback : S (List.length (likes_of (db w1) s))
                      = List.length (likes_of (db w) s)).
      { cbn [w1 db with_db]. pose proof (likes_of_delete (db w) u s) as Hsplit.
        apply likes_story_select in Hliked. unfold select_where in Hliked.
        destruct (filter (like_of u s) (likes (db w))) as [|x [|y l]];
          [congruence|cbn [List.length] in Hsplit; lia|cbn [List.length] in Hone; lia]. }
      eexists. eexists. rewrite Hw1.
      split; [unfold result; rewrite Hrun1; reflexivity|].
      split; [exact Hr2|]. cbn [count liked].
      split; [exact Hback|]. split; [rewrite Hcount2; exact Hback|].
      split; [intro H; contradiction|intros _; split; reflexivity].
    + (* like, then unlike *)
      destruct (toggleLike_inserts w u s Hnone Hu Hs Hfk Hfresh) as (Hr & Hlikes & Hcount).
      set (w1 := after (toggleLike u s) w) in *.
      assert (Hliked1 : likes_story (db w1) u s).
      { eexists. split; [rewrite Hlikes; apply in_or_app; right; left; reflexivity|].
        split; reflexivity. }
      assert (Hback : delete_where (like_of u s) (likes (db w1)) = likes (db w)).
      { rewrite Hlikes. unfold delete_where. rewrite filter_app.
        cbn [filter]. unfold like_of at 2. cbn [Like.userId Like.storyId].
        rewrite !String.eqb_refl. cbn [andb negb].
        rewrite app_nil_r. apply delete_where_none, not_likes_story_select, Hnone. }
      eexists. eexists. split; [exact Hr|].
      unfold result, after. rewrite (toggleLike_unlike w1 u s Hliked1).
      cbn [fst snd db with_db count liked]. unfold likes_of. cbn [likes with_likes].
      rewrite Hback.
      split; [reflexivity|]. split; [reflexivity|]. split; [reflexivity|].
      split; [intros _; split; reflexivity|intro H; contradiction].
Qed.

Lemma toggleLike_toggles_witness :
  (exists first second,
      result (toggleLike "bob" "s1") sample_world = Ok first
      /\ result (toggleLike "bob" "s1") (after (toggleLike "bob" "s1") sample_world)
         = Ok second
      /\ count second = 0%nat
      /\ liked first = true /\ liked second = false)
  /\ (exists first second,
        result (toggleLike "bob" "s2") sample_world = Ok first
        /\ result (toggleLike "bob" "s2") (after (toggleLike "bob" "s2") sample_world)
           = Ok second
        /\ count second = 1%nat
        /\ liked first = false /\ liked second = true).
Proof.
  split.
  - destruct (toggleLike_toggles sample_world "bob" "s1") as (_ & _ & Htwice).
    destruct (Htwice (Nat.le_0_l 1) eq_refl eq_refl sample_world_authors
                sample_world_fresh)
      as (first & second & H1 & H2 & Hc & _ & Hnone & _).
    exists first, second. split; [exact H1|]. split; [exact H2|].
    split; [exact Hc|]. exact (Hnone sample_world_bob_ode).
  - destruct (toggleLike_toggles sample_world "bob" "s2") as (_ & _ & Htwice).
    destruct (Htwice (Nat.le_refl 1) eq_refl eq_refl sample_world_authors
                sample_world_fresh)
      as (first & second & H1 & H2 & Hc & _ & _ & Hliked).
    exists first, second. split; [exact H1|]. split; [exact H2|].
    split; [exact Hc|]. apply Hliked.
    eexists. split; [left; reflexivity|]. split; reflexivity.
Defined.

(** C2.  Let s be a story and u a user, with the author of s a user and
    the generated ids fresh.  When toggleLike(u, s) inserts a like (no Like
    row of the pair existed): if the author of s is u, no notification is
    created; if the author is another user, exactly one notification is
    created, of type "like", addressed to the author and referencing s.
    When toggleLike unlikes (a Like row existed), no notification is
    created. *)
Theorem toggleLike_notifies (w : World) (u s : string) (st : Story.t) :
  result (getStory s) w = Ok (Some st) ->
  has_user (db w) u = true ->
  authors_exist (db w) ->
  fresh_ids w ->
  (~ likes_story (db w) u s ->
   Story.authorId st = u ->
   (exists n, result (toggleLike u s) w = Ok (mkToggleResult true n))
   /\ notifications (db (after (toggleLike u s) w)) = notifications (db w))
  /\ (~ likes_story (db w) u s ->
      Story.authorId st <> u ->
      (exists n, result (toggleLike u s) w = Ok (mkToggleResult true n))
      /\ exists n,
          notifications (db (after (toggleLike u s) w))
          = (notifications (db w) ++ [n])%list
          /\ Notification.type n = "like"
          /\ Notification.userId n = Story.authorId st
          /\ Notification.storyId n = Some s)
  /\ (likes_story (db w) u s ->
      (exists n, result (toggleLike u s) w = Ok (mkToggleResult false n))
      /\ notifications (db (after (toggleLike u s) w)) = notifications (db w)).
Proof.
  intros Hst Hu Hfk Hfresh.
  destruct (getStory_found w s st Hst) as (Hin & _ & _).
  split; [|split].
  - intros Hnone Hself.
    pose proof (toggleLike_like w u s st Hnone Hu Hst (Hfk st Hin) Hfresh) as Hrun.
    cbv zeta in Hrun. unfold result, after. rewrite Hrun.
    apply String.eqb_eq in Hself. rewrite Hself. cbn [fst snd].
    split; [eexists; reflexivity|reflexivity].
  - intros Hnone Hother.
    pose proof (toggleLike_like w u s st Hnone Hu Hst (Hfk st Hin) Hfresh) as Hrun.
    cbv zeta in Hrun. unfold result, after. rewrite Hrun.
    apply String.eqb_neq in Hother. rewrite Hother. cbn [fst snd].
    split; [eexists; reflexivity|].
    eexists. split; [reflexivity|]. repeat split.
  - intro Hliked. unfold result, after. rewrite (toggleLike_unlike w u s Hliked).
    cbn [fst snd]. split; [eexists; reflexivity|reflexivity].
Qed.

Lemma toggleLike_notifies_witness :
  (exists n,
      notifications (db (after (toggleLike "bob" "s1") sample_world)) = [n]
      /\ Notification.type n = "like"
      /\ Notification.userId n = "alice"
      /\ Notification.storyId n = Some "s1")
  /\ notifications (db (after (toggleLike "alice" "s1") sample_world)) = []
  /\ notifications (db (after (toggleLike "bob" "s2") sample_world)) = [].
Proof.
  split; [|split].
  - destruct (toggleLike_notifies sample_world "bob" "s1" ode eq_refl eq_refl
                sample_world_authors sample_world_fresh) as (_ & Hother & _).
    refine (proj2 (Hother sample_world_bob_ode _)). discriminate.
  - destruct (toggleLike_notifies sample_world "alice" "s1" ode eq_refl eq_refl
                sample_world_authors sample_world_fresh) as (Hself & _ & _).
    refine (proj2 (Hself _ eq_refl)).
    intros [l [Hin [Hl _]]]. simpl in Hin. destruct Hin as [<-|[]]. discriminate Hl.
  - destruct (toggleLike_notifies sample_world "bob" "s2" tale eq_refl eq_refl
                sample_world_authors sample_world_fresh) as (_ & _ & Hunlike).
    refine (proj2 (Hunlike _)).
    eexists. split; [left; reflexivity|]. split; reflexivity.
Defined.

(** C3 (the code departs from the claim).  The claim: every row of
    getPublishedStories has published = true, also when a category is
    given.  The code at the sample store, asked for the poems: the second
    .where() has taken the place of the first, and the one row returned is
    the unpublished ode. *)
Theorem getPublishedStories_poem_shows_unpublished :
  result (getPublishedStories (given "poem") absent) sample_world
  = Ok [feed_row sample_db ode]
  /\ StoryRow.published (feed_row sample_db ode) = Some false
  /\ StoryRow.category (feed_row sample_db ode) = "poem".
Proof. vm_compute. repeat split. Qed.

(** C4.  getPublishedStories orders its rows by publish timestamp
    descending when sortBy is "recent"; for every other sortBy ("trending",
    any other string, or none) it orders them by like count descending, with
    the publish timestamp descending among rows of equal like count.  The
    default order is the trending one.  What is ordered, under the primary
    keys of stories and users, are the feed rows of the stories that pass
    the WHERE of the query, one row per story with likeCount the number of
    its likes; the result is the first 50 of them in that order. *)
Theorem getPublishedStories_sort_policy (w : World) (category sortBy : field string) :
  (exists rows,
      getPublishedStories category sortBy w = (Ok rows, w)
      /\ (sortBy = given "recent" -> StronglySorted recent_order rows)
      /\ (sortBy <> given "recent" -> StronglySorted trending_order rows))
  /\ (primary_key Story.id (stories (db w)) ->
      primary_key User.id (users (db w)) ->
      exists all,
        Permutation all
          (map (feed_row (db w)) (filter (passes_where category) (stories (db w))))
        /\ (sortBy = given "recent" -> StronglySorted recent_order all)
        /\ (sortBy <> given "recent" -> StronglySorted trending_order all)
        /\ result (getPublishedStories category sortBy) w = Ok (firstn 50 all)).
Proof.
  split.
  - rewrite getPublishedStories_run. eexists. split; [reflexivity|]. split.
    + intros ->. apply StronglySorted_firstn.
      apply order_by_sorted_for;
        [apply recent_compare|apply recent_order_total|apply recent_order_trans].
    + intro Hs. rewrite (strict_eq_false _ _ Hs). apply StronglySorted_firstn.
      apply order_by_sorted_for;
        [apply trending_compare|apply trending_order_total|apply trending_order_trans].
  - intros Hs Hu.
    destruct (getPublishedStories_feed w category sortBy Hs Hu)
      as (all & Hrun & Hperm & Hrecent & Htrending).
    exists all. split; [exact Hperm|]. split; [exact Hrecent|].
    split; [exact Htrending|]. unfold result. rewrite Hrun. reflexivity.
Qed.

Lemma getPublishedStories_sort_policy_witness :
  (exists all,
      Permutation all [feed_row busy_db dawn; feed_row busy_db tale; feed_row busy_db dusk]
      /\ StronglySorted trending_order all
      /\ result (getPublishedStories absent absent) busy_world = Ok (firstn 50 all))
  /\ result (getPublishedStories absent absent) busy_world
     = Ok [feed_row busy_db tale; feed_row busy_db dawn; feed_row busy_db dusk]
  /\ result (getPublishedStories absent (given "recent")) busy_world
     = Ok [feed_row busy_db dusk; feed_row busy_db tale; feed_row busy_db dawn]
  /\ map StoryRow.likeCount
       [feed_row busy_db tale; feed_row busy_db dawn; feed_row busy_db dusk]
     = [2; 1; 0]%nat.
Proof.
  split; [|repeat split].
  destruct (getPublishedStories_sort_policy busy_world absent absent) as [_ H].
  destruct H as (all & Hperm & _ & Htrending & Hr); [solve_primary_key..|].
  exists all. split; [exact Hperm|]. split; [apply Htrending; discriminate|exact Hr].
Defined.

(** C5 as stated fails: with fifty-one published stories the fifty-first
    is not in the feed. *)
Lemma getPublishedStories_cap_hides_story :
  exists s rows,
    In s (stories (db crowded_world))
    /\ Story.published s = Some true
    /\ result (getPublishedStories absent absent) crowded_world = Ok rows
    /\ ~ In (Story.id s) (map StoryRow.id rows).
Proof.
  exists (nth 50 crowd ode).
  eexists. split; [|split; [|split]].
  - apply nth_In. vm_compute. lia.
  - reflexivity.
  - vm_compute. reflexivity.
  - vm_compute. intro H.
    repeat (destruct H as [H|H]; [discriminate H|]). exact H.
Qed.

(** C5, amended.  Under the primary keys of stories and users, the rows
    of the query before its LIMIT are the feed rows of the stories that
    pass its WHERE, one per story.  Every published story that passes the
    category filter is among them, with its author and with likeCount the
    number of its likes, which is 0 for a story nobody liked (the joins are
    outer joins).  The feed is the first 50 of these rows in the sort
    order, so it has at most 50 rows, and it holds every such story when at
    most 50 stories pass the WHERE. *)
Theorem getPublishedStories_outer_join (w : World) (category sortBy : field string) :
  primary_key Story.id (stories (db w)) ->
  primary_key User.id (users (db w)) ->
  exists all,
    result (getPublishedStories category sortBy) w = Ok (firstn 50 all)
    /\ Permutation all
         (map (feed_row (db w)) (filter (passes_where category) (stories (db w))))
    /\ (sortBy = given "recent" -> StronglySorted recent_order all)
    /\ (sortBy <> given "recent" -> StronglySorted trending_order all)
    /\ (List.length (firstn 50 all) <= 50)%nat
    /\ forall s,
        In s (stories (db w)) ->
        Story.published s = Some true ->
        (forall c, filters_category category = Some c -> Story.category s = c) ->
        In (feed_row (db w) s) all
        /\ StoryRow.likeCount (feed_row (db w) s)
           = List.length (likes_of (db w) (Story.id s))
        /\ (likes_of (db w) (Story.id s) = [] ->
            StoryRow.likeCount (feed_row (db w) s) = 0%nat)
        /\ ((List.length (filter (passes_where category) (stories (db w))) <= 50)%nat ->
            In (feed_row (db w) s) (firstn 50 all)).
Proof.
  intros Hs Hu.
  destruct (getPublishedStories_feed w category sortBy Hs Hu)
    as (all & Hrun & Hperm & Hrecent & Htrending).
  exists all. split; [unfold result; rewrite Hrun; reflexivity|].
  split; [exact Hperm|]. split; [exact Hrecent|]. split; [exact Htrending|].
  split; [apply firstn_length_bound|].
  intros s Hin Hpub Hcat.
  assert (Hall : In (feed_row (db w) s) all).
  { apply (Permutation_in _ (Permutation_sym Hperm)).
    apply in_map, filter_In. split; [exact Hin|]. unfold passes_where.
    destruct (filters_category category) as [c|].
    - unfold eq_category. apply String.eqb_eq, Hcat. reflexivity.
    - unfold eq_published_true. rewrite Hpub. reflexivity. }
  split; [exact Hall|]. split; [reflexivity|]. split.
  - intro Hnone. unfold feed_row. cbn [StoryRow.likeCount]. rewrite Hnone. reflexivity.
  - intro Hfew. rewrite firstn_all2; [exact Hall|].
    rewrite (Permutation_length Hperm), length_map. exact Hfew.
Qed.

Lemma getPublishedStories_outer_join_witness :
  exists all,
    result (getPublishedStories absent absent) busy_world = Ok (firstn 50 all)
    /\ StronglySorted trending_order all
    /\ In (feed_row busy_db dusk) (firstn 50 all)
    /\ StoryRow.likeCount (feed_row busy_db dusk) = 0%nat.
Proof.
  destruct (getPublishedStories_outer_join busy_world absent absent)
    as (all & Hr & _ & _ & Htrending & _ & Hrows); [solve_primary_key..|].
  exists all. split; [exact Hr|]. split; [apply Htrending; discriminate|].
  destruct (Hrows dusk) as (_ & _ & Hzero & Hin).
  - simpl. tauto.
  - reflexivity.
  - discriminate.
  - split; [apply Hin; simpl; lia|apply Hzero; reflexivity].
Defined.

(** C6 as stated fails: a call that carries no note (the route passes on
    the note of the request body, which may be undefined) leaves the note of
    the row as it was.  bob's bookmark of the tale has the note "first";
    createBookmark without a note returns it, and leaves it, with that
    note. *)
Lemma createBookmark_keeps_old_note :
  bookmarks_of (db sample_world) "bob" "s2"
  = [Bookmark.mk "b1" "bob" "s2" None 0 (Some "first") (Some 8)]
  /\ result (createBookmark (InsertBookmark.mk "bob" "s2" absent 0 absent)) sample_world
     = Ok (Some (Bookmark.mk "b1" "bob" "s2" None 0 (Some "first") (Some 10)))
  /\ bookmarks_of
       (db (after (createBookmark (InsertBookmark.mk "bob" "s2" absent 0 absent))
              sample_world))
       "bob" "s2"
     = [Bookmark.mk "b1" "bob" "s2" None 0 (Some "first") (Some 10)].
Proof. repeat split. Qed.

(** C6, amended.  createBookmark on a bookmarks table with its primary key.
    If a Bookmark row of (userId, storyId) exists, the call writes the
    current time as createdAt into the first such row, in place, and
    returns it under its old id; the note of the row becomes the note of
    the call when the call carries one (a string or null) and stays what it
    was when the call carries none; every other column and every other row
    is unchanged.  If no row of the pair exists, the call appends a new row
    when the position fits int4, the user, the story and the chapter
    referred to exist and the generated id is new; a position outside int4
    makes it throw and write nothing.  So when the table holds at most one
    row of the pair, two calls for the pair leave exactly one row of the
    pair, under the id the first call left it with; its note is the note
    of the second call when that call carries one, and the note the first
    call left otherwise. *)
Theorem createBookmark_upsert (w : World) (b : InsertBookmark.t) :
  primary_key Bookmark.id (bookmarks (db w)) ->
  (forall e rest,
      bookmarks_of (db w) (InsertBookmark.userId b) (InsertBookmark.storyId b)
      = e :: rest ->
      exists r,
        result (createBookmark b) w = Ok (Some r)
        /\ Bookmark.id r = Bookmark.id e
        /\ (forall note, InsertBookmark.note b = given note -> Bookmark.note r = note)
        /\ (InsertBookmark.note b = absent -> Bookmark.note r = Bookmark.note e)
        /\ Bookmark.createdAt r = Some (clock w)
        /\ Bookmark.userId r = Bookmark.userId e
        /\ Bookmark.storyId r = Bookmark.storyId e
        /\ Bookmark.chapterId r = Bookmark.chapterId e
        /\ Bookmark.position r = Bookmark.position e
        /\ Forall2
             (fun x x' =>
                (Bookmark.id x = Bookmark.id e /\ x' = r)
                \/ (Bookmark.id x <> Bookmark.id e /\ x' = x))
             (bookmarks (db w))
             (bookmarks (db (after (createBookmark b) w))))
  /\ (bookmarks_of (db w) (InsertBookmark.userId b) (InsertBookmark.storyId b) = [] ->
      (insert_accepted w b ->
       exists r,
         result (createBookmark b) w = Ok (Some r)
         /\ bookmarks (db (after (createBookmark b) w)) = (bookmarks (db w) ++ [r])%list
         /\ Bookmark.id r = uuids w (drawn w)
         /\ Bookmark.userId r = InsertBookmark.userId b
         /\ Bookmark.storyId r = InsertBookmark.storyId b
         /\ Bookmark.position r = InsertBookmark.position b
         /\ Bookmark.createdAt r = Some (clock w)
         /\ (forall note, InsertBookmark.note b = given note -> Bookmark.note r = note)
         /\ (InsertBookmark.note b = absent -> Bookmark.note r = None))
      /\ (int4 (InsertBookmark.position b) = false ->
          createBookmark b w = (Throw numeric_value_out_of_range, w)))
  /\ ((List.length
         (bookmarks_of (db w) (InsertBookmark.userId b) (InsertBookmark.storyId b))
       <= 1)%nat ->
      (bookmarks_of (db w) (InsertBookmark.userId b) (InsertBookmark.storyId b) = [] ->
       insert_accepted w b) ->
      forall b2 w1,
        InsertBookmark.userId b2 = InsertBookmark.userId b ->
        InsertBookmark.storyId b2 = InsertBookmark.storyId b ->
        db w1 = db (after (createBookmark b) w) ->
        exists r1 r2,
          bookmarks_of (db (after (createBookmark b) w))
            (InsertBookmark.userId b) (InsertBookmark.storyId b) = [r1]
          /\ bookmarks_of (db (after (createBookmark b2) w1))
               (InsertBookmark.userId b) (InsertBookmark.storyId b) = [r2]
          /\ Bookmark.id r2 = Bookmark.id r1
          /\ (forall note2,
                InsertBookmark.note b2 = given note2 -> Bookmark.note r2 = note2)
          /\ (InsertBookmark.note b2 = absent -> Bookmark.note r2 = Bookmark.note r1)).
Proof.
  intros Hpk. split; [|split].
  - intros e rest E.
    destruct (bookmarks_of_head _ _ _ e rest E) as (Hin & _ & _).
    unfold result, after. rewrite (createBookmark_existing w b e rest E).
    cbn [fst snd db with_db bookmarks with_bookmarks].
    unfold returning. rewrite (filter_id_primary_key Bookmark.id e _ Hpk Hin).
    cbn [map hd_error].
    eexists. split; [reflexivity|]. split; [reflexivity|].
    split; [intros note ->; reflexivity|]. split; [intros ->; reflexivity|].
    repeat (split; [reflexivity|]).
    eapply Forall2_weaken; [|apply Forall2_update_where_In, incl_refl].
    intros x x' [Hx [[Hc ->]|[Hc ->]]].
    + apply String.eqb_eq in Hc. left. split; [exact Hc|].
      rewrite (primary_key_inj Bookmark.id _ x e Hpk Hx Hin Hc). reflexivity.
    + apply String.eqb_neq in Hc. right. split; [exact Hc|reflexivity].
  - intros E. split.
    + intros (Hp & Hu & Hs & Hc & Hfresh).
      unfold result, after. rewrite (createBookmark_new w b E Hp Hu Hs Hc Hfresh).
      cbn [fst snd db bookmarks with_bookmarks].
      eexists. split; [reflexivity|]. repeat (split; [reflexivity|]).
      split; [intros note ->; reflexivity|intros ->; reflexivity].
    + intro Hp. exact (createBookmark_out_of_range w b E Hp).
  - intros Hone Hins b2 w1 Hu2 Hs2 Hw1.
    destruct (createBookmark_one_row w b Hone Hins) as [r1 [E1 _]].
    exists r1. rewrite <- Hw1 in E1. rewrite <- Hu2, <- Hs2 in E1 |- *.
    unfold after at 2. rewrite (createBookmark_existing w1 b2 r1 [] E1).
    cbn [snd db with_db]. rewrite bookmarks_of_update, E1. cbn [map].
    rewrite String.eqb_refl. rewrite Hw1 in E1. rewrite Hu2, Hs2 in E1.
    eexists. split; [rewrite Hu2, Hs2; exact E1|]. split; [reflexivity|].
    split; [reflexivity|]. split; [intros note2 ->; reflexivity|intros ->; reflexivity].
Qed.

Lemma sample_world_accepts (b : InsertBookmark.t) :
  int4 (InsertBookmark.position b) = true ->
  has_user (db sample_world) (InsertBookmark.userId b) = true ->
  has_story (db sample_world) (InsertBookmark.storyId b) = true ->
  references (has_chapter (db sample_world))
    (or_default (InsertBookmark.chapterId b) None) = true ->
  insert_accepted sample_world b.
Proof.
  intros Hp Hu Hs Hc.
  exact (conj Hp (conj Hu (conj Hs (conj Hc sample_world_fresh)))).
Qed.

Lemma createBookmark_upsert_witness :
  (exists r,
      result (createBookmark (bob_bookmarks "s2" "second")) sample_world = Ok (Some r)
      /\ Bookmark.id r = "b1"
      /\ Bookmark.note r = Some "second")
  /\ (exists r,
        bookmarks (db (after (createBookmark (bob_bookmarks "s1" "first")) sample_world))
        = (bookmarks (db sample_world) ++ [r])%list
        /\ Bookmark.note r = Some "first")
  /\ (exists r,
        bookmarks_of
          (db (after (createBookmark (bob_bookmarks "s1" "second"))
                 (after (createBookmark (bob_bookmarks "s1" "first")) sample_world)))
          "bob" "s1" = [r]
        /\ Bookmark.note r = Some "second").
Proof.
  assert (Hpk : primary_key Bookmark.id (bookmarks (db sample_world)))
    by solve_primary_key.
  assert (Hok : insert_accepted sample_world (bob_bookmarks "s1" "first"))
    by (apply sample_world_accepts; reflexivity).
  split; [|split].
  - destruct (createBookmark_upsert sample_world (bob_bookmarks "s2" "second") Hpk)
      as (Hupdate & _ & _).
    destruct (Hupdate _ _ eq_refl) as (r & Hr & Hid & Hnote & _).
    exists r. split; [exact Hr|]. split; [exact Hid|]. apply Hnote. reflexivity.
  - destruct (createBookmark_upsert sample_world (bob_bookmarks "s1" "first") Hpk)
      as (_ & Hinsert & _).
    destruct (proj1 (Hinsert eq_refl) Hok)
      as (r & _ & Hrows & _ & _ & _ & _ & _ & Hnote & _).
    exists r. split; [exact Hrows|]. apply Hnote. reflexivity.
  - destruct (createBookmark_upsert sample_world (bob_bookmarks "s1" "first") Hpk)
      as (_ & _ & Htwice).
    destruct (Htwice (Nat.le_0_l 1) (fun _ => Hok)
                (bob_bookmarks "s1" "second") _ eq_refl eq_refl eq_refl)
      as (r1 & r2 & _ & Hrows & _ & Hnote & _).
    exists r2. split; [exact Hrows|]. apply Hnote. reflexivity.
Defined.

(** C7 as stated fails: the sample store satisfies the publish invariant,
    and updateStory with the patch [{ published: true }] leaves the ode
    published with no publishedAt. *)
Lemma updateStory_breaks_publish_invariant :
  stories_invariant sample_world
  /\ ~ stories_invariant (after (updateStory "s1" patch_published) sample_world).
Proof.
  split; [exact sample_world_invariant|].
  intro H. unfold stories_invariant in H. cbn in H.
    inversion H as [|s l [Hiff _] _]; subst. cbn in Hiff.
    apply (proj2 Hiff); reflexivity.
Qed.

(** C7, amended.  From a state in which every story satisfies the publish
    invariant (publishedAt is non-null exactly when published is true, and
    is not before createdAt) and no story was created after the current
    time, the state after each of these calls satisfies both again:
    publishStory and enableChaptersOnStory, for every id; createStory, when
    the new story is not given published = true; updateStory, when the
    patch has no published property. *)
Theorem publish_invariant_preserved (w : World) :
  stories_invariant w ->
  clock_not_behind w ->
  (forall id,
      stories_invariant (after (publishStory id) w)
      /\ clock_not_behind (after (publishStory id) w))
  /\ (forall id,
      stories_invariant (after (enableChaptersOnStory id) w)
      /\ clock_not_behind (after (enableChaptersOnStory id) w))
  /\ (forall story,
      InsertStory.published story <> given (Some true) ->
      stories_invariant (after (createStory story) w)
      /\ clock_not_behind (after (createStory story) w))
  /\ (forall id updates,
      PartialInsertStory.published updates = absent ->
      stories_invariant (after (updateStory id updates) w)
      /\ clock_not_behind (after (updateStory id updates) w)).
Proof.
  intros Hinv Hclock. split; [|split; [|split]].
  - intro id. unfold after, publishStory.
    change (snd (bind now (fun t1 => bind now (fun t2 =>
              bind (update_stories id (set_published t1 t2))
                   (fun rows => ret (hd_error rows)))) w))
      with (snd (bind (update_stories id (set_published (clock w) (clock w)))
                      (fun rows => ret (hd_error rows)) w)).
    rewrite bind_after_ret.
    apply update_stories_invariant; try assumption; [|reflexivity].
    intros s _ Hc. split; cbn.
    + split; [reflexivity|discriminate].
    + intros p c [= <-]. apply Hc.
  - intro id. unfold after, enableChaptersOnStory.
    change (snd (bind now (fun t =>
              bind (update_stories id (set_hasChapters t))
                   (fun rows => ret (hd_error rows))) w))
      with (snd (bind (update_stories id (set_hasChapters (clock w)))
                      (fun rows => ret (hd_error rows)) w)).
    rewrite bind_after_ret.
    apply update_stories_invariant; try assumption; [|reflexivity].
    intros s Hs _. exact Hs.
  - intros story Hpub.
    unfold after, createStory, within_range.
    destruct (int4_nullable _); [|split; assumption].
    unfold bind, gen_random_uuid, now, read_db, constrained.
    cbn [fst snd db clock].
    destruct (has_story _ _); [split; assumption|].
    destruct (negb _); [split; assumption|].
    unfold stories_invariant, clock_not_behind in *.
    cbn [snd write_db ret with_db with_stories db stories clock throw].
    split; apply Forall_app; (split; [assumption|]); (constructor; [|constructor]).
    + split; cbn.
      * split; [intro H; exfalso; apply H; reflexivity|].
        intro H. exfalso. apply Hpub.
        destruct (InsertStory.published story); cbn in H; [discriminate|congruence].
      * discriminate.
    + cbn. intros c [= <-]. lia.
  - intros id updates Hpub. unfold after, updateStory, within_range.
    destruct (int4_field _); [|split; assumption].
    change (snd (bind now (fun t =>
              bind (update_stories id (set_updates updates t))
                   (fun rows => ret (hd_error rows))) w))
      with (snd (bind (update_stories id (set_updates updates (clock w)))
                      (fun rows => ret (hd_error rows)) w)).
    rewrite bind_after_ret.
    apply update_stories_invariant; try assumption; [|reflexivity].
    intros s Hs _. unfold publish_invariant, set_updates in *. cbn.
    rewrite Hpub. exact Hs.
Qed.

Lemma publish_invariant_preserved_witness :
  (stories_invariant (after (publishStory "s1") sample_world)
   /\ clock_not_behind (after (publishStory "s1") sample_world))
  /\ (stories_invariant (after (enableChaptersOnStory "s1") sample_world)
      /\ clock_not_behind (after (enableChaptersOnStory "s1") sample_world))
  /\ (stories_invariant (after (createStory bobs_story) sample_world)
      /\ clock_not_behind (after (createStory bobs_story) sample_world))
  /\ (stories_invariant (after (updateStory "s1" patch_title) sample_world)
      /\ clock_not_behind (after (updateStory "s1" patch_title) sample_world)).
Proof.
  destruct (publish_invariant_preserved sample_world sample_world_invariant
              sample_world_clock) as (Hpublish & Henable & Hcreate & Hupdate).
  split; [exact (Hpublish "s1")|].
  split; [exact (Henable "s1")|].
  split; [apply Hcreate; discriminate|].
  apply Hupdate. reflexivity.
Defined.

(** C8.  getStoryChapters(storyId) returns every chapter of the story,
    published or not, and nothing else, ordered ascending by chapter
    number, whatever order the rows of the chapters table are in. *)
Theorem getStoryChapters_all_ascending (w : World) (storyId : string) :
  exists cs,
    getStoryChapters storyId w = (Ok cs, w)
    /\ Permutation cs
         (filter (fun c => (Chapter.storyId c =? storyId)%string) (chapters (db w)))
    /\ (forall c, In c cs <-> In c (chapters (db w)) /\ Chapter.storyId c = storyId)
    /\ StronglySorted by_chapterNumber cs.
Proof.
  eexists. split; [reflexivity|]. split; [|split].
  - apply Permutation_sym, order_by_perm.
  - intro c. rewrite order_by_In. unfold select_where.
    rewrite filter_In, String.eqb_eq. reflexivity.
  - apply order_by_sorted_for.
    + intros a b. apply Z.leb_le.
    + intros a b. unfold by_chapterNumber. lia.
    + intros a b c. unfold by_chapterNumber. lia.
Qed.

(** C9 as stated fails: enabling chapters on the ode moves its updatedAt
    from 1 to the clock's 10. *)
Lemma enableChaptersOnStory_refreshes_updatedAt :
  map Story.updatedAt (stories (db sample_world)) = [Some 1; Some 5]
  /\ map Story.updatedAt
       (stories (db (after (enableChaptersOnStory "s1") sample_world)))
     = [Some 10; Some 5].
Proof. split; reflexivity. Qed.

(** C9, amended.  enableChaptersOnStory(id) returns, sets hasChapters to
    true and updatedAt to the current time on the story with that id, and
    changes no other field of it (id, title, content, excerpt, category,
    coverImageUrl, authorId, published, publishedAt, wordCount and
    createdAt are kept); every other story and every row of every other
    table is unchanged. *)
Theorem enableChaptersOnStory_frame (w : World) (id : string) :
  (exists r, result (enableChaptersOnStory id) w = Ok r)
  /\ Forall2
       (fun s s' =>
          (Story.id s = id
           /\ Story.hasChapters s' = Some true
           /\ Story.updatedAt s' = Some (clock w)
           /\ Story.id s' = Story.id s
           /\ Story.title s' = Story.title s
           /\ Story.content s' = Story.content s
           /\ Story.excerpt s' = Story.excerpt s
           /\ Story.category s' = Story.category s
           /\ Story.coverImageUrl s' = Story.coverImageUrl s
           /\ Story.authorId s' = Story.authorId s
           /\ Story.published s' = Story.published s
           /\ Story.publishedAt s' = Story.publishedAt s
           /\ Story.wordCount s' = Story.wordCount s
           /\ Story.createdAt s' = Story.createdAt s)
          \/ (Story.id s <> id /\ s' = s))
       (stories (db w))
       (stories (db (after (enableChaptersOnStory id) w)))
  /\ users (db (after (enableChaptersOnStory id) w)) = users (db w)
  /\ chapters (db (after (enableChaptersOnStory id) w)) = chapters (db w)
  /\ likes (db (after (enableChaptersOnStory id) w)) = likes (db w)
  /\ notifications (db (after (enableChaptersOnStory id) w)) = notifications (db w)
  /\ bookmarks (db (after (enableChaptersOnStory id) w)) = bookmarks (db w).
Proof.
  unfold result, after, enableChaptersOnStory, bind, now.
  rewrite update_stories_same_author by reflexivity.
  cbn [fst snd ret db with_db with_stories users stories chapters likes
       notifications bookmarks].
  split; [eexists; reflexivity|].
  split; [|repeat split].
  eapply Forall2_weaken; [|apply Forall2_update_where].
  intros s s' [[Hc ->]|[Hc ->]].
  - left. apply String.eqb_eq in Hc. repeat split. exact Hc.
  - right. apply String.eqb_neq in Hc. split; [exact Hc|reflexivity].
Qed.

(** C10.  getStoriesByAuthor(authorId) returns exactly the stories of that
    author whose published flag is true (the author's unpublished stories
    are left out), ordered by publish timestamp descending. *)
Theorem getStoriesByAuthor_published_only (w : World) (authorId : string) :
  exists ss,
    getStoriesByAuthor authorId w = (Ok ss, w)
    /\ (forall s, In s ss <->
                  In s (stories (db w))
                  /\ Story.authorId s = authorId
                  /\ Story.published s = Some true)
    /\ StronglySorted by_publishedAt_desc ss.
Proof.
  eexists. split; [reflexivity|]. split.
  - intro s. rewrite order_by_In. unfold select_where.
    rewrite filter_In, andb_true_iff, String.eqb_eq. unfold eq_published_true.
    destruct (Story.published s) as [[|]|]; intuition congruence.
  - apply order_by_sorted_for.
    + intros a b. apply compare_desc_descending.
    + intros a b. apply descending_total.
    + intros a b c. apply descending_trans.
Qed.

(** * Further properties of the store *)

(** ** Stories *)

Lemma has_story_false_select (d : Db) (id : string) :
  has_story d id = false ->
  select_where (fun s => (Story.id s =? id)%string) (stories d) = [].
Proof.
  unfold has_story, select_where. intro H. apply filter_none. intros x Hx.
  destruct (Story.id x =? id)%string eqn:E; [|reflexivity].
  exfalso. assert (Ht : existsb (fun s => (Story.id s =? id)%string) (stories d) = true)
    by (apply existsb_exists; exists x; auto).
  congruence.
Qed.

Ltac store_simpl :=
  cbn [fst snd db clock uuids drawn with_db with_stories with_chapters with_likes
       with_notifications with_bookmarks users stories chapters likes notifications
       bookmarks write_db ret throw negb andb orb].

Lemma createStory_run (w : World) (story : InsertStory.t) :
  int4_nullable (or_default (InsertStory.wordCount story) (Some 0)) = true ->
  has_user (db w) (InsertStory.authorId story) = true ->
  ~ In (uuids w (drawn w)) (map Story.id (stories (db w))) ->
  let r :=
    Story.mk (uuids w (drawn w))
      (InsertStory.title story) (InsertStory.content story)
      (or_default (InsertStory.excerpt story) None)
      (InsertStory.category story)
      (or_default (InsertStory.coverImageUrl story) None)
      (InsertStory.authorId story)
      (or_default (InsertStory.published story) (Some false))
      None
      (or_default (InsertStory.wordCount story) (Some 0))
      (or_default (InsertStory.hasChapters story) (Some false))
      (Some (clock w)) (Some (clock w)) in
  createStory story w
  = (Ok r,
     mkWorld (with_stories (db w) (stories (db w) ++ [r]))
       (clock w) (uuids w) (S (drawn w))).
Proof.
  intros Hw Hu Hid.
  assert (Hfree : has_story (db w) (uuids w (drawn w)) = false)
    by exact (existsb_id_unused Story.id _ _ Hid).
  cbv zeta.
  unfold createStory, within_range. rewrite Hw.
  unfold bind, gen_random_uuid, now, read_db, constrained.
  cbn [fst snd db clock uuids drawn]. rewrite Hfree, Hu. reflexivity.
Qed.

Lemma createStory_out_of_range (w : World) (story : InsertStory.t) :
  int4_nullable (or_default (InsertStory.wordCount story) (Some 0)) = false ->
  createStory story w = (Throw numeric_value_out_of_range, w).
Proof. intro Hw. unfold createStory, within_range. rewrite Hw. reflexivity. Qed.

(** X1.  createStory, for an author who is a user, with a fresh generated
    id and a word count that fits int4 (or none), returns the new row: it
    carries the generated id, no publishedAt, the current time as createdAt
    and updatedAt, the given author and word count, and published = false
    unless the data sets it.  The row is appended to the stories table, and
    getStory on its id finds it.  A word count outside int4 makes the call
    throw, and nothing is written. *)
Theorem createStory_then_getStory (w : World) (story : InsertStory.t) :
  has_user (db w) (InsertStory.authorId story) = true ->
  fresh_ids w ->
  (int4_nullable (or_default (InsertStory.wordCount story) (Some 0)) = true ->
   exists r,
     result (createStory story) w = Ok r
     /\ Story.id r = uuids w (drawn w)
     /\ Story.authorId r = InsertStory.authorId story
     /\ Story.wordCount r = or_default (InsertStory.wordCount story) (Some 0)
     /\ Story.publishedAt r = None
     /\ Story.createdAt r = Some (clock w)
     /\ Story.updatedAt r = Some (clock w)
     /\ (InsertStory.published story = absent -> Story.published r = Some false)
     /\ stories (db (after (createStory story) w)) = (stories (db w) ++ [r])%list
     /\ result (getStory (Story.id r)) (after (createStory story) w) = Ok (Some r))
  /\ (int4_nullable (or_default (InsertStory.wordCount story) (Some 0)) = false ->
      createStory story w = (Throw numeric_value_out_of_range, w)).
Proof.
  intros Hu Hfresh. split; [|apply createStory_out_of_range].
  intro Hw.
  destruct (Hfresh (drawn w) (Nat.le_refl _)) as (Hid & _).
  pose proof (createStory_run w story Hw Hu Hid) as Hrun. cbv zeta in Hrun.
  unfold result, after. rewrite Hrun. cbn [fst snd].
  eexists. split; [reflexivity|].
  repeat (split; [reflexivity|]).
  split; [intros ->; reflexivity|]. split; [reflexivity|].
  unfold getStory, bind, read_db, ret, select_where. store_simpl.
  rewrite filter_app. cbn [filter Story.id]. rewrite String.eqb_refl.
  rewrite filter_none; [reflexivity|].
  intros x Hx. apply String.eqb_neq. intro Heq. apply Hid. rewrite <- Heq.
  apply in_map, Hx.
Qed.

Lemma createStory_then_getStory_witness :
  (exists r,
      result (createStory bobs_story) sample_world = Ok r
      /\ Story.id r = "uuid-0"
      /\ result (getStory "uuid-0") (after (createStory bobs_story) sample_world)
         = Ok (Some r))
  /\ createStory
       (InsertStory.mk "Notes" "..." absent "story" absent "bob" absent
          (given (Some 2147483648)) absent)
       sample_world
     = (Throw numeric_value_out_of_range, sample_world).
Proof.
  split.
  - destruct (createStory_then_getStory sample_world bobs_story eq_refl
                sample_world_fresh) as [Hin _].
    destruct (Hin eq_refl) as (r & Hr & Hid & _ & _ & _ & _ & _ & _ & _ & Hget).
    exists r. split; [exact Hr|]. split; [exact Hid|].
    rewrite Hid in Hget. exact Hget.
  - refine (proj2 (createStory_then_getStory sample_world _ _ sample_world_fresh) _);
      reflexivity.
Defined.

(** X2.  createStory for an author who is no user throws, and the database
    is as it was: no story is written. *)
Theorem createStory_unknown_author (w : World) (story : InsertStory.t) :
  has_user (db w) (InsertStory.authorId story) = false ->
  (exists e, result (createStory story) w = Throw e)
  /\ db (after (createStory story) w) = db w.
Proof.
  intro Hu.
  unfold result, after, createStory, within_range.
  destruct (int4_nullable _); [|split; [eexists|]; reflexivity].
  unfold bind, gen_random_uuid, now, read_db, constrained.
  cbn [fst snd db clock uuids drawn]. rewrite Hu.
  destruct (has_story _ _); cbn; split; try reflexivity; eexists; reflexivity.
Qed.

Lemma createStory_unknown_author_witness :
  (exists e,
      result (createStory
                (InsertStory.mk "Ghost" "..." absent "story" absent "carol" absent
                   absent absent))
             sample_world = Throw e)
  /\ db (after (createStory
                  (InsertStory.mk "Ghost" "..." absent "story" absent "carol" absent
                     absent absent))
               sample_world) = db sample_world.
Proof. apply createStory_unknown_author. reflexivity. Defined.

(** X3.  For an id that no story has, updateStory, publishStory and
    enableChaptersOnStory return undefined (they do not throw) and leave
    the store as it was.  The one exception is a patch of updateStory with
    a wordCount outside int4: the statement fails on its parameter, so the
    call throws; the store is as it was then, too. *)
Theorem story_updates_of_missing_id (w : World) (id : string)
    (updates : PartialInsertStory.t) :
  has_story (db w) id = false ->
  (result (updateStory id updates) w
   = (if int4_field (PartialInsertStory.wordCount updates)
      then Ok None
      else Throw numeric_value_out_of_range)
   /\ db (after (updateStory id updates) w) = db w)
  /\ (result (publishStory id) w = Ok None
      /\ db (after (publishStory id) w) = db w)
  /\ (result (enableChaptersOnStory id) w = Ok None
      /\ db (after (enableChaptersOnStory id) w) = db w).
Proof.
  intro H. pose proof (has_story_false_select _ _ H) as Hsel.
  assert (Hupd : forall set,
             update_stories id set w = (Ok [], w)).
  { intro set. unfold update_stories, bind, read_db. rewrite Hsel. cbn [forallb].
    unfold write_db, ret, returning, update_where. unfold select_where in Hsel.
    rewrite Hsel. cbn [map].
    assert (Hsame : map (fun r => if (Story.id r =? id)%string then set r else r)
                      (stories (db w)) = stories (db w)).
    { rewrite <- (map_id (stories (db w))) at 2. apply map_ext_in. intros x Hx.
      replace (Story.id x =? id)%string with false; [reflexivity|].
      symmetry. destruct (Story.id x =? id)%string eqn:E; [|reflexivity].
      assert (Hin : In x (filter (fun s => (Story.id s =? id)%string) (stories (db w))))
        by (apply filter_In; auto).
      rewrite Hsel in Hin. destruct Hin. }
    rewrite Hsame. destruct w as [d c u n]. destruct d. reflexivity. }
  unfold result, after, updateStory, publishStory, enableChaptersOnStory, within_range.
  destruct (int4_field _); unfold bind, now; rewrite ?Hupd; cbn; repeat split.
Qed.

Lemma story_updates_of_missing_id_witness :
  result (publishStory "s9") sample_world = Ok None
  /\ db (after (publishStory "s9") sample_world) = db sample_world.
Proof.
  exact (proj1 (proj2 (story_updates_of_missing_id sample_world "s9" patch_title
                         eq_refl))).
Defined.

(** X4.  publishStory on a story of the table (stories having their
    primary key) returns the row with published = true and the current
    time as publishedAt and updatedAt, its other columns kept; from then on
    getStoriesByAuthor of its author lists it. *)
Theorem publishStory_lists_story (w : World) (st : Story.t) :
  primary_key Story.id (stories (db w)) ->
  In st (stories (db w)) ->
  exists st',
    result (publishStory (Story.id st)) w = Ok (Some st')
    /\ Story.published st' = Some true
    /\ Story.publishedAt st' = Some (clock w)
    /\ Story.updatedAt st' = Some (clock w)
    /\ Story.id st' = Story.id st
    /\ Story.title st' = Story.title st
    /\ Story.content st' = Story.content st
    /\ Story.category st' = Story.category st
    /\ Story.authorId st' = Story.authorId st
    /\ Story.hasChapters st' = Story.hasChapters st
    /\ Story.createdAt st' = Story.createdAt st
    /\ exists ss,
        result (getStoriesByAuthor (Story.authorId st))
               (after (publishStory (Story.id st)) w) = Ok ss
        /\ In st' ss.
Proof.
  intros Hpk Hin.
  unfold result, after, publishStory, bind, now.
  rewrite update_stories_same_author by reflexivity.
  cbn [fst snd ret]. unfold returning.
  rewrite (filter_id_primary_key Story.id st _ Hpk Hin). cbn [map hd_error].
  eexists. split; [reflexivity|]. repeat (split; [reflexivity|]).
  eexists. split; [reflexivity|].
  apply order_by_In. unfold select_where. apply filter_In. split.
  - store_simpl. unfold update_where.
    apply in_map_iff. exists st. rewrite String.eqb_refl. auto.
  - cbn. rewrite String.eqb_refl. reflexivity.
Qed.

Lemma publishStory_lists_story_witness :
  exists st',
    result (publishStory "s1") sample_world = Ok (Some st')
    /\ exists ss,
        result (getStoriesByAuthor "alice") (after (publishStory "s1") sample_world)
        = Ok ss
        /\ In st' ss.
Proof.
  assert (Hpk : primary_key Story.id (stories (db sample_world))) by solve_primary_key.
  destruct (publishStory_lists_story sample_world ode Hpk (or_introl eq_refl))
    as (st' & Hr & _ & _ & _ & _ & _ & _ & _ & _ & _ & _ & Hlist).
  exists st'. split; [exact Hr|exact Hlist].
Defined.

Lemma update_stories_db (id : string) (set : Story.t -> Story.t) (w : World) :
  (exists rows,
      update_stories id set w
      = (Ok rows,
         with_db w
           (with_stories (db w)
              (update_where (fun s => (Story.id s =? id)%string) set (stories (db w))))))
  \/ update_stories id set w = (Throw foreign_key_violation, w).
Proof.
  unfold update_stories, bind, read_db.
  destruct (forallb _ _); [left; eexists; reflexivity|right; reflexivity].
Qed.

Lemma Forall2_same {R : Type} (P : R -> R -> Prop) (l : list R) :
  (forall x, P x x) -> Forall2 P l l.
Proof. intro H. induction l; constructor; auto. Qed.

(** X5.  updateStory, whatever the patch and whether it returns or throws,
    keeps the number and order of the stories, never changes the id, the
    publishedAt or the createdAt of a story, changes no story but the one
    with the given id, and writes no other table. *)
Theorem updateStory_frame (w : World) (id : string) (updates : PartialInsertStory.t) :
  Forall2
    (fun s s' =>
       Story.id s' = Story.id s
       /\ Story.publishedAt s' = Story.publishedAt s
       /\ Story.createdAt s' = Story.createdAt s
       /\ (Story.id s <> id -> s' = s))
    (stories (db w))
    (stories (db (after (updateStory id updates) w)))
  /\ users (db (after (updateStory id updates) w)) = users (db w)
  /\ chapters (db (after (updateStory id updates) w)) = chapters (db w)
  /\ likes (db (after (updateStory id updates) w)) = likes (db w)
  /\ notifications (db (after (updateStory id updates) w)) = notifications (db w)
  /\ bookmarks (db (after (updateStory id updates) w)) = bookmarks (db w).
Proof.
  unfold after, updateStory, within_range.
  destruct (int4_field _);
    [|split; [apply Forall2_same; intro s|]; repeat split].
  change (snd (bind now (fun t =>
            bind (update_stories id (set_updates updates t))
                 (fun rows => ret (hd_error rows))) w))
    with (snd (bind (update_stories id (set_updates updates (clock w)))
                    (fun rows => ret (hd_error rows)) w)).
  rewrite bind_after_ret.
  destruct (update_stories_db id (set_updates updates (clock w)) w) as [[rows ->]| ->].
  - store_simpl. split; [|repeat split].
    eapply Forall2_weaken; [|apply Forall2_update_where].
    intros s s' [[Hc ->]|[Hc ->]].
    + repeat split. intro Hne. apply String.eqb_eq in Hc. contradiction.
    + repeat split.
  - cbn [snd]. split; [|repeat split].
    apply Forall2_same. intro s. repeat split.
Qed.

(** X6.  updateStory that hands a story to an author who is no user
    throws a foreign-key fault and writes nothing.  (The fault is the
    range fault instead when the patch also carries a wordCount outside
    int4; nothing is written then either.) *)
Theorem updateStory_unknown_author (w : World) (st : Story.t) (a : string)
    (updates : PartialInsertStory.t) :
  In st (stories (db w)) ->
  PartialInsertStory.authorId updates = given a ->
  a <> Story.authorId st ->
  has_user (db w) a = false ->
  updateStory (Story.id st) updates w
  = (Throw (if int4_field (PartialInsertStory.wordCount updates)
            then foreign_key_violation
            else numeric_value_out_of_range),
     w).
Proof.
  intros Hin Ha Hne Hu.
  unfold updateStory, within_range.
  destruct (int4_field _); [|reflexivity].
  unfold bind at 1, now.
  unfold update_stories, bind, read_db.
  replace (forallb _ _) with false; [reflexivity|].
  symmetry. apply not_true_is_false. intro Hall.
  rewrite forallb_forall in Hall.
  specialize (Hall st). unfold select_where in Hall.
  rewrite filter_In, String.eqb_refl in Hall. specialize (Hall (conj Hin eq_refl)).
  cbn [set_updates Story.authorId] in Hall. rewrite Ha in Hall. cbn [assign] in Hall.
  rewrite Hu, orb_false_r in Hall. apply String.eqb_eq in Hall. contradiction.
Qed.

Lemma updateStory_unknown_author_witness :
  updateStory "s1"
    (PartialInsertStory.mk absent absent absent absent absent (given "carol")
       absent absent absent)
    sample_world
  = (Throw foreign_key_violation, sample_world).
Proof.
  apply (updateStory_unknown_author sample_world ode "carol").
  - left. reflexivity.
  - reflexivity.
  - discriminate.
  - reflexivity.
Defined.

(** ** Likes *)

Lemma insert_likes_cases (w : World) (u s : string) :
  (exists e, insert_likes u s w = (Throw e, bump w))
  \/ (has_user (db w) u = true
      /\ has_story (db w) s = true
      /\ insert_likes u s w
         = (Ok (Like.mk (uuids w (drawn w)) u s (Some (clock w))),
            with_db (bump w)
              (with_likes (db w)
                 (likes (db w)
                  ++ [Like.mk (uuids w (drawn w)) u s (Some (clock w))])))).
Proof.
  unfold insert_likes, bind, gen_random_uuid, now, read_db, constrained.
  cbn [fst snd db clock uuids drawn].
  destruct (existsb _ (likes (db w))); [left; eexists; reflexivity|].
  destruct (has_user (db w) u); cbn [andb negb]; [|left; eexists; reflexivity].
  destruct (has_story (db w) s); cbn [andb negb]; [|left; eexists; reflexivity].
  right. repeat split.
Qed.

Lemma createNotification_cases (w : World) (u type : string) (s : option string) :
  (exists e, createNotification u type s w = (Throw e, bump w))
  \/ (exists n,
        createNotification u type s w
        = (Ok n,
           with_db (bump w)
             (with_notifications (db w) (notifications (db w) ++ [n])))).
Proof.
  unfold createNotification, bind, gen_random_uuid, now, read_db, constrained.
  cbn [fst snd db clock uuids drawn].
  destruct (existsb _ (notifications (db w))); [left; eexists; reflexivity|].
  destruct (negb _); [left; eexists; reflexivity|].
  right. eexists. reflexivity.
Qed.

(** What toggleLike can have done to the database, and what it then
    returned. *)
Lemma toggleLike_cases (w : World) (u s : string) :
  (likes_story (db w) u s
   /\ (exists n, result (toggleLike u s) w = Ok (mkToggleResult false n))
   /\ db (after (toggleLike u s) w)
      = with_likes (db w) (delete_where (like_of u s) (likes (db w))))
  \/ (~ likes_story (db w) u s
      /\ (exists e, result (toggleLike u s) w = Throw e)
      /\ db (after (toggleLike u s) w) = db w)
  \/ (~ likes_story (db w) u s
      /\ has_user (db w) u = true
      /\ has_story (db w) s = true
      /\ (forall r, result (toggleLike u s) w = Ok r -> liked r = true)
      /\ exists l ns,
          Like.userId l = u /\ Like.storyId l = s
          /\ db (after (toggleLike u s) w)
             = mkDb (users (db w)) (stories (db w)) (chapters (db w))
                 (likes (db w) ++ [l]) ns (bookmarks (db w))).
Proof.
  destruct (likes_story_dec (db w) u s) as [Hl|Hl].
  - left. split; [exact Hl|]. unfold result, after.
    rewrite (toggleLike_unlike w u s Hl). cbn [fst snd db with_db].
    split; [eexists; reflexivity|reflexivity].
  - right. pose proof (not_likes_story_select _ _ _ Hl) as Hsel.
    unfold result, after, toggleLike.
    rewrite (bind_run _ _ w w (db w)) by reflexivity.
    rewrite Hsel. cbn [firstn List.length Nat.ltb Nat.leb].
    destruct (insert_likes_cases w u s) as [[e He]|(Hu & Hs & Hins)].
    { left. split; [exact Hl|]. rewrite (bind_throw _ _ _ _ _ He). cbn [fst snd].
      split; [eexists; reflexivity|reflexivity]. }
    right. split; [exact Hl|]. split; [exact Hu|]. split; [exact Hs|].
    rewrite (bind_run _ _ _ _ _ Hins).
    set (w1 := with_db (bump w) _).
    rewrite (bind_run _ _ w1 w1 (hd_error (select_where
               (fun x => (Story.id x =? s)%string) (stories (db w1))))) by reflexivity.
    destruct (hd_error _) as [st|].
    + destruct (negb (Story.authorId st =? u)%string).
      * destruct (createNotification_cases w1 (Story.authorId st) "like" (Some s))
          as [[e He]|[n Hn]].
        -- rewrite (bind_throw _ _ w1 (bump w1) e)
             by (rewrite (bind_throw _ _ _ _ _ He); reflexivity).
           cbn [fst snd]. split; [intros r Hr; discriminate Hr|].
           exists (Like.mk (uuids w (drawn w)) u s (Some (clock w))). eexists.
           split; [reflexivity|]. split; reflexivity.
        -- rewrite (bind_run _ _ w1 _ tt)
             by (rewrite (bind_run _ _ _ _ _ Hn); reflexivity).
           cbn [fst snd]. split; [intros r Hr; apply Ok_inj in Hr; subst r; reflexivity|].
           exists (Like.mk (uuids w (drawn w)) u s (Some (clock w))). eexists.
           split; [reflexivity|]. split; reflexivity.
      * rewrite (bind_run _ _ w1 w1 tt) by reflexivity.
        cbn [fst snd]. split; [intros r Hr; apply Ok_inj in Hr; subst r; reflexivity|].
        exists (Like.mk (uuids w (drawn w)) u s (Some (clock w))). eexists.
           split; [reflexivity|]. split; reflexivity.
    + rewrite (bind_run _ _ w1 w1 tt) by reflexivity.
      cbn [fst snd]. split; [intros r Hr; apply Ok_inj in Hr; subst r; reflexivity|].
      exists (Like.mk (uuids w (drawn w)) u s (Some (clock w))). eexists.
           split; [reflexivity|]. split; reflexivity.
Qed.

Lemma filter_filter_length {R : Type} (p q : R -> bool) (l : list R) :
  (List.length (filter p (filter q l)) <= List.length (filter p l))%nat.
Proof.
  induction l as [|x l IH]; simpl; [lia|].
  destruct (q x) eqn:Eq, (p x) eqn:Ep; simpl; rewrite ?Ep; simpl; lia.
Qed.

(** X7.  toggleLike keeps the likes table at one like per user and story,
    whether it likes, unlikes or throws. *)
Theorem toggleLike_keeps_unique (w : World) (u s : string) :
  likes_unique (db w) -> likes_unique (db (after (toggleLike u s) w)).
Proof.
  intros Huniq u' s'.
  destruct (toggleLike_cases w u s)
    as [(_ & _ & ->)|[(_ & _ & ->)|(Hl & _ & _ & _ & l & ns & Hlu & Hls & ->)]].
  - cbn [likes with_likes]. unfold delete_where.
    pose proof (filter_filter_length (like_of u' s')
                  (fun r => negb (like_of u s r)) (likes (db w))).
    specialize (Huniq u' s'). lia.
  - apply Huniq.
  - cbn [likes]. rewrite filter_app, length_app. cbn [filter].
    destruct (like_of u' s' l) eqn:E; cbn [List.length].
    + apply like_of_spec in E. destruct E as [Eu Es].
      rewrite Hlu in Eu. rewrite Hls in Es. subst u' s'.
      pose proof (not_likes_story_select _ _ _ Hl) as Hsel.
      unfold select_where in Hsel. rewrite Hsel. simpl. lia.
    + specialize (Huniq u' s'). lia.
Qed.

Lemma sample_world_likes_unique : likes_unique (db sample_world).
Proof. intros u s. apply (filter_length_bound (like_of u s) (likes (db sample_world))). Qed.

Lemma toggleLike_keeps_unique_witness :
  likes_unique (db (after (toggleLike "bob" "s1") sample_world)).
Proof. apply toggleLike_keeps_unique. exact sample_world_likes_unique. Defined.

(** X8.  toggleLike(u, s) touches the likes of u on s and the
    notifications, nothing else: it writes neither users, stories, chapters
    nor bookmarks; the likes of every other story, so its like count, are
    the same rows as before; and what any other user likes is unchanged. *)
Theorem toggleLike_frame (w : World) (u s : string) :
  users (db (after (toggleLike u s) w)) = users (db w)
  /\ stories (db (after (toggleLike u s) w)) = stories (db w)
  /\ chapters (db (after (toggleLike u s) w)) = chapters (db w)
  /\ bookmarks (db (after (toggleLike u s) w)) = bookmarks (db w)
  /\ (forall s', s' <> s ->
        likes_of (db (after (toggleLike u s) w)) s' = likes_of (db w) s')
  /\ (forall u' s', u' <> u ->
        (likes_story (db (after (toggleLike u s) w)) u' s'
         <-> likes_story (db w) u' s')).
Proof.
  destruct (toggleLike_cases w u s)
    as [(_ & _ & ->)|[(_ & _ & ->)|(Hl & _ & _ & _ & l & ns & Hlu & Hls & ->)]].
  - cbn [users stories chapters bookmarks with_likes].
    repeat (split; [reflexivity|]). split.
    + intros s' Hs'. unfold likes_of, delete_where. cbn [likes with_likes].
      induction (likes (db w)) as [|x xs IH]; [reflexivity|]. cbn [filter].
      destruct (like_of u s x) eqn:E; cbn [negb filter].
      * apply like_of_spec in E. destruct E as [_ Es].
        replace (Like.storyId x =? s')%string with false; [exact IH|].
        symmetry. apply String.eqb_neq. congruence.
      * destruct (Like.storyId x =? s')%string; [f_equal|]; exact IH.
    + intros u' s' Hu'. unfold likes_story. cbn [likes with_likes].
      split; intros (x & Hx & Hxu & Hxs); exists x.
      * apply delete_where_In in Hx. tauto.
      * split; [|tauto]. apply delete_where_In. split; [exact Hx|].
        apply not_true_is_false. intro E. apply like_of_spec in E.
        destruct E as [Eu _]. congruence.
  - do 5 (split; [reflexivity|]). intros. tauto.
  - cbn [users stories chapters bookmarks].
    repeat (split; [reflexivity|]). split.
    + intros s' Hs'. unfold likes_of. cbn [likes]. rewrite filter_app. cbn [filter].
      replace (Like.storyId l =? s')%string with false; [apply app_nil_r|].
      symmetry. apply String.eqb_neq. congruence.
    + intros u' s' Hu'. unfold likes_story. cbn [likes].
      split; intros (x & Hx & Hxu & Hxs); exists x.
      * apply in_app_or in Hx. destruct Hx as [Hx|[<-|[]]]; [tauto|congruence].
      * split; [apply in_or_app; left; exact Hx|tauto].
Qed.

(** X9.  toggleLike for a user or a story that does not exist (and no
    like row of the pair) throws, and the database is as it was: no like
    and no notification is written. *)
Theorem toggleLike_missing_user_or_story (w : World) (u s : string) :
  ~ likes_story (db w) u s ->
  has_user (db w) u = false \/ has_story (db w) s = false ->
  (exists e, result (toggleLike u s) w = Throw e)
  /\ db (after (toggleLike u s) w) = db w.
Proof.
  intros Hl Hmissing.
  destruct (toggleLike_cases w u s)
    as [(Hl' & _)|[(_ & He & Hdb)|(_ & Hu & Hs & _)]].
  - contradiction.
  - split; assumption.
  - destruct Hmissing; congruence.
Qed.

Lemma toggleLike_missing_user_or_story_witness :
  (exists e, result (toggleLike "bob" "s9") sample_world = Throw e)
  /\ db (after (toggleLike "bob" "s9") sample_world) = db sample_world.
Proof.
  apply toggleLike_missing_user_or_story.
  - intros [l [Hin [_ Hs]]]. simpl in Hin. destruct Hin as [<-|[]]. discriminate Hs.
  - right. reflexivity.
Defined.

(** X10.  The liked flag toggleLike returns agrees with getUserLikes right
    after it: the story is among the user's liked story ids exactly when
    the call returned liked = true. *)
Theorem toggleLike_agrees_with_getUserLikes (w : World) (u s : string)
    (r : ToggleResult) :
  result (toggleLike u s) w = Ok r ->
  exists ids,
    result (getUserLikes u) (after (toggleLike u s) w) = Ok ids
    /\ (liked r = true <-> In s ids).
Proof.
  intro Hr. eexists. split; [reflexivity|].
  destruct (toggleLike_cases w u s)
    as [(_ & [n Hn] & Hdb)|[(_ & [e He] & _)|(_ & _ & _ & Hliked & l & ns & Hlu & Hls & Hdb)]].
  - rewrite Hn in Hr. apply Ok_inj in Hr. subst r. cbn [liked].
    rewrite Hdb. cbn [likes with_likes]. unfold select_where.
    split; [discriminate|]. intro Hin. exfalso.
    apply in_map_iff in Hin. destruct Hin as (x & Hxs & Hx).
    apply filter_In in Hx. destruct Hx as [Hx Hxu].
    apply delete_where_In in Hx. destruct Hx as [_ Hx].
    apply String.eqb_eq in Hxu.
    assert (like_of u s x = true) by (apply like_of_spec; auto). congruence.
  - congruence.
  - rewrite (Hliked r Hr). rewrite Hdb. cbn [likes]. unfold select_where.
    split; [intros _|reflexivity].
    apply in_map_iff. exists l. split; [exact Hls|].
    apply filter_In. split; [apply in_or_app; right; left; reflexivity|].
    apply String.eqb_eq, Hlu.
Qed.

Lemma toggleLike_agrees_with_getUserLikes_witness :
  exists ids,
    result (getUserLikes "bob") (after (toggleLike "bob" "s1") sample_world) = Ok ids
    /\ In "s1" ids.
Proof.
  destruct (toggleLike_agrees_with_getUserLikes sample_world "bob" "s1"
              (mkToggleResult true 1) eq_refl) as (ids & Hids & Hiff).
  exists ids. split; [exact Hids|]. apply Hiff. reflexivity.
Defined.

Lemma inArray_getUserLikes (d : Db) (u i : string) :
  inArray i
    (map Like.storyId
       (select_where (fun l => (Like.userId l =? u)%string) (likes d))) = true
  <-> likes_story d u i.
Proof.
  unfold inArray, likes_story, select_where. rewrite existsb_exists. split.
  - intros (v & Hv & Hiv). apply String.eqb_eq in Hiv. subst v.
    apply in_map_iff in Hv. destruct Hv as (l & Hls & Hl).
    apply filter_In in Hl. destruct Hl as [Hl Hlu]. apply String.eqb_eq in Hlu.
    exists l. auto.
  - intros (l & Hl & Hlu & Hls). exists i. split; [|apply String.eqb_refl].
    apply in_map_iff. exists l. split; [exact Hls|].
    apply filter_In. split; [exact Hl|]. apply String.eqb_eq, Hlu.
Qed.

(** X11.  getUserLikedStories(u) returns only published stories that u
    likes, ordered by publish timestamp descending, and reads without
    writing; a user who likes nothing gets the empty list.  Under the
    primary keys of stories and users it returns every published story u
    likes, with its author and its full like count: this query has no row
    limit. *)
Theorem getUserLikedStories_published_and_liked (w : World) (u : string) :
  exists rows,
    getUserLikedStories u w = (Ok rows, w)
    /\ (forall r,
          In r rows ->
          StoryRow.published r = Some true
          /\ likes_story (db w) u (StoryRow.id r))
    /\ StronglySorted recent_order rows
    /\ ((forall s, ~ likes_story (db w) u s) -> rows = [])
    /\ (primary_key Story.id (stories (db w)) ->
        primary_key User.id (users (db w)) ->
        forall st,
          In st (stories (db w)) ->
          Story.published st = Some true ->
          likes_story (db w) u (Story.id st) ->
          In (feed_row (db w) st) rows).
Proof.
  unfold getUserLikedStories.
  rewrite (bind_run _ _ w w
             (map Like.storyId
                (select_where (fun l => (Like.userId l =? u)%string) (likes (db w)))))
    by reflexivity.
  set (ids := map Like.storyId _).
  assert (Hids : forall i, inArray i ids = true <-> likes_story (db w) u i)
    by (intro i; apply inArray_getUserLikes).
  destruct (List.length ids =? 0)%nat eqn:Hlen.
  - apply Nat.eqb_eq in Hlen. apply length_zero_iff_nil in Hlen.
    exists []. split; [reflexivity|]. split; [intros r []|].
    split; [constructor|]. split; [reflexivity|].
    intros _ _ st _ _ Hl. apply Hids in Hl. rewrite Hlen in Hl. discriminate Hl.
  - eexists. split; [reflexivity|]. split; [|split; [|split]].
    + intros r Hr. cbn [config_limit orderBy where_ baseQuery config_orderBy] in Hr.
      apply order_by_In in Hr.
      apply (grouped_where _ _
               (fun s => inArray (Story.id s) ids && eq_published_true s)) in Hr;
        [|reflexivity].
      destruct Hr as (st & _ & Hc & Hid & Hpub & _).
      apply andb_true_iff in Hc. destruct Hc as [Hin Hp].
      rewrite Hid, Hpub. split; [|apply Hids, Hin].
      unfold eq_published_true in Hp.
      destruct (Story.published st) as [[|]|]; [reflexivity|discriminate|discriminate].
    + cbn [config_limit orderBy where_ baseQuery config_orderBy].
      apply order_by_sorted_for;
        [apply recent_compare|apply recent_order_total|apply recent_order_trans].
    + intro Hnone. exfalso. destruct ids as [|i ids'] eqn:E; [discriminate Hlen|].
      apply (Hnone i), Hids. cbn. rewrite String.eqb_refl. reflexivity.
    + intros Hs Hu st Hin Hpub Hl.
      cbn [config_limit orderBy where_ baseQuery config_orderBy].
      apply order_by_In. rewrite (grouped_feed _ _ Hs Hu). cbn [config_where].
      apply in_map, filter_In. split; [exact Hin|].
      apply andb_true_iff. split; [apply Hids, Hl|].
      unfold eq_published_true. rewrite Hpub. reflexivity.
Qed.

Lemma getUserLikedStories_published_and_liked_witness :
  exists rows,
    getUserLikedStories "bob" sample_world = (Ok rows, sample_world)
    /\ In (feed_row sample_db tale) rows.
Proof.
  assert (Hs : primary_key Story.id (stories (db sample_world))) by solve_primary_key.
  assert (Hu : primary_key User.id (users (db sample_world))) by solve_primary_key.
  destruct (getUserLikedStories_published_and_liked sample_world "bob")
    as (rows & Hr & _ & _ & _ & Hall).
  exists rows. split; [exact Hr|].
  apply (Hall Hs Hu tale).
  - right. left. reflexivity.
  - reflexivity.
  - eexists. split; [left; reflexivity|]. split; reflexivity.
Defined.

(** ** Witnesses of the feed filters and of the bookmark upsert *)

Lemma getPublishedStories_without_category_witness :
  StoryRow.published (feed_row sample_db tale) = Some true.
Proof.
  apply (getPublishedStories_without_category sample_world (given "all") absent
           [feed_row sample_db tale]).
  - reflexivity.
  - reflexivity.
  - left. reflexivity.
Defined.

Lemma getPublishedStories_with_category_witness :
  StoryRow.category (feed_row sample_db ode) = "poem".
Proof.
  apply (getPublishedStories_with_category sample_world (given "poem") absent "poem"
           [feed_row sample_db ode]).
  - reflexivity.
  - reflexivity.
  - left. reflexivity.
Defined.

Lemma sample_world_bookmarks_unique : bookmarks_unique (db sample_world).
Proof.
  intros u s. apply (filter_length_bound (bookmark_of u s) (bookmarks (db sample_world))).
Qed.

Lemma createBookmark_keeps_unique_witness :
  bookmarks_unique
    (db (after (createBookmark (bob_bookmarks "s1" "later")) sample_world)).
Proof. apply createBookmark_keeps_unique. exact sample_world_bookmarks_unique. Defined.

Lemma createBookmark_without_note_witness :
  bookmarks_of
    (db (after (createBookmark (InsertBookmark.mk "bob" "s2" absent 0 absent))
           sample_world))
    "bob" "s2"
  = [Bookmark.mk "b1" "bob" "s2" None 0 (Some "first") (Some 10)].
Proof.
  apply (createBookmark_without_note sample_world
           (InsertBookmark.mk "bob" "s2" absent 0 absent)
           (Bookmark.mk "b1" "bob" "s2" None 0 (Some "first") (Some 8))).
  - reflexivity.
  - reflexivity.
Defined.

(** ** Chapters *)

Lemma createChapter_run (w : World) (chapter : InsertChapter.t) :
  int4 (InsertChapter.chapterNumber chapter)
  && int4_nullable (or_default (InsertChapter.wordCount chapter) (Some 0)) = true ->
  has_story (db w) (InsertChapter.storyId chapter) = true ->
  ~ In (uuids w (drawn w)) (map Chapter.id (chapters (db w))) ->
  let c :=
    Chapter.mk (uuids w (drawn w))
      (InsertChapter.storyId chapter) (InsertChapter.title chapter)
      (InsertChapter.content chapter) (InsertChapter.chapterNumber chapter)
      (or_default (InsertChapter.published chapter) (Some false))
      None
      (or_default (InsertChapter.wordCount chapter) (Some 0))
      (Some (clock w)) (Some (clock w)) in
  createChapter chapter w
  = (Ok c,
     mkWorld (with_chapters (db w) (chapters (db w) ++ [c]))
       (clock w) (uuids w) (S (drawn w))).
Proof.
  intros Hn Hs Hid.
  assert (Hfree : has_chapter (db w) (uuids w (drawn w)) = false)
    by exact (existsb_id_unused Chapter.id _ _ Hid).
  cbv zeta.
  unfold createChapter, within_range. rewrite Hn.
  unfold bind, gen_random_uuid, now, read_db, constrained.
  cbn [fst snd db clock uuids drawn]. rewrite Hfree, Hs. reflexivity.
Qed.

Lemma createChapter_out_of_range (w : World) (chapter : InsertChapter.t) :
  int4 (InsertChapter.chapterNumber chapter)
  && int4_nullable (or_default (InsertChapter.wordCount chapter) (Some 0)) = false ->
  createChapter chapter w = (Throw numeric_value_out_of_range, w).
Proof. intro Hn. unfold createChapter, within_range. rewrite Hn. reflexivity. Qed.

(** X18.  createChapter under an existing story, with a fresh generated
    id and a chapter number and word count that fit int4, returns the new
    chapter, unpublished unless the data says otherwise and with no
    publishedAt; a chapter number the story already uses is accepted.
    getChapter on its id finds it, getStoryChapters of the story lists it
    among one more chapter than before, and the stories table is not
    written: the call does not set hasChapters.  A chapter number or word
    count outside int4 makes the call throw, and nothing is written. *)
Theorem createChapter_then_listed (w : World) (chapter : InsertChapter.t) :
  has_story (db w) (InsertChapter.storyId chapter) = true ->
  fresh_ids w ->
  (int4 (InsertChapter.chapterNumber chapter) = true ->
   int4_nullable (or_default (InsertChapter.wordCount chapter) (Some 0)) = true ->
   exists c,
     result (createChapter chapter) w = Ok c
     /\ Chapter.id c = uuids w (drawn w)
     /\ Chapter.storyId c = InsertChapter.storyId chapter
     /\ Chapter.chapterNumber c = InsertChapter.chapterNumber chapter
     /\ Chapter.publishedAt c = None
     /\ (InsertChapter.published chapter = absent -> Chapter.published c = Some false)
     /\ result (getChapter (Chapter.id c)) (after (createChapter chapter) w) = Ok (Some c)
     /\ stories (db (after (createChapter chapter) w)) = stories (db w)
     /\ exists before listed,
         result (getStoryChapters (InsertChapter.storyId chapter)) w = Ok before
         /\ result (getStoryChapters (InsertChapter.storyId chapter))
                   (after (createChapter chapter) w) = Ok listed
         /\ In c listed
         /\ List.length listed = S (List.length before))
  /\ (int4 (InsertChapter.chapterNumber chapter) = false
      \/ int4_nullable (or_default (InsertChapter.wordCount chapter) (Some 0)) = false ->
      createChapter chapter w = (Throw numeric_value_out_of_range, w)).
Proof.
  intros Hs Hfresh. split.
  2:{ intro H. apply createChapter_out_of_range, andb_false_iff, H. }
  intros Hn Hw.
  destruct (Hfresh (drawn w) (Nat.le_refl _)) as (_ & Hid & _).
  pose proof (createChapter_run w chapter (proj2 (andb_true_iff _ _) (conj Hn Hw)) Hs Hid)
    as Hrun.
  cbv zeta in Hrun.
  unfold result, after. rewrite Hrun. cbn [fst snd].
  eexists. split; [reflexivity|]. do 4 (split; [reflexivity|]).
  split; [intros ->; reflexivity|]. split; [|split; [reflexivity|]].
  - unfold getChapter, bind, read_db, ret, select_where. store_simpl.
    rewrite filter_app. cbn [filter Chapter.id]. rewrite String.eqb_refl.
    rewrite filter_none; [reflexivity|].
    intros x Hx. apply String.eqb_neq. intro Heq. apply Hid. rewrite <- Heq.
    apply in_map, Hx.
  - eexists. eexists. split; [reflexivity|]. split; [reflexivity|].
    unfold select_where. store_simpl.
    rewrite filter_app. cbn [filter Chapter.storyId]. rewrite String.eqb_refl.
    split.
    + apply order_by_In. apply in_or_app. right. left. reflexivity.
    + rewrite !order_by_length, length_app. cbn [List.length]. lia.
Qed.

Lemma createChapter_then_listed_witness :
  (exists c listed,
      result (createChapter
                (InsertChapter.mk "s2" "Two, again" "..." 2 absent absent))
             sample_world = Ok c
      /\ result (getStoryChapters "s2")
                (after (createChapter
                          (InsertChapter.mk "s2" "Two, again" "..." 2 absent absent))
                       sample_world) = Ok listed
      /\ In c listed
      /\ List.length listed = 3%nat)
  /\ createChapter (InsertChapter.mk "s2" "Far" "..." 2147483648 absent absent)
       sample_world
     = (Throw numeric_value_out_of_range, sample_world).
Proof.
  split.
  - destruct (createChapter_then_listed sample_world
                (InsertChapter.mk "s2" "Two, again" "..." 2 absent absent)
                eq_refl sample_world_fresh) as [Hin _].
    destruct (Hin eq_refl eq_refl)
      as (c & Hc & _ & _ & _ & _ & _ & _ & _ & before & listed & Hb & Hl & Hi & Hlen).
    exists c, listed. split; [exact Hc|]. split; [exact Hl|]. split; [exact Hi|].
    apply Ok_inj in Hb. rewrite <- Hb in Hlen. exact Hlen.
  - refine (proj2 (createChapter_then_listed sample_world _ _ sample_world_fresh) _);
      [reflexivity|left; reflexivity].
Defined.

(** createChapter under a story that does not exist throws, and the
    database is as it was. *)
Theorem createChapter_unknown_story (w : World) (chapter : InsertChapter.t) :
  has_story (db w) (InsertChapter.storyId chapter) = false ->
  (exists e, result (createChapter chapter) w = Throw e)
  /\ db (after (createChapter chapter) w) = db w.
Proof.
  intro Hs.
  unfold result, after, createChapter, within_range.
  destruct (int4 _ && _); [|split; [eexists|]; reflexivity].
  unfold bind, gen_random_uuid, now, read_db, constrained.
  cbn [fst snd db clock uuids drawn]. rewrite Hs.
  destruct (has_chapter _ _); cbn; split; try reflexivity; eexists; reflexivity.
Qed.

Lemma createChapter_unknown_story_witness :
  (exists e,
      result (createChapter (InsertChapter.mk "s9" "One" "..." 1 absent absent))
             sample_world = Throw e)
  /\ db (after (createChapter (InsertChapter.mk "s9" "One" "..." 1 absent absent))
               sample_world) = db sample_world.
Proof. apply createChapter_unknown_story. reflexivity. Defined.

Lemma update_chapters_same_story (id : string) (set : Chapter.t -> Chapter.t)
    (w : World) :
  (forall c, Chapter.storyId (set c) = Chapter.storyId c) ->
  update_chapters id set w
  = (Ok (returning (fun c => (Chapter.id c =? id)%string) set (chapters (db w))),
     with_db w
       (with_chapters (db w)
          (update_where (fun c => (Chapter.id c =? id)%string) set (chapters (db w))))).
Proof.
  intro Hstory. unfold update_chapters, bind, read_db.
  replace (forallb _ _) with true; [reflexivity|].
  symmetry. apply forallb_forall. intros c _.
  rewrite Hstory, String.eqb_refl. reflexivity.
Qed.

(** X19.  publishChapter on a chapter of the table (chapters having their
    primary key) returns the chapter with published = true and the current
    time as publishedAt and updatedAt, its story, title, content, number,
    word count and createdAt kept.  Every other chapter is unchanged, and
    the stories table is not written: publishing a chapter publishes no
    story. *)
Theorem publishChapter_publishes_chapter_only (w : World) (c : Chapter.t) :
  primary_key Chapter.id (chapters (db w)) ->
  In c (chapters (db w)) ->
  exists c',
    result (publishChapter (Chapter.id c)) w = Ok (Some c')
    /\ Chapter.published c' = Some true
    /\ Chapter.publishedAt c' = Some (clock w)
    /\ Chapter.updatedAt c' = Some (clock w)
    /\ Chapter.id c' = Chapter.id c
    /\ Chapter.storyId c' = Chapter.storyId c
    /\ Chapter.title c' = Chapter.title c
    /\ Chapter.content c' = Chapter.content c
    /\ Chapter.chapterNumber c' = Chapter.chapterNumber c
    /\ Chapter.wordCount c' = Chapter.wordCount c
    /\ Chapter.createdAt c' = Chapter.createdAt c
    /\ Forall2
         (fun x x' => (x = c /\ x' = c') \/ (x <> c /\ x' = x))
         (chapters (db w))
         (chapters (db (after (publishChapter (Chapter.id c)) w)))
    /\ stories (db (after (publishChapter (Chapter.id c)) w)) = stories (db w).
Proof.
  intros Hpk Hin.
  unfold result, after, publishChapter, bind, now.
  rewrite update_chapters_same_story by reflexivity.
  cbn [fst snd ret]. unfold returning.
  rewrite (filter_id_primary_key Chapter.id c _ Hpk Hin). cbn [map hd_error].
  eexists. split; [reflexivity|]. do 10 (split; [reflexivity|]).
  split; [|reflexivity]. store_simpl.
  eapply Forall2_weaken; [|apply Forall2_update_where_In, incl_refl].
  intros x x' [Hx [[Hc ->]|[Hc ->]]].
  - apply String.eqb_eq in Hc. left.
    rewrite (primary_key_inj Chapter.id _ x c Hpk Hx Hin Hc). split; reflexivity.
  - apply String.eqb_neq in Hc. right. split; [congruence|reflexivity].
Qed.

Lemma publishChapter_publishes_chapter_only_witness :
  exists c',
    result (publishChapter "c2") sample_world = Ok (Some c')
    /\ Chapter.published c' = Some true
    /\ stories (db (after (publishChapter "c2") sample_world)) = stories (db sample_world).
Proof.
  assert (Hpk : primary_key Chapter.id (chapters (db sample_world)))
    by solve_primary_key.
  destruct (publishChapter_publishes_chapter_only sample_world chapter_two Hpk
              (or_introl eq_refl))
    as (c' & Hr & Hp & _ & _ & _ & _ & _ & _ & _ & _ & _ & _ & Hs).
  exists c'. split; [exact Hr|]. split; [exact Hp|exact Hs].
Defined.

(** ** Notifications *)

Lemma insert_row_map {A B : Type} (g : A -> B) (first : A -> A -> bool)
    (first' : B -> B -> bool) (x : A) (l : list A) :
  (forall a b, first' (g a) (g b) = first a b) ->
  insert_row first' (g x) (map g l) = map g (insert_row first x l).
Proof.
  intro H. induction l as [|y l IH]; simpl; [reflexivity|].
  rewrite H. destruct (first x y); simpl; [reflexivity|]. rewrite IH. reflexivity.
Qed.

Lemma order_by_map {A B : Type} (g : A -> B) (first : A -> A -> bool)
    (first' : B -> B -> bool) (l : list A) :
  (forall a b, first' (g a) (g b) = first a b) ->
  order_by first' (map g l) = map g (order_by first l).
Proof.
  intro H. induction l as [|x l IH]; simpl; [reflexivity|].
  rewrite IH. apply insert_row_map, H.
Qed.

Lemma filter_map_commute {A : Type} (g : A -> A) (p : A -> bool) (l : list A) :
  (forall a, p (g a) = p a) -> filter p (map g l) = map g (filter p l).
Proof.
  intro H. induction l as [|x l IH]; simpl; [reflexivity|].
  rewrite H. destruct (p x); simpl; rewrite IH; reflexivity.
Qed.

(** X20.  getUserNotifications(u) reads without writing and returns
    notifications of the table addressed to u only, at most 20 of them,
    newest first; when u has at most 20 notifications it returns them
    all. *)
Theorem getUserNotifications_own_newest_first (w : World) (u : string) :
  exists ns,
    getUserNotifications u w = (Ok ns, w)
    /\ (forall n, In n ns -> In n (notifications (db w)) /\ Notification.userId n = u)
    /\ (List.length ns <= 20)%nat
    /\ StronglySorted by_createdAt_desc ns
    /\ ((List.length
           (filter (fun n => (Notification.userId n =? u)%string)
                   (notifications (db w))) <= 20)%nat ->
        forall n,
          In n (notifications (db w)) -> Notification.userId n = u -> In n ns).
Proof.
  eexists. split; [reflexivity|]. split; [|split; [|split]].
  - intros n Hn. apply In_firstn in Hn. apply order_by_In in Hn.
    unfold select_where in Hn. apply filter_In in Hn.
    rewrite String.eqb_eq in Hn. exact Hn.
  - apply firstn_length_bound.
  - apply StronglySorted_firstn. apply order_by_sorted_for.
    + intros a b. apply compare_desc_descending.
    + intros a b. apply descending_total.
    + intros a b c. apply descending_trans.
  - intros Hfew n Hn Hu. rewrite firstn_all2.
    + apply order_by_In. unfold select_where. apply filter_In.
      split; [exact Hn|]. apply String.eqb_eq, Hu.
    + rewrite order_by_length. exact Hfew.
Qed.

Lemma getUserNotifications_own_newest_first_witness :
  exists ns,
    getUserNotifications "alice" (after (toggleLike "bob" "s1") sample_world)
    = (Ok ns, after (toggleLike "bob" "s1") sample_world)
    /\ In (Notification.mk "uuid-1" "alice" "like" (Some "s1") (Some false) (Some 10)) ns.
Proof.
  destruct (getUserNotifications_own_newest_first
              (after (toggleLike "bob" "s1") sample_world) "alice")
    as (ns & Hns & _ & _ & _ & Hall).
  exists ns. split; [exact Hns|].
  apply Hall.
  - vm_compute. lia.
  - left. reflexivity.
  - reflexivity.
Defined.

(** X21.  markNotificationRead(id) returns, sets the read flag of the
    notifications with that id and changes nothing else: every other
    column of such a notification, every other notification and every other
    table is as before.  It does not look at whose notification it is.
    For a user with at most 20 notifications, getUserNotifications after
    it holds the notifications it held before it, the one with that id
    marked read, newest first. *)
Theorem markNotificationRead_marks_in_place (w : World) (id u : string) :
  result (markNotificationRead id) w = Ok tt
  /\ Forall2
       (fun n n' =>
          (Notification.id n = id
           /\ Notification.read n' = Some true
           /\ Notification.id n' = Notification.id n
           /\ Notification.userId n' = Notification.userId n
           /\ Notification.type n' = Notification.type n
           /\ Notification.storyId n' = Notification.storyId n
           /\ Notification.createdAt n' = Notification.createdAt n)
          \/ (Notification.id n <> id /\ n' = n))
       (notifications (db w))
       (notifications (db (after (markNotificationRead id) w)))
  /\ users (db (after (markNotificationRead id) w)) = users (db w)
  /\ stories (db (after (markNotificationRead id) w)) = stories (db w)
  /\ chapters (db (after (markNotificationRead id) w)) = chapters (db w)
  /\ likes (db (after (markNotificationRead id) w)) = likes (db w)
  /\ bookmarks (db (after (markNotificationRead id) w)) = bookmarks (db w)
  /\ exists before listed,
      result (getUserNotifications u) w = Ok before
      /\ result (getUserNotifications u) (after (markNotificationRead id) w) = Ok listed
      /\ StronglySorted by_createdAt_desc listed
      /\ ((List.length
             (filter (fun n => (Notification.userId n =? u)%string)
                     (notifications (db w))) <= 20)%nat ->
          Permutation listed
            (map (fun n => if (Notification.id n =? id)%string then set_read n else n)
                 before)).
Proof.
  split; [reflexivity|]. split; [|do 5 (split; [reflexivity|])].
  - unfold after, markNotificationRead, bind, read_db, write_db. store_simpl.
    eapply Forall2_weaken; [|apply Forall2_update_where].
    intros n n' [[Hc ->]|[Hc ->]].
    + left. apply String.eqb_eq in Hc. repeat split. exact Hc.
    + right. apply String.eqb_neq in Hc. split; [exact Hc|reflexivity].
  - eexists. eexists. split; [reflexivity|]. split; [reflexivity|]. split.
    + apply StronglySorted_firstn. apply order_by_sorted_for.
      * intros a b. apply compare_desc_descending.
      * intros a b. apply descending_total.
      * intros a b c. apply descending_trans.
    + intros _.
      unfold after, markNotificationRead, bind, read_db, write_db, select_where,
        update_where.
      store_simpl.
      rewrite filter_map_commute
        by (intro n; destruct (Notification.id n =? id)%string; reflexivity).
      rewrite (order_by_map _
                 (fun a b => not_after (compare_desc (Notification.createdAt a)
                                                     (Notification.createdAt b))))
        by (intros a b; destruct (Notification.id a =? id)%string,
                                 (Notification.id b =? id)%string; reflexivity).
      rewrite firstn_map. apply Permutation_refl.
Qed.

Lemma markNotificationRead_marks_in_place_witness :
  exists listed,
    result (getUserNotifications "alice") (after (markNotificationRead "n1") notified_world)
    = Ok listed
    /\ Permutation listed
         [Notification.mk "n1" "alice" "like" (Some "s2") (Some true) (Some 9);
          Notification.mk "n2" "alice" "like" (Some "s1") (Some false) (Some 9)].
Proof.
  destruct (markNotificationRead_marks_in_place notified_world "n1" "alice")
    as (_ & _ & _ & _ & _ & _ & _ & before & listed & Hb & Hl & _ & Hperm).
  exists listed. split; [exact Hl|].
  apply Ok_inj in Hb. subst before. apply Hperm. vm_compute. lia.
Defined.

(** ** Bookmarks *)

Lemma leftJoin_stories (d : Db) (bs : list Bookmark.t) :
  primary_key Story.id (stories d) ->
  leftJoin bs (stories d) (fun b s => (Bookmark.storyId b =? Story.id s)%string)
  = map (fun b =>
           (b, find (fun s => (Bookmark.storyId b =? Story.id s)%string) (stories d)))
        bs.
Proof.
  intro Hpk. induction bs as [|b bs IH]; [reflexivity|].
  rewrite leftJoin_cons, IH.
  rewrite (filter_primary_key Story.id (Bookmark.storyId b) _ Hpk).
  cbn [map]. destruct (find _ (stories d)); reflexivity.
Qed.

Lemma StronglySorted_map {A B : Type} (g : A -> B) (P : A -> A -> Prop)
    (Q : B -> B -> Prop) (l : list A) :
  (forall a b, P a b -> Q (g a) (g b)) ->
  StronglySorted P l -> StronglySorted Q (map g l).
Proof.
  intro H. induction 1 as [|x l Hs IH Hx]; simpl; constructor; [exact IH|].
  rewrite Forall_forall in *. intros y Hy.
  apply in_map_iff in Hy. destruct Hy as (a & <- & Ha). apply H, Hx, Ha.
Qed.

Lemma filter_paired {A B : Type} (p : A -> bool) (f : A -> B) (l : list A) :
  filter (fun r => p (fst r)) (map (fun a => (a, f a)) l)
  = map (fun a => (a, f a)) (filter p l).
Proof.
  induction l as [|x l IH]; simpl; [reflexivity|].
  destruct (p x); simpl; rewrite IH; reflexivity.
Qed.

Lemma find_primary_key {R : Type} (id : R -> string) (l : list R) (x : R) :
  primary_key id l -> In x l ->
  find (fun y => (id x =? id y)%string) l = Some x.
Proof.
  unfold primary_key. induction l as [|y l IH]; simpl; intros Hnd Hin; [destruct Hin|].
  inversion Hnd as [|? ? Hy Hl]; subst.
  destruct Hin as [->|Hin]; [rewrite String.eqb_refl; reflexivity|].
  replace (id x =? id y)%string with false; [apply IH; assumption|].
  symmetry. apply String.eqb_neq. intro Heq. apply Hy. rewrite <- Heq.
  apply in_map, Hin.
Qed.

(** X17.  getUserBookmarks(u), the stories table having its primary key,
    reads without writing and returns one row for each bookmark of u and
    none for anyone else's, newest first; each row carries the columns of
    the bookmarked story, or a null story when the story is gone. *)
Theorem getUserBookmarks_one_row_each (w : World) (u : string) :
  primary_key Story.id (stories (db w)) ->
  exists rows,
    getUserBookmarks u w = (Ok rows, w)
    /\ Permutation (map bookmark_columns rows)
         (filter (fun b => (Bookmark.userId b =? u)%string) (bookmarks (db w)))
    /\ StronglySorted newest_bookmark_first rows
    /\ (forall r st,
          In r rows -> In st (stories (db w)) ->
          Story.id st = BookmarkWithStory.storyId r ->
          BookmarkWithStory.story r = Some (story_columns st))
    /\ (forall r,
          In r rows -> has_story (db w) (BookmarkWithStory.storyId r) = false ->
          BookmarkWithStory.story r = None).
Proof.
  intro Hpk. unfold getUserBookmarks.
  rewrite (bind_run _ _ w w (db w)) by reflexivity.
  rewrite (leftJoin_stories (db w) (bookmarks (db w)) Hpk).
  rewrite (filter_paired (fun b => (Bookmark.userId b =? u)%string)).
  rewrite (order_by_map _
             (fun a b => not_after (compare_desc (Bookmark.createdAt a)
                                                 (Bookmark.createdAt b))))
    by reflexivity.
  rewrite map_map. cbn [fst snd].
  set (mine := order_by _ _).
  eexists. split; [reflexivity|].
  assert (Hmine : forall b, In b mine ->
                    In b (bookmarks (db w)) /\ Bookmark.userId b = u).
  { intros b Hb. unfold mine in Hb. apply order_by_In in Hb.
    apply filter_In in Hb. rewrite String.eqb_eq in Hb. exact Hb. }
  split; [|split; [|split]].
  - rewrite map_map. unfold bookmark_columns. cbn.
    rewrite (map_ext _ (fun b => b)) by (intros []; reflexivity).
    rewrite map_id. apply Permutation_sym, order_by_perm.
  - apply (StronglySorted_map _
             (fun a b => descending (Bookmark.createdAt a) (Bookmark.createdAt b))).
    + intros a b H. exact H.
    + apply order_by_sorted_for.
      * intros a b. apply compare_desc_descending.
      * intros a b. apply descending_total.
      * intros a b c. apply descending_trans.
  - intros r st Hr Hst Hid. apply in_map_iff in Hr. destruct Hr as (b & <- & _).
    cbn [BookmarkWithStory.story BookmarkWithStory.storyId] in *.
    rewrite <- Hid. rewrite (find_primary_key Story.id _ st Hpk Hst). reflexivity.
  - intros r Hr Hnone. apply in_map_iff in Hr. destruct Hr as (b & <- & _).
    cbn [BookmarkWithStory.story BookmarkWithStory.storyId] in *.
    destruct (find _ (stories (db w))) as [st|] eqn:E; [|reflexivity].
    exfalso. apply find_some in E. destruct E as [Hin Heq].
    assert (Ht : has_story (db w) (Bookmark.storyId b) = true).
    { unfold has_story. apply existsb_exists. exists st. split; [exact Hin|].
      rewrite String.eqb_sym. exact Heq. }
    congruence.
Qed.

Lemma getUserBookmarks_one_row_each_witness :
  exists rows,
    getUserBookmarks "bob" sample_world = (Ok rows, sample_world)
    /\ Permutation (map bookmark_columns rows)
         [Bookmark.mk "b1" "bob" "s2" None 0 (Some "first") (Some 8)].
Proof.
  assert (Hpk : primary_key Story.id (stories (db sample_world))) by solve_primary_key.
  destruct (getUserBookmarks_one_row_each sample_world "bob" Hpk)
    as (rows & Hr & Hperm & _).
  exists rows. split; [exact Hr|exact Hperm].
Defined.

(** X16.  A bookmark that createBookmark inserted (no bookmark of the pair
    before, a position that fits int4, user and story existing, generated
    id fresh) is taken away again by deleteBookmark on the id it returned:
    the bookmarks table is then what it was before the two calls. *)
Theorem createBookmark_then_deleteBookmark (w : World) (b : InsertBookmark.t) :
  bookmarks_of (db w) (InsertBookmark.userId b) (InsertBookmark.storyId b) = [] ->
  int4 (InsertBookmark.position b) = true ->
  has_user (db w) (InsertBookmark.userId b) = true ->
  has_story (db w) (InsertBookmark.storyId b) = true ->
  references (has_chapter (db w)) (or_default (InsertBookmark.chapterId b) None) = true ->
  fresh_ids w ->
  exists r,
    result (createBookmark b) w = Ok (Some r)
    /\ result (deleteBookmark (Bookmark.id r)) (after (createBookmark b) w) = Ok tt
    /\ bookmarks (db (after (deleteBookmark (Bookmark.id r))
                        (after (createBookmark b) w)))
       = bookmarks (db w).
Proof.
  intros E Hp Hu Hs Hc Hfresh.
  destruct (Hfresh (drawn w) (Nat.le_refl _)) as (_ & _ & _ & _ & Hid).
  unfold result, after. rewrite (createBookmark_new w b E Hp Hu Hs Hc Hfresh).
  cbn [fst snd]. eexists. split; [reflexivity|]. split; [reflexivity|].
  unfold deleteBookmark, bind, read_db, write_db. store_simpl.
  unfold delete_where. rewrite filter_app. cbn [filter Bookmark.id].
  rewrite String.eqb_refl. cbn [negb]. rewrite app_nil_r.
  apply delete_where_none. apply filter_none.
  intros x Hx. apply String.eqb_neq. intro Heq. apply Hid.
  rewrite <- Heq. apply in_map, Hx.
Qed.

Lemma createBookmark_then_deleteBookmark_witness :
  exists r,
    result (createBookmark (bob_bookmarks "s1" "first")) sample_world = Ok (Some r)
    /\ bookmarks (db (after (deleteBookmark (Bookmark.id r))
                        (after (createBookmark (bob_bookmarks "s1" "first"))
                           sample_world)))
       = bookmarks (db sample_world).
Proof.
  destruct (createBookmark_then_deleteBookmark sample_world (bob_bookmarks "s1" "first")
              eq_refl eq_refl eq_refl eq_refl eq_refl sample_world_fresh)
    as (r & Hr & _ & Hb).
  exists r. split; [exact Hr|exact Hb].
Defined.

(** ** Users *)

Lemma find_hd_filter {R : Type} (p : R -> bool) (l : list R) :
  find p l = hd_error (filter p l).
Proof.
  induction l as [|x l IH]; simpl; [reflexivity|]. destruct (p x); [reflexivity|exact IH].
Qed.

(** The two ways upsertUser goes, once the id is known. *)
Lemma upsertUser_cases (w : World) (userData : UpsertUser.t) :
  exists i w0,
    (UpsertUser.id userData = given i /\ w0 = w
     \/ UpsertUser.id userData = absent /\ i = uuids w (drawn w) /\ w0 = bump w)
    /\ let found := find (fun u => (User.id u =? i)%string) (users (db w)) in
       let others := filter (fun u => negb (User.id u =? i)%string) (users (db w)) in
       let r :=
         match found with
         | Some e => set_userData userData (clock w) e
         | None => values_userData userData i (clock w)
         end in
       let us :=
         match found with
         | Some _ =>
             update_where (fun u => (User.id u =? i)%string)
               (set_userData userData (clock w)) (users (db w))
         | None => (users (db w) ++ [r])%list
         end in
       (upsertUser userData w = (Throw unique_violation, w0)
        /\ taken User.email (User.email r) others
           || taken User.username (User.username r) others = true)
       \/ (upsertUser userData w = (Ok r, with_db w0 (with_users (db w) us))
           /\ taken User.email (User.email r) others
              || taken User.username (User.username r) others = false).
Proof.
  unfold upsertUser.
  destruct (UpsertUser.id userData) as [|i] eqn:Hid.
  - exists (uuids w (drawn w)), (bump w). split; [right; auto|].
    rewrite (bind_run _ _ w (bump w) (uuids w (drawn w))) by reflexivity.
    unfold bind, now, read_db. cbn [fst snd bump db clock]. cbv zeta.
    destruct (find _ (users (db w))) as [e|]; cbn [fst snd];
      (destruct (_ || _); [left; split; reflexivity|right; split; reflexivity]).
  - exists i, w. split; [left; auto|].
    rewrite (bind_run _ _ w w i) by reflexivity.
    unfold bind, now, read_db. cbn [fst snd db clock]. cbv zeta.
    destruct (find _ (users (db w))) as [e|]; cbn [fst snd];
      (destruct (_ || _); [left; split; reflexivity|right; split; reflexivity]).
Qed.

Lemma set_userData_id (userData : UpsertUser.t) (t : timestamp) (i : string)
    (u : User.t) :
  UpsertUser.id userData = given i \/ UpsertUser.id userData = absent ->
  User.id u = i ->
  User.id (set_userData userData t u) = i.
Proof.
  intros [H|H] Hu; cbn [set_userData User.id]; rewrite H; cbn [assign];
    [reflexivity|exact Hu].
Qed.

Lemma upsertUser_ids (userData : UpsertUser.t) (t : timestamp) (i : string)
    (l : list User.t) :
  UpsertUser.id userData = given i \/ UpsertUser.id userData = absent ->
  map User.id
    (update_where (fun u => (User.id u =? i)%string) (set_userData userData t) l)
  = map User.id l.
Proof.
  intro Hid. unfold update_where. rewrite map_map. apply map_ext.
  intro u. destruct (User.id u =? i)%string eqn:E; [|reflexivity].
  apply String.eqb_eq in E.
  rewrite (set_userData_id userData t i u Hid E). symmetry. exact E.
Qed.

(** X22.  upsertUser keeps the primary key of users: it never leaves two
    users with one id.  It adds at most one row, and none when a user with
    the id exists. *)
Theorem upsertUser_keeps_primary_key (w : World) (userData : UpsertUser.t) :
  primary_key User.id (users (db w)) ->
  primary_key User.id (users (db (after (upsertUser userData) w)))
  /\ (List.length (users (db (after (upsertUser userData) w)))
      <= S (List.length (users (db w))))%nat
  /\ (forall i,
        UpsertUser.id userData = given i ->
        has_user (db w) i = true ->
        List.length (users (db (after (upsertUser userData) w)))
        = List.length (users (db w))).
Proof.
  intro Hpk.
  destruct (upsertUser_cases w userData) as (i & w0 & Hid & Hrun).
  cbv zeta in Hrun.
  assert (Hid' : UpsertUser.id userData = given i \/ UpsertUser.id userData = absent)
    by (destruct Hid as [[H _]|[H _]]; auto).
  assert (Hw0 : db w0 = db w)
    by (destruct Hid as [[_ ->]|[_ [_ ->]]]; reflexivity).
  unfold after.
  destruct Hrun as [[-> _]|[-> _]]; cbn [snd].
  - rewrite Hw0. split; [exact Hpk|]. split; [lia|]. intros; reflexivity.
  - cbn [db with_db users with_users].
    destruct (find _ (users (db w))) as [e|] eqn:Hfind.
    + split; [|split].
      * unfold primary_key. rewrite (upsertUser_ids userData _ i _ Hid'). exact Hpk.
      * unfold update_where. rewrite length_map. lia.
      * intros. unfold update_where. apply length_map.
    + assert (Hnone : ~ In i (map User.id (users (db w)))).
      { intro Hin. apply in_map_iff in Hin. destruct Hin as (u & Hu & Hin).
        apply (find_none _ _ Hfind) in Hin. cbn in Hin.
        rewrite Hu, String.eqb_refl in Hin. discriminate Hin. }
      split; [|split].
      * unfold primary_key in *. rewrite map_app. cbn [map values_userData User.id].
        apply (Permutation_NoDup (l := i :: map User.id (users (db w)))).
        -- apply Permutation_cons_append.
        -- constructor; assumption.
      * rewrite length_app. cbn [List.length]. lia.
      * intros j Hj Hhas. exfalso. apply Hnone.
        destruct Hid as [[Hg _]|[Ha _]]; [|congruence].
        rewrite Hg in Hj. injection Hj as <-.
        unfold has_user in Hhas. apply existsb_exists in Hhas.
        destruct Hhas as (u & Hu & Heq). apply String.eqb_eq in Heq.
        rewrite <- Heq. apply in_map, Hu.
Qed.

Lemma upsertUser_keeps_primary_key_witness :
  primary_key User.id
    (users (db (after (upsertUser
                         (UpsertUser.mk (given "bob") (given (Some "bob@example.org"))
                            (given (Some "Robert")) absent absent absent absent
                            absent absent))
                  sample_world)))
  /\ List.length
       (users (db (after (upsertUser
                            (UpsertUser.mk (given "bob") (given (Some "bob@example.org"))
                               (given (Some "Robert")) absent absent absent absent
                               absent absent))
                     sample_world)))
     = 2%nat.
Proof.
  assert (Hpk : primary_key User.id (users (db sample_world))) by solve_primary_key.
  destruct (upsertUser_keeps_primary_key sample_world
              (UpsertUser.mk (given "bob") (given (Some "bob@example.org"))
                 (given (Some "Robert")) absent absent absent absent absent absent)
              Hpk) as (Hk & _ & Hlen).
  split; [exact Hk|]. exact (Hlen "bob" eq_refl eq_refl).
Defined.

Lemma find_update_where {R : Type} (p : R -> bool) (set : R -> R) (l : list R)
    (e : R) :
  (forall x, p x = true -> p (set x) = true) ->
  find p l = Some e ->
  find p (update_where p set l) = Some (set e).
Proof.
  intro Hset. unfold update_where.
  induction l as [|x l IH]; cbn [find map]; intro Hfind; [discriminate Hfind|].
  destruct (p x) eqn:E.
  - injection Hfind as ->. rewrite (Hset e E). reflexivity.
  - rewrite E. apply IH, Hfind.
Qed.

Lemma find_app_none {R : Type} (p : R -> bool) (l l' : list R) :
  find p l = None -> find p (l ++ l') = find p l'.
Proof.
  induction l as [|x l IH]; cbn [find app]; [reflexivity|].
  destruct (p x); [discriminate|exact IH].
Qed.

(** X23.  When upsertUser returns a user, that user carries the id and
    the profile columns of the data, getUser on the id returns the same
    user, and every user with another id is still in the table.  For a
    user that already existed, createdAt is kept when the data has none,
    and updatedAt is the current time. *)
Theorem upsertUser_then_getUser (w : World) (userData : UpsertUser.t) (r : User.t) :
  result (upsertUser userData) w = Ok r ->
  (forall i, UpsertUser.id userData = given i -> User.id r = i)
  /\ (forall v, UpsertUser.email userData = given v -> User.email r = v)
  /\ (forall v, UpsertUser.firstName userData = given v -> User.firstName r = v)
  /\ (forall v, UpsertUser.lastName userData = given v -> User.lastName r = v)
  /\ (forall v, UpsertUser.profileImageUrl userData = given v ->
                User.profileImageUrl r = v)
  /\ (forall v, UpsertUser.bio userData = given v -> User.bio r = v)
  /\ (forall v, UpsertUser.username userData = given v -> User.username r = v)
  /\ result (getUser (User.id r)) (after (upsertUser userData) w) = Ok (Some r)
  /\ (forall u,
        In u (users (db w)) -> User.id u <> User.id r ->
        In u (users (db (after (upsertUser userData) w))))
  /\ (forall e,
        result (getUser (User.id r)) w = Ok (Some e) ->
        User.updatedAt r = Some (clock w)
        /\ (UpsertUser.createdAt userData = absent ->
            User.createdAt r = User.createdAt e)).
Proof.
  intro Hr.
  destruct (upsertUser_cases w userData) as (i & w0 & Hid & Hrun).
  cbv zeta in Hrun.
  assert (Hid' : UpsertUser.id userData = given i \/ UpsertUser.id userData = absent)
    by (destruct Hid as [[H _]|[H _]]; auto).
  unfold result in Hr.
  destruct Hrun as [[Hrun _]|[Hrun _]]; rewrite Hrun in Hr; [discriminate Hr|].
  cbn [fst] in Hr. apply Ok_inj in Hr.
  unfold result, after. rewrite Hrun. cbn [fst snd].
  unfold getUser, bind, read_db, ret, select_where.
  cbn [fst db with_db users with_users].
  rewrite <- !find_hd_filter.
  destruct (find (fun u => (User.id u =? i)%string) (users (db w))) as [e|] eqn:Hfind.
  - pose proof (find_some _ _ Hfind) as [Hein Hei]. apply String.eqb_eq in Hei.
    assert (Hri : User.id r = i)
      by (rewrite <- Hr; apply (set_userData_id _ _ _ _ Hid' Hei)).
    rewrite Hri.
    split; [intros j Hj; destruct Hid as [[Hg _]|[Ha _]]; congruence|].
    do 6 (split; [intros v Hv; rewrite <- Hr; cbn; rewrite Hv; reflexivity|]).
    split; [|split].
    + f_equal. rewrite <- Hr. apply find_update_where; [|exact Hfind].
      intros x Hx. apply String.eqb_eq in Hx. apply String.eqb_eq.
      apply (set_userData_id _ _ _ _ Hid' Hx).
    + intros u Hu Hne. unfold update_where. apply in_map_iff. exists u.
      split; [|exact Hu].
      replace (User.id u =? i)%string with false; [reflexivity|].
      symmetry. apply String.eqb_neq. exact Hne.
    + intros e' He'. apply Ok_inj in He'. rewrite Hfind in He'. injection He' as <-.
      rewrite <- Hr. cbn. split; [reflexivity|]. intros ->. reflexivity.
  - assert (Hri : User.id r = i) by (rewrite <- Hr; reflexivity).
    rewrite Hri.
    split; [intros j Hj; destruct Hid as [[Hg _]|[Ha _]]; congruence|].
    do 6 (split; [intros v Hv; rewrite <- Hr; cbn; rewrite Hv; reflexivity|]).
    split; [|split].
    + f_equal. rewrite (find_app_none _ _ _ Hfind). cbn [find].
      rewrite <- Hr. cbn [values_userData User.id].
      rewrite String.eqb_refl. reflexivity.
    + intros u Hu _. apply in_or_app. left. exact Hu.
    + intros e' He'. apply Ok_inj in He'. rewrite Hfind in He'. discriminate He'.
Qed.

Lemma upsertUser_then_getUser_witness :
  result (upsertUser bob_again) sample_world
  = Ok (User.mk "bob" (Some "bob@example.org") (Some "Robert") None None None
          (Some "bob") (Some 0) (Some 10))
  /\ result (getUser "bob") (after (upsertUser bob_again) sample_world)
     = Ok (Some (User.mk "bob" (Some "bob@example.org") (Some "Robert") None None None
                   (Some "bob") (Some 0) (Some 10))).
Proof.
  split; [reflexivity|].
  exact (proj1 (proj2 (proj2 (proj2 (proj2 (proj2 (proj2 (proj2
           (upsertUser_then_getUser sample_world bob_again _ eq_refl))))))))).
Defined.

(** X24.  upsertUser with an email address that another user has throws a
    unique-constraint fault and writes nothing: neither a new user nor a
    change of an existing one. *)
Theorem upsertUser_email_taken (w : World) (userData : UpsertUser.t)
    (i v : string) (other : User.t) :
  UpsertUser.id userData = given i ->
  UpsertUser.email userData = given (Some v) ->
  In other (users (db w)) ->
  User.id other <> i ->
  User.email other = Some v ->
  upsertUser userData w = (Throw unique_violation, w).
Proof.
  intros Hid Hemail Hin Hne Hv.
  destruct (upsertUser_cases w userData) as (j & w0 & Hj & Hrun).
  cbv zeta in Hrun.
  destruct Hj as [[Hg ->]|[Ha _]]; [|congruence].
  rewrite Hid in Hg. injection Hg as <-.
  destruct Hrun as [[Hrun _]|[_ Hfree]]; [exact Hrun|]. exfalso.
  apply orb_false_iff in Hfree. destruct Hfree as [Hfree _].
  assert (Hmail : User.email
                    match find (fun u => (User.id u =? i)%string) (users (db w)) with
                    | Some e => set_userData userData (clock w) e
                    | None => values_userData userData i (clock w)
                    end = Some v).
  { destruct (find _ (users (db w))); cbn; rewrite Hemail; reflexivity. }
  rewrite Hmail in Hfree. cbn [taken] in Hfree.
  assert (Ht : existsb (fun u => eq_nullable (User.email u) (Some v))
                 (filter (fun u => negb (User.id u =? i)%string) (users (db w))) = true).
  { apply existsb_exists. exists other. split.
    - apply filter_In. split; [exact Hin|].
      apply negb_true_iff, String.eqb_neq, Hne.
    - rewrite Hv. cbn. apply String.eqb_refl. }
  congruence.
Qed.

Lemma upsertUser_email_taken_witness :
  upsertUser carol_as_bob sample_world = (Throw unique_violation, sample_world).
Proof.
  apply (upsertUser_email_taken sample_world carol_as_bob "carol" "bob@example.org" bob).
  - reflexivity.
  - reflexivity.
  - right. left. reflexivity.
  - discriminate.
  - reflexivity.
Defined.

(** ** The route handlers *)

Lemma try_catch_ok (m : M Response) (message : string) (w w' : World) (r : Response) :
  m w = (Ok r, w') -> try_catch m message w = (Ok r, w').
Proof. unfold try_catch. intros ->. reflexivity. Qed.

Lemma try_catch_throw (m : M Response) (message : string) (w w' : World)
    (e : DbError) :
  m w = (Throw e, w') ->
  try_catch m message w = (Ok (res_status_json 500 (json_message message)), w').
Proof. unfold try_catch. intros ->. reflexivity. Qed.

Lemma getStory_run (w : World) (id : string) :
  getStory id w
  = (Ok (hd_error (select_where (fun s => (Story.id s =? id)%string) (stories (db w)))),
     w).
Proof. reflexivity. Qed.

Lemma getStory_result (w : World) (id : string) (o : option Story.t) :
  result (getStory id) w = Ok o -> getStory id w = (Ok o, w).
Proof.
  rewrite getStory_run. unfold result. cbn [fst]. intro H. apply Ok_inj in H.
  rewrite H. reflexivity.
Qed.

(** X25.  GET /api/stories/:id answers 200 with the story exactly when a
    story with the id exists and its published flag is true; a missing
    story and a story that is unpublished (false or NULL) are both answered
    404 "Story not found".  The handler writes nothing. *)
Theorem get_story_serves_published_only (w : World) (id : string) :
  exists r,
    get_story id w = (Ok r, w)
    /\ (forall s,
          result (getStory id) w = Ok (Some s) ->
          Story.published s = Some true ->
          r = mkResponse 200 (json_story (Some s)))
    /\ (forall s,
          result (getStory id) w = Ok (Some s) ->
          Story.published s <> Some true ->
          r = mkResponse 404 (json_message "Story not found"))
    /\ (result (getStory id) w = Ok None ->
        r = mkResponse 404 (json_message "Story not found")).
Proof.
  unfold get_story.
  destruct (hd_error (select_where (fun s => (Story.id s =? id)%string)
                        (stories (db w)))) as [s|] eqn:E.
  - destruct (truthy (Story.published s)) eqn:Hp.
    + eexists. split.
      * apply try_catch_ok. rewrite (bind_run _ _ _ _ _ (getStory_run w id)).
        rewrite E, Hp. reflexivity.
      * unfold result. rewrite getStory_run, E. cbn [fst].
        split; [|split].
        -- intros s' Hs' _. apply Ok_inj in Hs'. injection Hs' as <-. reflexivity.
        -- intros s' Hs' Hn. apply Ok_inj in Hs'. injection Hs' as <-.
           exfalso. apply Hn. unfold truthy in Hp.
           destruct (Story.published s) as [[|]|]; congruence.
        -- intro H. discriminate H.
    + eexists. split.
      * apply try_catch_ok. rewrite (bind_run _ _ _ _ _ (getStory_run w id)).
        rewrite E, Hp. reflexivity.
      * unfold result. rewrite getStory_run, E. cbn [fst].
        split; [|split].
        -- intros s' Hs' Ht. apply Ok_inj in Hs'. injection Hs' as <-.
           rewrite Ht in Hp. discriminate Hp.
        -- intros. reflexivity.
        -- intro H. discriminate H.
  - eexists. split.
    + apply try_catch_ok. rewrite (bind_run _ _ _ _ _ (getStory_run w id)).
      rewrite E. reflexivity.
    + unfold result. rewrite getStory_run, E. cbn [fst].
      split; [|split]; try (intros s' Hs'; discriminate Hs'). reflexivity.
Qed.

Lemma get_story_serves_published_only_witness :
  get_story "s2" sample_world
  = (Ok (mkResponse 200 (json_story (Some tale))), sample_world)
  /\ get_story "s1" sample_world
     = (Ok (mkResponse 404 (json_message "Story not found")), sample_world).
Proof.
  split.
  - destruct (get_story_serves_published_only sample_world "s2") as (r & Hr & H200 & _).
    rewrite Hr. rewrite (H200 tale eq_refl eq_refl). reflexivity.
  - destruct (get_story_serves_published_only sample_world "s1") as (r & Hr & _ & H404 & _).
    rewrite Hr. rewrite (H404 ode eq_refl); [reflexivity|discriminate].
Defined.

(** X26.  A signed-in caller who is not the author of the story, or who
    names a story that does not exist, changes nothing through the story
    routes (all four are registered behind isAuthenticated).
    For a story that does not exist, PUT /api/stories/:id, POST
    /api/stories/:id/publish, POST /api/stories/:id/chapters and PUT
    /api/stories/:id/enable-chapters all answer 404 "Story not found".  For
    a story of another author the first three answer 404 "Story not found"
    again, and enable-chapters answers 403 "Not authorized to modify this
    story".  The world after each is the world before. *)
Theorem story_routes_owner_only (w : World) (userId id : string)
    (story_body : Parsed PartialInsertStory.t) (chapter_body : Parsed InsertChapter.t) :
  (result (getStory id) w = Ok None ->
   put_story userId id story_body w
   = (Ok (mkResponse 404 (json_message "Story not found")), w)
   /\ post_story_publish userId id w
      = (Ok (mkResponse 404 (json_message "Story not found")), w)
   /\ post_chapter userId id chapter_body w
      = (Ok (mkResponse 404 (json_message "Story not found")), w)
   /\ put_enable_chapters userId id w
      = (Ok (mkResponse 404 (json_message "Story not found")), w))
  /\ (forall s,
        result (getStory id) w = Ok (Some s) ->
        Story.authorId s <> userId ->
        put_story userId id story_body w
        = (Ok (mkResponse 404 (json_message "Story not found")), w)
        /\ post_story_publish userId id w
           = (Ok (mkResponse 404 (json_message "Story not found")), w)
        /\ post_chapter userId id chapter_body w
           = (Ok (mkResponse 404 (json_message "Story not found")), w)
        /\ put_enable_chapters userId id w
           = (Ok (mkResponse 403 (json_message "Not authorized to modify this story")),
              w)).
Proof.
  unfold put_story, post_story_publish, post_chapter, put_enable_chapters.
  split.
  - intro Hnone. apply getStory_result in Hnone.
    repeat split; apply try_catch_ok; rewrite (bind_run _ _ _ _ _ Hnone); reflexivity.
  - intros s Hs Hother. apply getStory_result in Hs.
    apply String.eqb_neq in Hother.
    repeat split; apply try_catch_ok; rewrite (bind_run _ _ _ _ _ Hs);
      rewrite Hother; reflexivity.
Qed.

Lemma story_routes_owner_only_witness :
  (put_story "bob" "s1" (parsed patch_published) sample_world
   = (Ok (mkResponse 404 (json_message "Story not found")), sample_world)
   /\ post_story_publish "bob" "s1" sample_world
      = (Ok (mkResponse 404 (json_message "Story not found")), sample_world)
   /\ put_enable_chapters "bob" "s1" sample_world
      = (Ok (mkResponse 403 (json_message "Not authorized to modify this story")),
         sample_world))
  /\ put_enable_chapters "bob" "s9" sample_world
     = (Ok (mkResponse 404 (json_message "Story not found")), sample_world).
Proof.
  split.
  - destruct (story_routes_owner_only sample_world "bob" "s1" (parsed patch_published)
                ZodError) as [_ Hother].
    destruct (Hother ode eq_refl) as (Hput & Hpublish & _ & Henable); [discriminate|].
    split; [exact Hput|]. split; [exact Hpublish|exact Henable].
  - destruct (story_routes_owner_only sample_world "bob" "s9" ZodError ZodError)
      as [Hmissing _].
    exact (proj2 (proj2 (proj2 (Hmissing eq_refl)))).
Defined.

(** X27.  POST /api/stories stores the caller as the author, whatever
    author the body names: for a body the schema accepts, a caller who is a
    user and a fresh generated id, it answers 201 with the new story, whose
    authorId is the caller's id, and the story is in the table.  (Should
    the schema let a wordCount outside int4 through, the store refuses it
    and the answer is 500 "Failed to create story", nothing written.)  A
    body the schema rejects is answered 400 and nothing is written. *)
Theorem post_story_author_is_caller (w : World) (userId : string) (data : InsertStory.t) :
  has_user (db w) userId = true ->
  fresh_ids w ->
  (int4_nullable (or_default (InsertStory.wordCount data) (Some 0)) = true ->
   exists s,
     result (post_story userId (parsed data)) w
     = Ok (mkResponse 201 (json_story (Some s)))
     /\ Story.authorId s = userId
     /\ Story.title s = InsertStory.title data
     /\ In s (stories (db (after (post_story userId (parsed data)) w))))
  /\ (int4_nullable (or_default (InsertStory.wordCount data) (Some 0)) = false ->
      post_story userId (parsed data) w
      = (Ok (mkResponse 500 (json_message "Failed to create story")), w))
  /\ post_story userId ZodError w
     = (Ok (mkResponse 400 (json_message_errors "Invalid story data")), w).
Proof.
  intros Hu Hfresh. split; [|split; [|reflexivity]].
  - intro Hw.
    destruct (Hfresh (drawn w) (Nat.le_refl _)) as (Hid & _).
    pose proof (createStory_run w (with_authorId data userId) Hw Hu Hid) as Hrun.
    cbv zeta in Hrun.
    unfold result, after, post_story.
    erewrite try_catch_ok by (rewrite (bind_run _ _ _ _ _ Hrun); reflexivity).
    cbn [fst snd]. eexists. split; [reflexivity|]. split; [reflexivity|].
    split; [reflexivity|]. store_simpl. apply in_or_app. right. left. reflexivity.
  - intro Hw. unfold post_story.
    apply (try_catch_throw _ _ w w numeric_value_out_of_range).
    apply bind_throw. apply createStory_out_of_range. exact Hw.
Qed.

Lemma post_story_author_is_caller_witness :
  exists s,
    result (post_story "bob"
              (parsed (InsertStory.mk "Forged" "..." absent "story" absent "alice"
                         absent absent absent)))
           sample_world
    = Ok (mkResponse 201 (json_story (Some s)))
    /\ Story.authorId s = "bob".
Proof.
  destruct (post_story_author_is_caller sample_world "bob"
              (InsertStory.mk "Forged" "..." absent "story" absent "alice"
                 absent absent absent)
              eq_refl sample_world_fresh) as (Hin & _).
  destruct (Hin eq_refl) as (s & Hr & Ha & _).
  exists s. split; [exact Hr|exact Ha].
Defined.

(** X28.  POST /api/stories/:id/chapters by the author of the story, with
    a body the schema accepts and fresh generated ids, answers 201 with the
    new chapter.  The chapter belongs to the story of the path, whatever
    story the body names; it is in the chapters table; and afterwards every
    story with that id has hasChapters = true.  (Should the schema let a
    chapter number or word count outside int4 through, the store refuses
    it and the answer is 500 "Failed to create chapter", nothing
    written.) *)
Theorem post_chapter_marks_story (w : World) (userId id : string) (s : Story.t)
    (data : InsertChapter.t) :
  result (getStory id) w = Ok (Some s) ->
  Story.authorId s = userId ->
  fresh_ids w ->
  (int4 (InsertChapter.chapterNumber data)
   && int4_nullable (or_default (InsertChapter.wordCount data) (Some 0)) = true ->
   exists c,
     result (post_chapter userId id (parsed data)) w
     = Ok (mkResponse 201 (json_chapter (Some c)))
     /\ Chapter.storyId c = id
     /\ Chapter.chapterNumber c = InsertChapter.chapterNumber data
     /\ In c (chapters (db (after (post_chapter userId id (parsed data)) w)))
     /\ (forall s',
           In s' (stories (db (after (post_chapter userId id (parsed data)) w))) ->
           Story.id s' = id ->
           Story.hasChapters s' = Some true)
     /\ List.length (stories (db (after (post_chapter userId id (parsed data)) w)))
        = List.length (stories (db w)))
  /\ (int4 (InsertChapter.chapterNumber data)
      && int4_nullable (or_default (InsertChapter.wordCount data) (Some 0)) = false ->
      post_chapter userId id (parsed data) w
      = (Ok (mkResponse 500 (json_message "Failed to create chapter")), w)).
Proof.
  intros Hs Hauthor Hfresh. split.
  2:{ intro Hn. unfold post_chapter. apply String.eqb_eq in Hauthor.
      apply (try_catch_throw _ _ w w numeric_value_out_of_range).
      rewrite (bind_run _ _ _ _ _ (getStory_result w id _ Hs)).
      rewrite Hauthor. cbn [negb].
      apply bind_throw. apply createChapter_out_of_range. exact Hn. }
  intro Hn.
  destruct (getStory_found w id s Hs) as (_ & _ & Hhas).
  destruct (Hfresh (drawn w) (Nat.le_refl _)) as (_ & Hid & _).
  pose proof (createChapter_run w (with_storyId data id) Hn Hhas Hid) as Hrun.
  cbv zeta in Hrun. cbn [with_storyId InsertChapter.storyId InsertChapter.title
    InsertChapter.content InsertChapter.chapterNumber InsertChapter.published
    InsertChapter.wordCount] in Hrun.
  apply String.eqb_eq in Hauthor.
  unfold result, after, post_chapter.
  set (c := Chapter.mk _ _ _ _ _ _ _ _ _ _) in Hrun.
  set (w1 := mkWorld _ _ _ _) in Hrun.
  assert (Hupd : updateStory id patch_hasChapters w1
                 = (Ok (hd_error
                          (returning (fun x => (Story.id x =? id)%string)
                             (set_updates patch_hasChapters (clock w1))
                             (stories (db w1)))),
                    with_db w1
                      (with_stories (db w1)
                         (update_where (fun x => (Story.id x =? id)%string)
                            (set_updates patch_hasChapters (clock w1))
                            (stories (db w1)))))).
  { unfold updateStory, within_range. cbn [patch_hasChapters
      PartialInsertStory.wordCount int4_field].
    rewrite (bind_run _ _ w1 w1 (clock w1)) by reflexivity.
    rewrite (bind_run _ _ _ _ _
               (update_stories_same_author id
                  (set_updates patch_hasChapters (clock w1)) w1 (fun _ => eq_refl))).
    reflexivity. }
  erewrite try_catch_ok.
  2:{ rewrite (bind_run _ _ _ _ _ (getStory_result w id _ Hs)).
      rewrite Hauthor. cbn [negb].
      rewrite (bind_run _ _ _ _ _ Hrun).
      rewrite (bind_run _ _ _ _ _ Hupd). reflexivity. }
  cbn [fst snd]. exists c. split; [reflexivity|]. split; [reflexivity|].
  split; [reflexivity|]. store_simpl. split; [|split].
  - unfold w1. store_simpl. apply in_or_app. right. left. reflexivity.
  - intros s' Hin Hid'. unfold update_where in Hin.
    apply in_map_iff in Hin. destruct Hin as (x & Hx & _).
    destruct (Story.id x =? id)%string eqn:E.
    + rewrite <- Hx. reflexivity.
    + subst s'. apply String.eqb_neq in E. contradiction.
  - unfold update_where. rewrite length_map. reflexivity.
Qed.

Lemma post_chapter_marks_story_witness :
  exists c,
    result (post_chapter "alice" "s1"
              (parsed (InsertChapter.mk "s2" "One" "..." 1 absent absent)))
           sample_world
    = Ok (mkResponse 201 (json_chapter (Some c)))
    /\ Chapter.storyId c = "s1".
Proof.
  destruct (post_chapter_marks_story sample_world "alice" "s1" ode
              (InsertChapter.mk "s2" "One" "..." 1 absent absent)
              eq_refl eq_refl sample_world_fresh) as (Hin & _).
  destruct (Hin eq_refl) as (c & Hr & Hs & _).
  exists c. split; [exact Hr|exact Hs].
Defined.

Lemma getChapter_run (w : World) (id : string) :
  getChapter id w
  = (Ok (hd_error (select_where (fun c => (Chapter.id c =? id)%string)
                     (chapters (db w)))),
     w).
Proof. reflexivity. Qed.

Lemma getChapter_result (w : World) (id : string) (o : option Chapter.t) :
  result (getChapter id) w = Ok o -> getChapter id w = (Ok o, w).
Proof.
  rewrite getChapter_run. unfold result. cbn [fst]. intro H. apply Ok_inj in H.
  rewrite H. reflexivity.
Qed.

(** X29.  GET /api/chapters/:id is registered behind isAuthenticated, so
    its handler runs for signed-in callers only.  To them it shows a
    published chapter whoever they are, and an unpublished one (published
    false or NULL) to the author of its story only: any other signed-in
    caller is answered 404 "Chapter not found", as for a chapter that does
    not exist.  The handler writes nothing. *)
Theorem get_chapter_visibility (w : World) (userId id : string) :
  (forall c,
      result (getChapter id) w = Ok (Some c) ->
      (Chapter.published c = Some true ->
       get_chapter userId id w = (Ok (mkResponse 200 (json_chapter (Some c))), w))
      /\ (forall s,
            result (getStory (Chapter.storyId c)) w = Ok (Some s) ->
            Story.authorId s = userId ->
            get_chapter userId id w = (Ok (mkResponse 200 (json_chapter (Some c))), w))
      /\ (Chapter.published c <> Some true ->
          (forall s,
              result (getStory (Chapter.storyId c)) w = Ok (Some s) ->
              Story.authorId s <> userId) ->
          get_chapter userId id w
          = (Ok (mkResponse 404 (json_message "Chapter not found")), w)))
  /\ (result (getChapter id) w = Ok None ->
      get_chapter userId id w
      = (Ok (mkResponse 404 (json_message "Chapter not found")), w)).
Proof.
  split.
  - intros c Hc. apply getChapter_result in Hc.
    assert (Hstep : forall o b,
               result (getStory (Chapter.storyId c)) w = Ok o ->
               negb (truthy (Chapter.published c))
               && negb match o with
                       | Some s => (Story.authorId s =? userId)%string
                       | None => false
                       end = b ->
               get_chapter userId id w
               = (Ok (if b
                      then mkResponse 404 (json_message "Chapter not found")
                      else mkResponse 200 (json_chapter (Some c))), w)).
    { intros o b Ho Hb. apply getStory_result in Ho. unfold get_chapter.
      apply try_catch_ok. rewrite (bind_run _ _ _ _ _ Hc).
      rewrite (bind_run _ _ _ _ _ Ho). rewrite Hb. destruct b; reflexivity. }
    split; [|split].
    + intro Hp. eapply (Hstep _ false); [reflexivity|]. rewrite Hp. reflexivity.
    + intros s Hs Ha. apply (Hstep (Some s) false Hs).
      apply String.eqb_eq in Ha. rewrite Ha. cbn [negb]. apply andb_false_r.
    + intros Hp Hother.
      eapply (Hstep _ true); [reflexivity|].
      apply andb_true_iff. split.
      * unfold truthy.
        destruct (Chapter.published c) as [[|]|] eqn:Ep; try reflexivity.
        exfalso. apply Hp. reflexivity.
      * destruct (hd_error _) as [s|] eqn:E; [|reflexivity].
        apply negb_true_iff, String.eqb_neq.
        apply Hother. unfold result. rewrite getStory_run, E. reflexivity.
  - intro Hc. apply getChapter_result in Hc. unfold get_chapter.
    apply try_catch_ok. rewrite (bind_run _ _ _ _ _ Hc). reflexivity.
Qed.

Lemma get_chapter_visibility_witness :
  get_chapter "bob" "c2" sample_world
  = (Ok (mkResponse 404 (json_message "Chapter not found")), sample_world)
  /\ get_chapter "alice" "c2" sample_world
     = (Ok (mkResponse 200 (json_chapter (Some chapter_two))), sample_world)
  /\ get_chapter "bob" "c1" sample_world
     = (Ok (mkResponse 200 (json_chapter (Some chapter_one))), sample_world).
Proof.
  split; [|split].
  - destruct (get_chapter_visibility sample_world "bob" "c2") as [H _].
    destruct (H chapter_two eq_refl) as (_ & _ & Hhidden).
    apply Hhidden; [discriminate|].
    intros s Hs. apply Ok_inj in Hs. injection Hs as <-. discriminate.
  - destruct (get_chapter_visibility sample_world "alice" "c2") as [H _].
    destruct (H chapter_two eq_refl) as (_ & Hauthor & _).
    apply (Hauthor tale); reflexivity.
  - destruct (get_chapter_visibility sample_world "bob" "c1") as [H _].
    destruct (H chapter_one eq_refl) as (Hpublished & _).
    apply Hpublished. reflexivity.
Defined.

(** POST /api/chapters/:id/publish is for the author of the
    chapter's story: a caller who is not that author (or a chapter whose
    story is gone) is answered 403 "Not authorized", a chapter that does
    not exist 404, and in each case the world is as it was. *)
Theorem post_chapter_publish_owner_only (w : World) (userId id : string) :
  (forall c,
      result (getChapter id) w = Ok (Some c) ->
      (forall s,
          result (getStory (Chapter.storyId c)) w = Ok (Some s) ->
          Story.authorId s <> userId) ->
      post_chapter_publish userId id w
      = (Ok (mkResponse 403 (json_message "Not authorized")), w))
  /\ (result (getChapter id) w = Ok None ->
      post_chapter_publish userId id w
      = (Ok (mkResponse 404 (json_message "Chapter not found")), w)).
Proof.
  split.
  - intros c Hc Hother. apply getChapter_result in Hc.
    unfold post_chapter_publish. apply try_catch_ok.
    rewrite (bind_run _ _ _ _ _ Hc).
    rewrite (bind_run _ _ _ _ _ (getStory_run w (Chapter.storyId c))).
    destruct (hd_error _) as [s|] eqn:E; [|reflexivity].
    replace (Story.authorId s =? userId)%string with false; [reflexivity|].
    symmetry. apply String.eqb_neq, Hother.
    unfold result. rewrite getStory_run, E. reflexivity.
  - intro Hc. apply getChapter_result in Hc. unfold post_chapter_publish.
    apply try_catch_ok. rewrite (bind_run _ _ _ _ _ Hc). reflexivity.
Qed.

Lemma post_chapter_publish_owner_only_witness :
  post_chapter_publish "bob" "c2" sample_world
  = (Ok (mkResponse 403 (json_message "Not authorized")), sample_world)
  /\ post_chapter_publish "bob" "c9" sample_world
     = (Ok (mkResponse 404 (json_message "Chapter not found")), sample_world).
Proof.
  destruct (post_chapter_publish_owner_only sample_world "bob" "c2") as [H403 _].
  destruct (post_chapter_publish_owner_only sample_world "bob" "c9") as [_ H404].
  split.
  - apply (H403 chapter_two eq_refl).
    intros s Hs. apply Ok_inj in Hs. injection Hs as <-. discriminate.
  - apply H404. reflexivity.
Defined.

(** POST /api/stories/:id/like for a story (or a caller) that does
    not exist, no like row of the pair being there, answers 500 "Failed to
    toggle like" and writes nothing. *)
Theorem post_like_missing_story (w : World) (userId storyId : string) :
  ~ likes_story (db w) userId storyId ->
  has_user (db w) userId = false \/ has_story (db w) storyId = false ->
  result (post_like userId storyId) w
  = Ok (mkResponse 500 (json_message "Failed to toggle like"))
  /\ db (after (post_like userId storyId) w) = db w.
Proof.
  intros Hl Hmissing.
  destruct (toggleLike_cases w userId storyId)
    as [(Hl' & _)|[(_ & [e He] & Hdb)|(_ & Hu & Hs & _)]].
  - contradiction.
  - unfold result, after in *. unfold post_like.
    destruct (toggleLike userId storyId w) as [o w'] eqn:Hrun.
    cbn [fst snd] in He, Hdb. subst o.
    rewrite (try_catch_throw _ _ w w' e)
      by (apply bind_throw; exact Hrun).
    cbn [fst snd]. split; [reflexivity|exact Hdb].
  - destruct Hmissing; congruence.
Qed.

Lemma post_like_missing_story_witness :
  result (post_like "bob" "s9") sample_world
  = Ok (mkResponse 500 (json_message "Failed to toggle like"))
  /\ db (after (post_like "bob" "s9") sample_world) = db sample_world.
Proof.
  apply post_like_missing_story.
  - intros [l [Hin [_ Hs]]]. simpl in Hin. destruct Hin as [<-|[]]. discriminate Hs.
  - right. reflexivity.
Defined.

(** ** The order of the GET routes *)

Lemma story_subroute_is_feed_route (same : string -> string -> bool)
    (n l : string) (path : list string) :
  (forall x, same l x = true -> x <> "") ->
  matches same [literal "api"; literal "stories"; parameter n; literal l] path = true ->
  matches same
    [literal "api"; literal "stories"; parameter "category"; parameter "sortBy"] path
  = true.
Proof.
  intros Hl H.
  destruct path as [|a [|b [|c [|d rest]]]]; cbn [matches] in H |- *;
    try discriminate H;
    try (rewrite ?andb_false_r in H; discriminate H).
  repeat (apply andb_true_iff in H; destruct H as [? H]).
  repeat (apply andb_true_iff; split); try assumption.
  apply negb_true_iff, String.eqb_neq, Hl. assumption.
Qed.

Lemma shorter_literal_routes (same : string -> string -> bool)
    (a b c d x y z : string) :
  d <> "" ->
  matches same [literal x; literal y] [a; b; c; d] = false
  /\ matches same [literal x; literal y; literal z] [a; b; c; d] = false.
Proof.
  intro Hd. apply String.eqb_neq in Hd.
  split; cbn [matches]; rewrite ?Hd, ?andb_false_r; reflexivity.
Qed.

(** X30.  Of the GET routes of routes.ts, six are never the one that
    answers: /api/stories/:id/chapters (line 246), /api/stories/:id/likes
    (393) and /api/stories/:storyId/highlights (449, 557) lie behind
    /api/stories/:category/:sortBy (60), which matches every path they
    match and is registered first, and the second registrations of
    /api/user/bookmarks (546) and /api/user/quotes (569) lie behind the
    first.  So GET /api/stories/<id>/chapters is answered by the feed
    route, with category = <id> and sortBy = "chapters". *)
Theorem get_routes_behind_feed_route (same : string -> string -> bool) :
  (forall l x, l <> "" -> same l x = true -> x <> "") ->
  (forall path r,
      dispatch_get same path = Some r ->
      ~ In (snd r) [246; 393; 449; 546; 557; 569]%nat)
  /\ ((forall l, same l l = true) ->
      forall id,
        id <> "" ->
        option_map snd (dispatch_get same ["api"; "stories"; id; "chapters"])
        = Some 60%nat).
Proof.
  intro Hsame. split.
  - intros path r Hr. unfold dispatch_get in Hr. cbn [find get_registrations fst] in Hr.
    repeat match type of Hr with
           | (if ?c then _ else _) = _ => destruct c eqn:?
           end;
      try (injection Hr as <-; cbn [snd In]; intuition discriminate);
      try discriminate Hr;
      try (exfalso;
           match goal with
           | H : matches same (_ :: _ :: parameter ?n :: literal ?l :: nil) path
                 = true |- _ =>
               apply (story_subroute_is_feed_route same n l path) in H;
                 [congruence
                 |intros x Hx; apply (Hsame l x); [discriminate|exact Hx]]
           end);
      try congruence.
  - intros Hrefl id Hid. unfold dispatch_get, get_registrations. cbn [find fst].
    assert (Hd : "chapters" <> "") by discriminate.
    rewrite (proj2 (shorter_literal_routes same "api" "stories" id "chapters"
                      "api" "auth" "user" Hd)).
    rewrite (proj1 (shorter_literal_routes same "api" "stories" id "chapters"
                      "api" "stories" "" Hd)).
    replace (matches same
               [literal "api"; literal "stories"; parameter "category";
                parameter "sortBy"]
               ["api"; "stories"; id; "chapters"]) with true; [reflexivity|].
    cbn [matches]. rewrite (Hrefl "api"), (Hrefl "stories").
    replace (id =? "")%string with false by (symmetry; apply String.eqb_neq, Hid).
    reflexivity.
Qed.

Lemma get_routes_behind_feed_route_witness :
  option_map snd (dispatch_get String.eqb ["api"; "stories"; "s2"; "chapters"])
  = Some 60%nat.
Proof.
  refine (proj2 (get_routes_behind_feed_route String.eqb _) _ "s2" _).
  - intros l x Hl H. apply String.eqb_eq in H. congruence.
  - apply String.eqb_refl.
  - discriminate.
Defined.

(** ** Witnesses of the two frames *)

Lemma updateStory_frame_witness :
  Forall2 (fun s s' => Story.publishedAt s' = Story.publishedAt s)
    (stories (db sample_world))
    (stories (db (after (updateStory "s1" patch_published) sample_world)))
  /\ likes (db (after (updateStory "s1" patch_published) sample_world))
     = likes (db sample_world).
Proof.
  destruct (updateStory_frame sample_world "s1" patch_published)
    as (Hstories & _ & _ & Hlikes & _).
  split; [|exact Hlikes].
  eapply Forall2_weaken; [|exact Hstories].
  intros s s' (_ & Hp & _). exact Hp.
Defined.

Lemma toggleLike_frame_witness :
  likes_of (db (after (toggleLike "bob" "s1") sample_world)) "s2"
  = likes_of (db sample_world) "s2".
Proof.
  destruct (toggleLike_frame sample_world "bob" "s1") as (_ & _ & _ & _ & Hother & _).
  apply Hother. discriminate.
Defined.
